(** * The chattr command of the file manager: mask derivation and batch application

    A shallow embedding of [src/filemanager/chattr.c]: the attribute table
    [check_attr], the predicate [chattr_is_modifiable], the three loops of
    [chattr_cmd] that derive [and_mask] and [or_mask], and the batch engine
    [try_chattr], [do_chattr], [next_file], [chattr_apply_mask] and
    [chattr_cmd] itself.

    An [unsigned long] is a [Z] in the range [0 .. 2^LONG_BIT - 1]; the width
    [LONG_BIT] is a parameter, and so is the macro [EXT2_FL_USER_MODIFIABLE].
    The operating system, the user and the dialog are an environment of
    oracles; every call to one of them is recorded in a trace kept with the
    program's variables.  What only draws on the screen is left out:
    [chattr_i18n], the layout of [chattr_init] and [do_refresh].  A run of
    the dialog is an oracle that gives the button and the variables as the
    dialog left them; [chattr_callback], [chattr_toggle_select] and
    [chattr_fill_str] are embedded beside it, and of [chattr_init] the
    checkboxes and the set of buttons.

    The last statement of [chattr_cmd], [chattr_done (need_update)], is not
    embedded: its [update_panels] reads the directories again, by code that
    is not in this file, and so replaces the listing of the panel.  The
    embedded [chattr_cmd] is the command up to that call.  [chattr_done]
    itself reads and writes no attribute and shows no prompt, so the record of
    interactions is that of the whole command; the variables are those the
    loop of the command leaves, before the panels are read again. *)

From Stdlib Require Import ZArith Lia Ascii Bool.
From stdpp Require Import base list strings.

Local Open Scope Z_scope.

(** ** Machine words *)

(** Conversion of an [int] to [unsigned long]: reduction modulo [2^w]. *)
Definition ulong_of_int (w : N) (z : Z) : Z := z mod 2 ^ Z.of_N w.

(** [~x] on an [unsigned long] of [w] bits. *)
Definition ulong_not (w : N) (x : Z) : Z := Z.land (Z.lnot x) (Z.ones (Z.of_N w)).

(** ** The attribute table *)

(** Flag values, as listed in the comment that heads the table. *)
Definition EXT2_SECRM_FL : Z := 0x00000001.
Definition EXT2_UNRM_FL : Z := 0x00000002.
Definition EXT2_COMPR_FL : Z := 0x00000004.
Definition EXT2_SYNC_FL : Z := 0x00000008.
Definition EXT2_IMMUTABLE_FL : Z := 0x00000010.
Definition EXT2_APPEND_FL : Z := 0x00000020.
Definition EXT2_NODUMP_FL : Z := 0x00000040.
Definition EXT2_NOATIME_FL : Z := 0x00000080.
Definition EXT2_DIRTY_FL : Z := 0x00000100.
Definition EXT2_COMPRBLK_FL : Z := 0x00000200.
Definition EXT2_NOCOMPR_FL : Z := 0x00000400.
Definition EXT4_ENCRYPT_FL : Z := 0x00000800.
Definition EXT2_INDEX_FL : Z := 0x00001000.
Definition EXT3_JOURNAL_DATA_FL : Z := 0x00004000.
Definition EXT2_NOTAIL_FL : Z := 0x00008000.
Definition EXT2_DIRSYNC_FL : Z := 0x00010000.
Definition EXT2_TOPDIR_FL : Z := 0x00020000.
Definition EXT4_HUGE_FILE_FL : Z := 0x00040000.
Definition EXT4_EXTENTS_FL : Z := 0x00080000.
Definition EXT4_VERITY_FL : Z := 0x00100000.
Definition FS_NOCOW_FL : Z := 0x00800000.
Definition EXT4_INLINE_DATA_FL : Z := 0x10000000.
Definition EXT4_CASEFOLD_FL : Z := 0x40000000.

Module Attr.
(** One element of [check_attr].  The field [check] is the state of the
    checkbox widget the element points to ([CHECK (check)->state]); the
    widget exists for modifiable attributes only, and only those are read. *)
Record t := mk {
  flags : Z;
  attr : ascii;
  text : string;
  selected : bool;
  check : bool
}.

Definition set_selected (b : bool) (e : t) : t :=
  mk (flags e) (attr e) (text e) b (check e).

Definition set_check (b : bool) (e : t) : t :=
  mk (flags e) (attr e) (text e) (selected e) b.
End Attr.

(** The table with every conditionally compiled entry that compiles; each
    entry starts unselected, with no checkbox.  The entry for
    [EXT4_PROJINHERIT_FL] ('P', between 'N' and 'V') lacks the comma after
    its text, so a build that defines the macro does not compile, and no
    table has that entry. *)
Definition check_attr : list Attr.t :=
  [ Attr.mk EXT2_SECRM_FL "s" "Secure deletion" false false;
    Attr.mk EXT2_UNRM_FL "u" "Undelete" false false;
    Attr.mk EXT2_SYNC_FL "S" "Synchronous updates" false false;
    Attr.mk EXT2_DIRSYNC_FL "D" "Synchronous directory updates" false false;
    Attr.mk EXT2_IMMUTABLE_FL "i" "Immutable" false false;
    Attr.mk EXT2_APPEND_FL "a" "Append only" false false;
    Attr.mk EXT2_NODUMP_FL "d" "No dump" false false;
    Attr.mk EXT2_NOATIME_FL "A" "No update atime" false false;
    Attr.mk EXT2_COMPR_FL "c" "Compress" false false;
    Attr.mk EXT2_COMPRBLK_FL "B" "Compressed clusters" false false;
    Attr.mk EXT2_DIRTY_FL "Z" "Compressed dirty file" false false;
    Attr.mk EXT2_NOCOMPR_FL "X" "Compression raw access" false false;
    Attr.mk EXT4_ENCRYPT_FL "E" "Encrypted inode" false false;
    Attr.mk EXT3_JOURNAL_DATA_FL "j" "Journaled data" false false;
    Attr.mk EXT2_INDEX_FL "I" "Indexed directory" false false;
    Attr.mk EXT2_NOTAIL_FL "t" "No tail merging" false false;
    Attr.mk EXT2_TOPDIR_FL "T" "Top of directory hierarchies" false false;
    Attr.mk EXT4_EXTENTS_FL "e" "Inode uses extents" false false;
    Attr.mk EXT4_HUGE_FILE_FL "h" "Huge_file" false false;
    Attr.mk FS_NOCOW_FL "C" "No COW" false false;
    Attr.mk EXT4_CASEFOLD_FL "F" "Casefolded file" false false;
    Attr.mk EXT4_INLINE_DATA_FL "N" "Inode has inline data" false false;
    Attr.mk EXT4_VERITY_FL "V" "Verity protected inode" false false ].

(** Values [dlg_run] returns: the button that closed the dialog. *)
Inductive button :=
  | B_CANCEL | B_ENTER | B_MARKED | B_SETALL | B_SETMRK | B_CLRMRK
  | B_OTHER (code : Z).

Definition is_B_SETALL (b : button) : bool :=
  match b with B_SETALL => true | _ => false end.

Definition is_B_CANCEL (b : button) : bool :=
  match b with B_CANCEL => true | _ => false end.

(** The pair of file-scope variables [and_mask], [or_mask]. *)
Record mask_pair := MaskPair { and_mask : Z; or_mask : Z }.

(** [m &= and_mask; m |= or_mask;], the first two statements of [do_chattr]. *)
Definition apply_mask (mk : mask_pair) (m : Z) : Z :=
  Z.lor (Z.land m (and_mask mk)) (or_mask mk).

Section MaskBuilder.

(** Width of [unsigned long]. *)
Variable LONG_BIT : N.

(** The macro of [ext2fs/ext2_fs.h], which is not part of this file. *)
Variable EXT2_FL_USER_MODIFIABLE : Z.

Definition chattr_is_modifiable (e : Attr.t) : bool :=
  negb (Z.land (Attr.flags e) EXT2_FL_USER_MODIFIABLE =? 0).

(** [or_mask = 0; and_mask = ~0;] *)
Definition mask_init : mask_pair :=
  MaskPair (ulong_of_int LONG_BIT (Z.lnot 0)) 0.

(** Body of the loop under [case B_SETALL: case B_MARKED:]. *)
Definition setall_body (result : button) (mk : mask_pair) (e : Attr.t) : mask_pair :=
  if chattr_is_modifiable e && (Attr.selected e || is_B_SETALL result) then
    if Attr.check e then
      MaskPair (and_mask mk) (Z.lor (or_mask mk) (Attr.flags e))
    else
      MaskPair (Z.land (and_mask mk) (ulong_not LONG_BIT (Attr.flags e))) (or_mask mk)
  else mk.

(** Body of the loop under [case B_SETMRK:]. *)
Definition setmrk_body (mk : mask_pair) (e : Attr.t) : mask_pair :=
  if chattr_is_modifiable e && Attr.selected e then
    MaskPair (and_mask mk) (Z.lor (or_mask mk) (Attr.flags e))
  else mk.

(** Body of the loop under [case B_CLRMRK:]. *)
Definition clrmrk_body (mk : mask_pair) (e : Attr.t) : mask_pair :=
  if chattr_is_modifiable e && Attr.selected e then
    MaskPair (Z.land (and_mask mk) (ulong_not LONG_BIT (Attr.flags e))) (or_mask mk)
  else mk.

(** The masks [chattr_cmd] derives for the button [result] from the table
    [tbl]: [for (i = 0; i < ATTR_NUM; i++)] over the loop body of the case.
    Buttons that derive no mask give [None]. *)
Definition build_mask (result : button) (tbl : list Attr.t) : option mask_pair :=
  match result with
  | B_SETALL | B_MARKED => Some (fold_left (setall_body result) tbl mask_init)
  | B_SETMRK => Some (fold_left setmrk_body tbl mask_init)
  | B_CLRMRK => Some (fold_left clrmrk_body tbl mask_init)
  | _ => None
  end.

End MaskBuilder.

(** ** The panel *)

(** An element of [current_panel->dir.list]. *)
Record file_entry := FileEntry { fname : string; f_marked : bool }.

(** The fields of [WPanel] the command uses: the directory listing, the
    number of marked entries and the index of the entry under the cursor. *)
Record WPanel := Panel {
  dir_list : list file_entry;
  marked : Z;
  selected : nat
}.

(** Modelled from the spec: [do_file_mark] of [panel.c], which is not part of
    this file.  The spec's [unmark(path)] and the comment at the call site
    ("decrease current_panel->marked"): an entry whose mark already has the
    wanted value is left alone, otherwise the mark is stored and the count of
    marked entries follows it. *)
Definition do_file_mark (panel : WPanel) (idx : nat) (mark : bool) : WPanel :=
  match dir_list panel !! idx with
  | Some e =>
      if eqb (f_marked e) mark then panel
      else Panel (<[idx := FileEntry (fname e) mark]> (dir_list panel))
                 (if mark then marked panel + 1 else marked panel - 1)
                 (selected panel)
  | None => panel
  end.

(** ** The environment *)

(** What the program asks of the operating system and of the user. *)
Inductive event :=
  | EvIsLocal (r : bool)
  | EvGetflags (p : string) (r : option Z)
  | EvSetflags (p : string) (m : Z) (ok : bool)
  | EvQuery (p : string) (answer : Z)
  | EvMessage (msg : string)
  | EvDialog (p : string) (attr : Z) (result : button).

(** What a run of the dialog leaves behind: the button, and the variables
    [chattr_callback] changes while the dialog is open. *)
Record dlg_outcome := DlgOutcome {
  dlg_result : button;
  dlg_flags : Z;
  dlg_flags_changed : bool;
  dlg_check_attr : list Attr.t
}.

(** The oracles.  The first argument of each is the number of interactions
    that happened before the call, so an answer may change from one call to
    the next.  [fgetflags] answers [Some flags] for the return value 0,
    [fsetflags] answers [true] for a return value other than -1, and
    [query_dialog] answers the index of the chosen button. *)
Record env := Env {
  vfs_current_is_local : nat -> bool;
  fgetflags : nat -> string -> option Z;
  fsetflags : nat -> string -> Z -> bool;
  query_dialog : nat -> string -> Z;
  dlg_run : nat -> string -> Z -> list Attr.t -> dlg_outcome
}.

(** ** The file-scope variables *)

(** The variables of the file and [current_panel], and with them the
    history of the interactions so far, which is no variable of the program
    and which the program never reads, except that its length is the time
    the oracles are asked at. *)
Record globals := Globals {
  current_panel : WPanel;
  attr_table : list Attr.t;
  flags_changed : bool;
  current_file : nat;
  ignore_all : bool;
  masks : mask_pair;
  flags : Z;
  trace : list event
}.

Definition set_panel (p : WPanel) (g : globals) : globals :=
  Globals p (attr_table g) (flags_changed g) (current_file g) (ignore_all g)
          (masks g) (flags g) (trace g).

Definition set_attr_table (t : list Attr.t) (g : globals) : globals :=
  Globals (current_panel g) t (flags_changed g) (current_file g) (ignore_all g)
          (masks g) (flags g) (trace g).

Definition set_flags_changed (b : bool) (g : globals) : globals :=
  Globals (current_panel g) (attr_table g) b (current_file g) (ignore_all g)
          (masks g) (flags g) (trace g).

Definition set_current_file (i : nat) (g : globals) : globals :=
  Globals (current_panel g) (attr_table g) (flags_changed g) i (ignore_all g)
          (masks g) (flags g) (trace g).

Definition set_ignore_all (b : bool) (g : globals) : globals :=
  Globals (current_panel g) (attr_table g) (flags_changed g) (current_file g) b
          (masks g) (flags g) (trace g).

Definition set_masks (mk : mask_pair) (g : globals) : globals :=
  Globals (current_panel g) (attr_table g) (flags_changed g) (current_file g)
          (ignore_all g) mk (flags g) (trace g).

Definition set_flags (m : Z) (g : globals) : globals :=
  Globals (current_panel g) (attr_table g) (flags_changed g) (current_file g)
          (ignore_all g) (masks g) m (trace g).

(** Record an interaction; the newest comes first. *)
Definition log (e : event) (g : globals) : globals :=
  Globals (current_panel g) (attr_table g) (flags_changed g) (current_file g)
          (ignore_all g) (masks g) (flags g) (e :: trace g).

(** Number of interactions so far. *)
Definition now (g : globals) : nat := length (trace g).

(** [do_file_mark (current_panel, current_file, 0)]. *)
Definition unmark_current (g : globals) : globals :=
  set_panel (do_file_mark (current_panel g) (current_file g) false) g.

(** ** Programs *)

(** A loop of the program may run for ever, and [next_file] has no bound on
    its index: a run ends with a value, or out of fuel, or outside the
    directory listing.  Each ending carries the variables as the run left
    them, so the interactions of an unfinished run can be inspected too. *)
Inductive res (A : Type) :=
  | Ok (a : A) (g : globals)
  | OutOfFuel (g : globals)
  | OutOfBounds (g : globals).
Arguments Ok {A} a g.
Arguments OutOfFuel {A} g.
Arguments OutOfBounds {A} g.

Definition res_state {A : Type} (r : res A) : globals :=
  match r with
  | Ok _ g => g
  | OutOfFuel g => g
  | OutOfBounds g => g
  end.

Definition returned {A : Type} (r : res A) : bool :=
  match r with Ok _ _ => true | _ => false end.

(** A statement sequence that reads and writes the file-scope variables. *)
Definition prog (A : Type) : Type := globals -> res A.

Definition ret {A : Type} (a : A) : prog A := fun g => Ok a g.

Definition bind {A B : Type} (m : prog A) (f : A -> prog B) : prog B :=
  fun g =>
    match m g with
    | Ok a g' => f a g'
    | OutOfFuel g' => OutOfFuel g'
    | OutOfBounds g' => OutOfBounds g'
    end.

Notation "'let*' p := m 'in' k" := (bind m (fun p => k))
  (at level 10, p pattern, m at level 100, k at level 200, only parsing).
Notation "m ;; k" := (bind m (fun _ => k))
  (at level 100, k at level 200, right associativity, only parsing).

Definition get : prog globals := fun g => Ok g g.
Definition modify (f : globals -> globals) : prog unit := fun g => Ok tt (f g).
Definition out_of_fuel {A : Type} : prog A := fun g => OutOfFuel g.
Definition out_of_bounds {A : Type} : prog A := fun g => OutOfBounds g.

(** ** The batch engine *)

(** Modelled from the spec: [vfs_path_from_str] and [vfs_path_as_str] of
    [lib/vfs], which are not part of this file.  The spec knows a file by
    its path alone, so a [vfs_path_t] is the string it was made from. *)
Definition vfs_path_from_str (s : string) : string := s.
Definition vfs_path_as_str (vpath : string) : string := vpath.

(** The search of [next_file]: the first marked entry of [l], whose head has
    index [i]. *)
Fixpoint next_marked (l : list file_entry) (i : nat) : option (nat * file_entry) :=
  match l with
  | [] => None
  | e :: l' => if f_marked e then Some (i, e) else next_marked l' (S i)
  end.

(** [while (!list[current_file].f.marked) current_file++;] and the name of
    the entry found. *)
Definition next_file : prog string :=
  let* g := get in
  match next_marked (drop (current_file g) (dir_list (current_panel g)))
                    (current_file g) with
  | Some (k, e) => modify (set_current_file k) ;; ret (fname e)
  | None => out_of_bounds
  end.

Section Engine.

Variable LONG_BIT : N.
Variable EXT2_FL_USER_MODIFIABLE : Z.
Variable E : env.

(** Calls into the environment; each leaves its event in the trace. *)
Definition call_vfs_current_is_local : prog bool :=
  fun g => let r := vfs_current_is_local E (now g) in Ok r (log (EvIsLocal r) g).

Definition call_fgetflags (p : string) : prog (option Z) :=
  fun g => let r := fgetflags E (now g) p in Ok r (log (EvGetflags p r) g).

Definition call_fsetflags (p : string) (m : Z) : prog bool :=
  fun g => let ok := fsetflags E (now g) p m in Ok ok (log (EvSetflags p m ok) g).

Definition call_query_dialog (p : string) : prog Z :=
  fun g => let a := query_dialog E (now g) p in Ok a (log (EvQuery p a) g).

Definition call_message (msg : string) : prog unit :=
  modify (log (EvMessage msg)).

Definition call_dlg_run (p : string) (attr : Z) : prog button :=
  fun g =>
    let o := dlg_run E (now g) p attr (attr_table g) in
    Ok (dlg_result o)
       (log (EvDialog p attr (dlg_result o))
          (set_flags (dlg_flags o)
             (set_flags_changed (dlg_flags_changed o)
                (set_attr_table (dlg_check_attr o) g)))).

Fixpoint try_chattr (fuel : nat) (p : string) (m : Z) : prog bool :=
  match fuel with
  | O => out_of_fuel
  | S fuel' =>
      let* ok := call_fsetflags p m in
      let* g := get in
      if negb ok && negb (ignore_all g) then
        let* result := call_query_dialog p in
        if result =? 0 then ret true
        else if result =? 1 then modify (set_ignore_all true) ;; ret true
        else if result =? 2 then try_chattr fuel' p m
        else ret false
      else ret true
  end.

Definition do_chattr (fuel : nat) (p : string) (m : Z) : prog bool :=
  let* g := get in
  let m := apply_mask (masks g) m in
  let* r := try_chattr fuel (vfs_path_as_str p) m in
  modify unmark_current ;;
  ret r.

(** The [do ... while (ok && current_panel->marked != 0)] of
    [chattr_apply_mask]. *)
Fixpoint chattr_apply_loop (fuel : nat) : prog unit :=
  match fuel with
  | O => out_of_fuel
  | S fuel' =>
      let* fn := next_file in
      let* r := call_fgetflags fn in
      let* ok := match r with
                 | None => modify unmark_current ;; ret true
                 | Some m =>
                     modify (set_flags m) ;; do_chattr fuel' (vfs_path_from_str fn) m
                 end in
      let* g := get in
      if ok && negb (marked (current_panel g) =? 0)
      then chattr_apply_loop fuel'
      else ret tt
  end.

Definition chattr_apply_mask (fuel : nat) (vpath : string) (m : Z) : prog unit :=
  let* ok := do_chattr fuel vpath m in
  if ok then chattr_apply_loop fuel else ret tt.

(** The part of [chattr_init] that touches the variables: [flags_changed]
    is reset and every modifiable attribute gets a checkbox that shows
    whether [attr] has its bit. *)
Definition chattr_init (attr : Z) : prog unit :=
  modify (set_flags_changed false) ;;
  modify (fun g =>
    set_attr_table
      (map (fun e => if chattr_is_modifiable EXT2_FL_USER_MODIFIABLE e
                     then Attr.set_check (negb (Z.land attr (Attr.flags e) =? 0)) e
                     else e)
           (attr_table g)) g).

(** [case B_ENTER:] of [chattr_cmd]; the value is the pair of [result] and
    [end_chattr] as the case leaves them. *)
Definition chattr_enter (fuel : nat) (fname2 : string) : prog (button * bool) :=
  let* g := get in
  if flags_changed g then
    if marked (current_panel g) <=? 1 then
      let* ok := call_fsetflags fname2 (flags g) in
      (if negb ok && negb (ignore_all g) then call_message fname2 else ret tt) ;;
      ret (B_ENTER, true)
    else
      let* ok := try_chattr fuel fname2 (flags g) in
      if ok then ret (B_ENTER, false) else ret (B_CANCEL, true)
  else ret (B_ENTER, false).

(** The [switch (result)] of [chattr_cmd]. *)
Definition chattr_switch (fuel : nat) (result : button) (vpath : string)
  : prog (button * bool) :=
  match result with
  | B_CANCEL => ret (result, true)
  | B_ENTER => chattr_enter fuel (vfs_path_as_str vpath)
  | B_OTHER _ => ret (result, false)
  | _ =>
      modify (fun g =>
        match build_mask LONG_BIT EXT2_FL_USER_MODIFIABLE result (attr_table g) with
        | Some mk => set_masks mk g
        | None => g
        end) ;;
      let* g := get in
      chattr_apply_mask fuel vpath (flags g) ;;
      ret (result, true)
  end.

(** The file the dialog opens on: the next marked file, or the entry under
    the cursor when nothing is marked. *)
Definition chattr_pick : prog string :=
  let* g := get in
  if negb (marked (current_panel g) =? 0) then next_file
  else match dir_list (current_panel g) !! selected (current_panel g) with
       | Some e => ret (fname e)
       | None => out_of_bounds
       end.

(** One round of the outer loop of [chattr_cmd]; the value tells whether
    the loop is left. *)
Definition chattr_cmd_round (fuel : nat) : prog bool :=
  let* loc := call_vfs_current_is_local in
  if negb loc then
    call_message "Cannot change attributes on non-local filesystems" ;;
    ret true
  else
    let* fn := chattr_pick in
    let vpath := vfs_path_from_str fn in
    let fname2 := vfs_path_as_str vpath in
    let* r := call_fgetflags fname2 in
    match r with
    | None => call_message fn ;; ret true
    | Some attr =>
        modify (set_flags attr) ;;
        chattr_init attr ;;
        let* result := call_dlg_run fn attr in
        let* (result, end_chattr) := chattr_switch fuel result vpath in
        let* g := get in
        (if negb (marked (current_panel g) =? 0) && negb (is_B_CANCEL result)
         then modify unmark_current else ret tt) ;;
        let* g := get in
        ret (negb (negb (marked (current_panel g) =? 0) && negb end_chattr))
    end.

Fixpoint chattr_cmd_loop (fuel : nat) : prog unit :=
  match fuel with
  | O => out_of_fuel
  | S fuel' =>
      let* leave := chattr_cmd_round fuel' in
      if leave then ret tt else chattr_cmd_loop fuel'
  end.

(** [chattr_cmd] up to its last statement: [current_file = 0;
    ignore_all = FALSE;] and the loop.  The call [chattr_done (need_update)]
    that follows reads the panels again and is not embedded. *)
Definition chattr_cmd (fuel : nat) : prog unit :=
  modify (set_current_file 0%nat) ;;
  modify (set_ignore_all false) ;;
  chattr_cmd_loop fuel.

End Engine.

(** ** The dialog *)

(** [chattr_fill_str]: the text of [attr_str] up to its terminator, one
    character for each element of the table. *)
Definition chattr_fill_str (tbl : list Attr.t) (attr : Z) : string :=
  String.string_of_list_ascii
    (map (fun e => if negb (Z.land attr (Attr.flags e) =? 0)
                   then Attr.attr e else "-"%char) tbl).

(** [chattr_toggle_select], without the drawing: the star of the element
    [Id] is flipped. *)
Definition chattr_toggle_select (Id : nat) (tbl : list Attr.t) : list Attr.t :=
  match tbl !! Id with
  | Some e => <[Id := Attr.set_selected (negb (Attr.selected e)) e]> tbl
  | None => tbl
  end.

(** The messages [chattr_callback] tells apart, and what it returns; every
    message other than [MSG_NOTIFY] and [MSG_KEY] goes to
    [dlg_default_callback]. *)
Inductive widget_msg_t := MSG_NOTIFY | MSG_KEY | MSG_OTHER.
Inductive cb_ret_t := MSG_HANDLED | MSG_NOT_HANDLED | MSG_DEFAULT.

(** The two loops of [chattr_callback] that look for the checkbox a message
    is about: the first index [i], counted from the index [i0] of the head
    of [tbl], whose attribute is modifiable and whose checkbox is the widget
    [w].  A widget is known by the index of the element it was made for, or
    is [None] when it is no checkbox of the table. *)
Fixpoint find_check (modifiable : Z) (tbl : list Attr.t) (i0 : nat) (w : option nat)
  : option (nat * Attr.t) :=
  match tbl with
  | [] => None
  | e :: tbl' =>
      if chattr_is_modifiable modifiable e && bool_decide (w = Some i0)
      then Some (i0, e)
      else find_check modifiable tbl' (S i0) w
  end.

(** [chattr_callback], without the drawing.  [sender] is the widget that sent
    the message, [current] the widget [dlg_get_current_widget_id] gives;
    [KEY_IC] is the key code of [lib/tty/key.h], which is not part of this
    file. *)
Definition chattr_callback (modifiable KEY_IC : Z) (sender current : option nat)
    (msg : widget_msg_t) (parm : Z) (g : globals) : cb_ret_t * globals :=
  match msg with
  | MSG_NOTIFY =>
      match find_check modifiable (attr_table g) 0 sender with
      | Some (i, e) =>
          (MSG_HANDLED,
           set_flags_changed true
             (set_attr_table (chattr_toggle_select i (attr_table g))
                (set_flags (Z.lxor (flags g) (Attr.flags e)) g)))
      | None => (MSG_NOT_HANDLED, g)
      end
  | MSG_KEY =>
      if (parm =? 84) || (parm =? 116) || (parm =? KEY_IC) then
        match find_check modifiable (attr_table g) 0 current with
        | Some (i, _) =>
            (MSG_HANDLED, set_attr_table (chattr_toggle_select i (attr_table g)) g)
        | None => (MSG_NOT_HANDLED, g)
        end
      else (MSG_NOT_HANDLED, g)
  | MSG_OTHER => (MSG_DEFAULT, g)
  end.

(** The return codes of the table [chattr_but], in its order. *)
Definition chattr_but : list button :=
  [B_SETALL; B_MARKED; B_SETMRK; B_CLRMRK; B_ENTER; B_CANCEL].

(** The buttons [chattr_init] gives the dialog: its loop starts at 0, or at
    [BUTTONS - 2] when fewer than two files are marked, and adds two buttons
    of [chattr_but] in each round. *)
Fixpoint add_buttons (rounds : nat) (but : list button) : list button :=
  match rounds, but with
  | S n, b1 :: b2 :: but' => b1 :: b2 :: add_buttons n but'
  | _, _ => []
  end.

Definition chattr_init_buttons (marked_files : Z) : list button :=
  let single_set := marked_files <? 2 in
  let first := if single_set then (length chattr_but - 2)%nat else 0%nat in
  add_buttons (length chattr_but) (drop first chattr_but).


(** ** Vocabulary of the properties *)

(** The attributes of a table have pairwise disjoint flag values. *)
Fixpoint disjoint_flags (tbl : list Attr.t) : bool :=
  match tbl with
  | [] => true
  | e :: tbl' =>
      forallb (fun e' => Z.land (Attr.flags e) (Attr.flags e') =? 0) tbl'
      && disjoint_flags tbl'
  end.

(** A flag value with exactly one bit set. *)
Definition one_bit (f : Z) : bool := f =? 2 ^ Z.log2 f.

(** The bits of the modifiable attributes of a table. *)
Definition modifiable_bits (modifiable : Z) (tbl : list Attr.t) : Z :=
  foldr Z.lor 0 (map Attr.flags (filter (fun e => chattr_is_modifiable modifiable e = true) tbl)).

(** The transformation a mask pair makes of one bit: [(and bit, or bit)]. *)
Definition mask_bit (mk : mask_pair) (i : Z) : bool * bool :=
  (Z.testbit (and_mask mk) i, Z.testbit (or_mask mk) i).

(** The two assignments the mask loops make: [or_mask |= f] and
    [and_mask &= ~f]. *)
Definition force_set (mk : mask_pair) (f : Z) : mask_pair :=
  MaskPair (and_mask mk) (Z.lor (or_mask mk) f).

Definition force_clear (w : N) (mk : mask_pair) (f : Z) : mask_pair :=
  MaskPair (Z.land (and_mask mk) (ulong_not w f)) (or_mask mk).

(** No bit is both cleared by [and_mask] and set by [or_mask]:
    [or_mask & ~and_mask = 0]. *)
Definition mask_consistent (w : N) (mk : mask_pair) : Prop :=
  Z.land (or_mask mk) (ulong_not w (and_mask mk)) = 0.

(** The mask pair leaves the bits of [f] as they are. *)
Definition mask_spares (w : N) (mk : mask_pair) (f : Z) : Prop :=
  Z.land f (or_mask mk) = 0 /\ Z.land f (ulong_not w (and_mask mk)) = 0.

(** A loop body that leaves the masks alone, or sets or clears the flag
    of the attribute it looks at, and that passes over the attributes that
    are not modifiable. *)
Definition simple_body (w : N) (body : mask_pair -> Attr.t -> mask_pair) : Prop :=
  forall mk e,
    body mk e = mk \/ body mk e = force_set mk (Attr.flags e)
    \/ body mk e = force_clear w mk (Attr.flags e).

Definition modifiable_only (modifiable : Z) (body : mask_pair -> Attr.t -> mask_pair)
  : Prop :=
  forall mk e, chattr_is_modifiable modifiable e = false -> body mk e = mk.

(** Kinds of interaction.  A prompt of [try_chattr] is answered 0 for
    "Ignore", 1 for "Ignore all", 2 for "Retry"; every other answer takes the
    branch of "Cancel". *)
Definition is_query (e : event) : bool :=
  match e with EvQuery _ _ => true | _ => false end.

Definition is_ignore_all_query (e : event) : bool :=
  match e with EvQuery _ a => a =? 1 | _ => false end.

Definition is_cancel_query (e : event) : bool :=
  match e with
  | EvQuery _ a => negb (a =? 0) && negb (a =? 1) && negb (a =? 2)
  | _ => false
  end.

(** The interactions [try_chattr] may have for the file [p] and the flags
    [m]: writes of [m] to [p] and prompts about [p]. *)
Definition is_try_event (p : string) (m : Z) (e : event) : bool :=
  match e with
  | EvSetflags p' m' _ => String.eqb p' p && (m' =? m)
  | EvQuery p' _ => String.eqb p' p
  | _ => false
  end.

(** In a trace, newest interaction first: no prompt comes after a prompt
    that was answered "Ignore all". *)
Fixpoint no_prompt_after_ignore_all (t : list event) : bool :=
  match t with
  | [] => true
  | e :: t' =>
      (if is_query e then negb (existsb is_ignore_all_query t') else true)
      && no_prompt_after_ignore_all t'
  end.

(** The file and the flags of the latest read of a trace, when that read
    succeeded. *)
Fixpoint last_read (t : list event) : option (string * Z) :=
  match t with
  | [] => None
  | EvGetflags p (Some v) :: _ => Some (p, v)
  | EvGetflags p None :: _ => None
  | _ :: t' => last_read t'
  end.

(** In a trace, newest interaction first: every write goes to the file of
    the latest read and stores the flags read there, transformed by the mask
    pair. *)
Fixpoint writes_masked (mk : mask_pair) (t : list event) : bool :=
  match t with
  | [] => true
  | EvSetflags p m _ :: t' =>
      match last_read t' with
      | Some (q, v) => String.eqb p q && (m =? apply_mask mk v)
      | None => false
      end && writes_masked mk t'
  | _ :: t' => writes_masked mk t'
  end.

(** The variables a write attempt leaves alone. *)
Definition same_frame (g g' : globals) : Prop :=
  current_panel g' = current_panel g /\ attr_table g' = attr_table g
  /\ flags_changed g' = flags_changed g /\ current_file g' = current_file g
  /\ masks g' = masks g /\ flags g' = flags g.

(** The prompts of a batch so far, [ev], agree with the value [ia] of the
    variable [ignore_all]: no prompt came after an "Ignore all", and an
    "Ignore all" among them has set the variable. *)
Definition disciplined (ev : list event) (ia : bool) : Prop :=
  no_prompt_after_ignore_all ev = true
  /\ (existsb is_ignore_all_query ev = true -> ia = true).

(** No prompt so far, and [ignore_all] is set. *)
Definition quiet (ev : list event) (ia : bool) : Prop :=
  existsb is_query ev = false /\ ia = true.

(** The program [f] keeps a property [J] of the interactions since some
    point of the run and of the variable [ignore_all], however [f] ends. *)
Definition preserves {A : Type} (J : list event -> bool -> Prop) (f : prog A) : Prop :=
  forall g base ev,
    trace g = ev ++ base -> J ev (ignore_all g) ->
    exists ev',
      trace (res_state (f g)) = ev' ++ base
      /\ J ev' (ignore_all (res_state (f g))).

(** The bits of the attributes of a table that [sel] picks. *)
Definition flag_bits (sel : Attr.t -> bool) (tbl : list Attr.t) : Z :=
  foldr Z.lor 0 (map Attr.flags (filter (fun e => sel e = true) tbl)).

(** The attributes the mask loops look at: modifiable and starred, or just
    modifiable under "Set all". *)
Definition takes_part (modifiable : Z) (result : button) (e : Attr.t) : bool :=
  chattr_is_modifiable modifiable e && (Attr.selected e || is_B_SETALL result).

Definition starred (modifiable : Z) (e : Attr.t) : bool :=
  chattr_is_modifiable modifiable e && Attr.selected e.

(** The checkbox of every attribute that takes part shows whether [attr] has
    the bit of the attribute. *)
Definition checks_agree (modifiable : Z) (result : button) (attr : Z)
    (tbl : list Attr.t) : Prop :=
  Forall (fun e => takes_part modifiable result e = true ->
                   Attr.check e = Z.testbit attr (Z.log2 (Attr.flags e))) tbl.

(** No attribute of the table has the letter that stands for a clear bit. *)
Definition no_dash (tbl : list Attr.t) : bool :=
  forallb (fun e => negb (Ascii.eqb (Attr.attr e) "-")) tbl.


(** The number of marked entries of a listing. *)
Fixpoint count_marked (l : list file_entry) : nat :=
  match l with
  | [] => 0%nat
  | e :: l' => ((if f_marked e then 1 else 0) + count_marked l')%nat
  end.

(** The counter [current_panel->marked] is the number of marked entries
    from [current_file] on. *)
Definition well_counted (g : globals) : Prop :=
  marked (current_panel g)
  = Z.of_nat (count_marked (drop (current_file g) (dir_list (current_panel g)))).

(** The entry at [current_file] is marked. *)
Definition at_marked (g : globals) : Prop :=
  exists e, dir_list (current_panel g) !! current_file g = Some e /\ f_marked e = true.

(** The user never answers a prompt with "Retry". *)
Definition never_retries (E : env) : Prop :=
  forall n p, query_dialog E n p <> 2.

Definition is_out_of_bounds {A : Type} (r : res A) : bool :=
  match r with OutOfBounds _ => true | _ => false end.

(** The run is over with no marked file left, or its last interaction is a
    prompt answered "Cancel". *)
Definition done_or_aborted (g : globals) : Prop :=
  marked (current_panel g) = 0
  \/ exists p a ev, trace g = EvQuery p a :: ev /\ is_cancel_query (EvQuery p a) = true.

Definition is_write (e : event) : bool :=
  match e with EvSetflags _ _ _ => true | _ => false end.

Definition is_retry_query (e : event) : bool :=
  match e with EvQuery _ a => a =? 2 | _ => false end.

(** In a trace, newest interaction first: the interaction before a prompt
    is a write to the same file that failed. *)
Fixpoint prompts_follow_failures (t : list event) : bool :=
  match t with
  | [] => true
  | e :: t' =>
      match e with
      | EvQuery p _ =>
          match t' with
          | EvSetflags q _ false :: _ => String.eqb p q
          | _ => false
          end
      | _ => true
      end && prompts_follow_failures t'
  end.


(** The number of interactions of a trace that [f] picks. *)
Fixpoint count_events (f : event -> bool) (t : list event) : nat :=
  match t with
  | [] => 0%nat
  | e :: t' => ((if f e then 1 else 0) + count_events f t')%nat
  end.


(** The program [f] keeps a property [I] of the variables, however it
    ends. *)
Definition keeps {A : Type} (I : globals -> Prop) (f : prog A) : Prop :=
  forall g, I g -> I (res_state (f g)).

(** The listing [l] has the entries of [l0] under the same names, and no
    mark that [l0] has not. *)
Definition only_unmarked (l0 l : list file_entry) : Prop :=
  Forall2 (fun e0 e => fname e = fname e0 /\ (f_marked e = true -> f_marked e0 = true)) l0 l.


(** The four buttons that start a batch. *)
Definition is_batch_button (b : button) : bool :=
  match b with
  | B_SETALL | B_MARKED | B_SETMRK | B_CLRMRK => true
  | _ => false
  end.


(** The listing [l0] has a marked entry with the name [p]. *)
Definition names_marked (l0 : list file_entry) (p : string) : bool :=
  existsb (fun e0 => String.eqb (fname e0) p && f_marked e0) l0.

(** A read, a write or a prompt is about a marked entry of [l0]. *)
Definition on_marked (l0 : list file_entry) (e : event) : bool :=
  match e with
  | EvGetflags p _ => names_marked l0 p
  | EvSetflags p _ _ => names_marked l0 p
  | EvQuery p _ => names_marked l0 p
  | _ => true
  end.


(** In the interactions [t], newest first, the file [fn] was dealt with:
    its flags were read, and when the read gave flags, the interaction
    that followed at once was the write to [fn] of those very flags
    transformed by [mk]. *)
Fixpoint mask_applied (mk : mask_pair) (fn : string) (t : list event) : bool :=
  match t with
  | [] => false
  | e :: t' =>
      match e with
      | EvGetflags q None => String.eqb q fn
      | EvSetflags p m _ =>
          match t' with
          | EvGetflags q (Some v) :: _ =>
              String.eqb p fn && String.eqb q fn && (m =? apply_mask mk v)
          | _ => false
          end
      | _ => false
      end || mask_applied mk fn t'
  end.


(** The newest of the interactions [ev] is a prompt answered "Cancel". *)
Definition stopped_by_cancel (ev : list event) : bool :=
  match ev with
  | e :: _ => is_cancel_query e
  | [] => false
  end.


(** ** Sample inputs *)

(** A table of three attributes with the bits 1, 2 and 4, every checkbox on. *)
Definition catalog_124 : list Attr.t :=
  [ Attr.mk 1 "s" "Secure deletion" false true;
    Attr.mk 2 "u" "Undelete" false true;
    Attr.mk 4 "c" "Compress" false true ].

(** A value for [EXT2_FL_USER_MODIFIABLE] that leaves out, among others,
    [EXT2_INDEX_FL] and [EXT4_EXTENTS_FL]. *)
Definition sample_modifiable : Z := 0x000380FF.

(** The table of the program after the user has ticked "Immutable" and
    starred "Immutable", "No dump" and "Indexed directory". *)
Definition sample_table : list Attr.t :=
  <[14%nat := Attr.mk EXT2_INDEX_FL "I" "Indexed directory" true true]>
    (<[6%nat := Attr.mk EXT2_NODUMP_FL "d" "No dump" true false]>
       (<[4%nat := Attr.mk EXT2_IMMUTABLE_FL "i" "Immutable" true true]> check_attr)).

(** A panel of four entries, three of them marked. *)
Definition sample_panel : WPanel :=
  Panel [FileEntry "A" true; FileEntry "dir" false; FileEntry "B" true;
         FileEntry "C" true] 3 0.

(** The variables at the start of a batch that sets "Immutable". *)
Definition sample_globals : globals :=
  Globals sample_panel check_attr false 0 false
          (MaskPair 0xFFFFFFFF EXT2_IMMUTABLE_FL) 0 [].

(** An environment on a local file system, given by what a read of each
    file gives, which writes succeed, how the prompts are answered and what
    the dialog returns. *)
Definition sample_env (read : string -> option Z) (write_ok : nat -> string -> bool)
    (answer : nat -> Z) (dlg : Z -> list Attr.t -> dlg_outcome) : env :=
  Env (fun _ => true) (fun _ p => read p) (fun n p _ => write_ok n p)
      (fun n _ => answer n) (fun _ _ attr tbl => dlg attr tbl).

(** Each file has flags of its own. *)
Definition sample_read (p : string) : option Z :=
  if String.eqb p "A" then Some 0x01
  else if String.eqb p "B" then Some 0x42
  else Some 0x80.

(** The dialog is closed with "Set all", nothing changed. *)
Definition dlg_setall (attr : Z) (tbl : list Attr.t) : dlg_outcome :=
  DlgOutcome B_SETALL attr false tbl.

(** The user ticks "Immutable" and presses "Set". *)
Definition dlg_set_immutable (attr : Z) (tbl : list Attr.t) : dlg_outcome :=
  DlgOutcome B_ENTER (Z.lxor attr EXT2_IMMUTABLE_FL) true tbl.

(** Every write succeeds. *)
Definition env_fine : env :=
  sample_env sample_read (fun _ _ => true) (fun _ => 3) dlg_setall.

(** The file "B" cannot be read. *)
Definition env_B_vanished : env :=
  sample_env (fun p => if String.eqb p "B" then None else sample_read p)
             (fun _ _ => true) (fun _ => 3) dlg_setall.

(** Writes to "B" fail, and the user answers "Cancel". *)
Definition env_B_cancel : env :=
  sample_env sample_read (fun _ p => negb (String.eqb p "B")) (fun _ => 3) dlg_setall.

(** Every write fails, and the user answers "Ignore all". *)
Definition env_ignore_all : env :=
  sample_env sample_read (fun _ _ => false) (fun _ => 1) dlg_setall.

(** Every write fails, and the user would answer "Retry". *)
Definition env_retry : env :=
  sample_env sample_read (fun _ _ => false) (fun _ => 2) dlg_set_immutable.

(** A panel with one marked file, and the variables over it. *)
Definition single_panel : WPanel :=
  Panel [FileEntry "A" true; FileEntry "B" false] 1 0.

Definition single_globals : globals :=
  Globals single_panel check_attr true 0 false (MaskPair 0xFFFFFFFF 0) 0x11 [].

(** The dialog is closed with "Cancel". *)
Definition dlg_cancel (attr : Z) (tbl : list Attr.t) : dlg_outcome :=
  DlgOutcome B_CANCEL attr false tbl.

Definition env_dialog_cancel : env :=
  sample_env sample_read (fun _ _ => true) (fun _ => 3) dlg_cancel.

(** No file can be read. *)
Definition env_unreadable : env :=
  sample_env (fun _ => None) (fun _ _ => true) (fun _ => 3) dlg_setall.

(** The file system is not local. *)
Definition env_remote : env :=
  Env (fun _ => false) (fun _ p => sample_read p) (fun _ _ _ => true)
      (fun _ _ => 3) (fun _ _ attr tbl => dlg_setall attr tbl).


(** * Properties *)

(** ** Bits of machine words *)

Lemma ulong_of_int_all_ones (w : N) : ulong_of_int w (Z.lnot 0) = Z.ones (Z.of_N w).
Proof.
  unfold ulong_of_int. rewrite Z.ones_equiv.
  assert (H : 0 < 2 ^ Z.of_N w) by (apply Z.pow_pos_nonneg; lia).
  change (Z.lnot 0) with (-1).
  rewrite <- (Z.mod_unique_pos (-1) (2 ^ Z.of_N w) (-1) (Z.pred (2 ^ Z.of_N w))); lia.
Qed.

Lemma ulong_not_spec (w : N) (x i : Z) :
  0 <= i ->
  Z.testbit (ulong_not w x) i = negb (Z.testbit x i) && (i <? Z.of_N w).
Proof.
  intros Hi. unfold ulong_not.
  rewrite Z.land_spec, Z.lnot_spec by lia.
  rewrite Z.testbit_ones_nonneg by lia.
  destruct (Z.ltb_spec i (Z.of_N w)); destruct (Z.leb_spec 0 i); try lia; reflexivity.
Qed.

Lemma ones_spec (w : N) (i : Z) :
  0 <= i -> Z.testbit (Z.ones (Z.of_N w)) i = (i <? Z.of_N w).
Proof.
  intros Hi. rewrite Z.testbit_ones_nonneg by lia.
  destruct (Z.ltb_spec i (Z.of_N w)); reflexivity.
Qed.

Lemma land_zero_bits (a b : Z) :
  Z.land a b = 0 <-> forall i, 0 <= i -> Z.testbit a i && Z.testbit b i = false.
Proof.
  split.
  - intros H i Hi. rewrite <- Z.land_spec, H. apply Z.bits_0.
  - intros H. apply Z.bits_inj'. intros i Hi.
    rewrite Z.land_spec, Z.bits_0. auto.
Qed.

(** Rewrite the bits of the word operations the program uses. *)
Ltac bits :=
  repeat first
    [ rewrite Z.lor_spec | rewrite Z.land_spec | rewrite Z.bits_0
    | rewrite ulong_not_spec by lia | rewrite ones_spec by lia ].

Lemma apply_mask_spec (mk : mask_pair) (m i : Z) :
  Z.testbit (apply_mask mk m) i
  = Z.testbit m i && Z.testbit (and_mask mk) i || Z.testbit (or_mask mk) i.
Proof. unfold apply_mask. now bits. Qed.

(** C9: applying a mask pair twice gives what applying it once gives. *)
Theorem apply_mask_idempotent (mk : mask_pair) (x : Z) :
  apply_mask mk (apply_mask mk x) = apply_mask mk x.
Proof.
  apply Z.bits_inj'. intros i _.
  rewrite !apply_mask_spec.
  destruct (Z.testbit x i), (Z.testbit (and_mask mk) i), (Z.testbit (or_mask mk) i);
    reflexivity.
Qed.

(** ** The mask loops *)

Section MaskFacts.

Variable w : N.
Variable modifiable : Z.

Lemma mask_init_all_ones : mask_init w = MaskPair (Z.ones (Z.of_N w)) 0.
Proof. unfold mask_init. now rewrite ulong_of_int_all_ones. Qed.

Lemma setall_body_cases result mk e :
  setall_body w modifiable result mk e = mk
  \/ (Attr.check e = true /\ setall_body w modifiable result mk e = force_set mk (Attr.flags e))
  \/ (Attr.check e = false /\ setall_body w modifiable result mk e = force_clear w mk (Attr.flags e)).
Proof.
  unfold setall_body.
  destruct (chattr_is_modifiable modifiable e && (Attr.selected e || is_B_SETALL result));
    [|now left].
  destruct (Attr.check e); [right; left | right; right]; now split.
Qed.

Lemma setmrk_body_cases mk e :
  setmrk_body modifiable mk e = mk
  \/ setmrk_body modifiable mk e = force_set mk (Attr.flags e).
Proof.
  unfold setmrk_body.
  destruct (chattr_is_modifiable modifiable e && Attr.selected e); [now right | now left].
Qed.

Lemma clrmrk_body_cases mk e :
  clrmrk_body w modifiable mk e = mk
  \/ clrmrk_body w modifiable mk e = force_clear w mk (Attr.flags e).
Proof.
  unfold clrmrk_body.
  destruct (chattr_is_modifiable modifiable e && Attr.selected e); [now right | now left].
Qed.

Lemma setall_body_simple result : simple_body w (setall_body w modifiable result).
Proof.
  intros mk e. destruct (setall_body_cases result mk e) as [H | [[_ H] | [_ H]]]; auto.
Qed.

Lemma setmrk_body_simple : simple_body w (setmrk_body modifiable).
Proof. intros mk e. destruct (setmrk_body_cases mk e); auto. Qed.

Lemma clrmrk_body_simple : simple_body w (clrmrk_body w modifiable).
Proof. intros mk e. destruct (clrmrk_body_cases mk e); auto. Qed.

Lemma mask_init_consistent : mask_consistent w (mask_init w).
Proof.
  rewrite mask_init_all_ones. unfold mask_consistent. simpl. apply Z.land_0_l.
Qed.

Lemma mask_init_spares f : mask_spares w (mask_init w) f.
Proof.
  rewrite mask_init_all_ones. unfold mask_spares. simpl. split.
  - apply Z.land_0_r.
  - apply land_zero_bits. intros i Hi. bits.
    destruct (Z.testbit f i), (i <? Z.of_N w); reflexivity.
Qed.

Lemma force_set_consistent mk f :
  mask_consistent w mk -> mask_spares w mk f -> mask_consistent w (force_set mk f).
Proof.
  unfold mask_consistent, mask_spares, force_set. simpl. intros H [_ Hf].
  rewrite Z.land_lor_distr_l, H, Hf. reflexivity.
Qed.

Lemma force_clear_consistent mk f :
  mask_consistent w mk -> mask_spares w mk f -> mask_consistent w (force_clear w mk f).
Proof.
  unfold mask_consistent, mask_spares, force_clear. simpl. intros H [Hf _].
  rewrite land_zero_bits in *. intros i Hi.
  specialize (H i Hi). specialize (Hf i Hi). revert H Hf. bits.
  destruct (Z.testbit (or_mask mk) i), (Z.testbit (and_mask mk) i),
    (Z.testbit f i), (i <? Z.of_N w); simpl; congruence.
Qed.

Lemma force_set_spares mk f f' :
  Z.land f f' = 0 -> mask_spares w mk f' -> mask_spares w (force_set mk f) f'.
Proof.
  unfold mask_spares, force_set. simpl. intros Hd [H1 H2]. split; [|exact H2].
  rewrite Z.land_lor_distr_r, H1, (Z.land_comm f' f), Hd. reflexivity.
Qed.

Lemma force_clear_spares mk f f' :
  Z.land f f' = 0 -> mask_spares w mk f' -> mask_spares w (force_clear w mk f) f'.
Proof.
  unfold mask_spares, force_clear. simpl. intros Hd [H1 H2]. split; [exact H1|].
  rewrite land_zero_bits in *. intros i Hi.
  specialize (Hd i Hi). specialize (H2 i Hi). revert Hd H2. bits.
  destruct (Z.testbit f i), (Z.testbit (and_mask mk) i),
    (Z.testbit f' i), (i <? Z.of_N w); simpl; congruence.
Qed.

Lemma fold_consistent body :
  simple_body w body ->
  forall tbl mk,
    disjoint_flags tbl = true ->
    mask_consistent w mk ->
    Forall (fun e => mask_spares w mk (Attr.flags e)) tbl ->
    mask_consistent w (fold_left body tbl mk).
Proof.
  intros Hbody. induction tbl as [|e tbl IH]; intros mk Hd Hc Hs; simpl; [exact Hc|].
  simpl in Hd. apply andb_prop in Hd as [Hde Hd].
  rewrite forallb_forall in Hde.
  inversion Hs as [|? ? He Hs']; subst.
  assert (Hdis : forall e', In e' tbl -> Z.land (Attr.flags e) (Attr.flags e') = 0).
  { intros e' Hin. apply Z.eqb_eq, Hde, Hin. }
  destruct (Hbody mk e) as [-> | [-> | ->]].
  - now apply IH.
  - apply IH; [exact Hd | now apply force_set_consistent |].
    apply Forall_forall. intros e' Hin.
    apply force_set_spares.
    + apply Hdis. now apply list_elem_of_In.
    + rewrite Forall_forall in Hs'. now apply Hs'.
  - apply IH; [exact Hd | now apply force_clear_consistent |].
    apply Forall_forall. intros e' Hin.
    apply force_clear_spares.
    + apply Hdis. now apply list_elem_of_In.
    + rewrite Forall_forall in Hs'. now apply Hs'.
Qed.

Lemma setall_body_modifiable_only result :
  modifiable_only modifiable (setall_body w modifiable result).
Proof. intros mk e H. unfold setall_body. now rewrite H. Qed.

Lemma setmrk_body_modifiable_only : modifiable_only modifiable (setmrk_body modifiable).
Proof. intros mk e H. unfold setmrk_body. now rewrite H. Qed.

Lemma clrmrk_body_modifiable_only :
  modifiable_only modifiable (clrmrk_body w modifiable).
Proof. intros mk e H. unfold clrmrk_body. now rewrite H. Qed.

Lemma build_mask_body result tbl mk :
  build_mask w modifiable result tbl = Some mk ->
  exists body,
    simple_body w body /\ modifiable_only modifiable body
    /\ forall tbl', build_mask w modifiable result tbl' = Some (fold_left body tbl' (mask_init w)).
Proof.
  destruct result; simpl; intros H; inversion H; subst; clear H.
  - exists (setall_body w modifiable B_MARKED).
    split; [apply setall_body_simple | split; [apply setall_body_modifiable_only | reflexivity]].
  - exists (setall_body w modifiable B_SETALL).
    split; [apply setall_body_simple | split; [apply setall_body_modifiable_only | reflexivity]].
  - exists (setmrk_body modifiable).
    split; [apply setmrk_body_simple | split; [apply setmrk_body_modifiable_only | reflexivity]].
  - exists (clrmrk_body w modifiable).
    split; [apply clrmrk_body_simple | split; [apply clrmrk_body_modifiable_only | reflexivity]].
Qed.

Lemma force_set_bit mk f i :
  Z.testbit f i = false -> mask_bit (force_set mk f) i = mask_bit mk i.
Proof.
  intros Hf. unfold mask_bit, force_set. simpl. bits. rewrite Hf.
  now rewrite orb_false_r.
Qed.

Lemma force_clear_bit mk f i :
  0 <= i < Z.of_N w ->
  Z.testbit f i = false -> mask_bit (force_clear w mk f) i = mask_bit mk i.
Proof.
  intros Hi Hf. unfold mask_bit, force_clear. simpl. bits. rewrite Hf.
  destruct (Z.ltb_spec i (Z.of_N w)); [|lia].
  now rewrite andb_true_r.
Qed.

(** A loop leaves a bit alone when no modifiable attribute has it. *)
Lemma fold_keeps_bit body i :
  simple_body w body -> modifiable_only modifiable body ->
  0 <= i < Z.of_N w ->
  forall tbl mk,
    Forall (fun e => chattr_is_modifiable modifiable e = true ->
                     Z.testbit (Attr.flags e) i = false) tbl ->
    mask_bit (fold_left body tbl mk) i = mask_bit mk i.
Proof.
  intros Hs Hm Hi. induction tbl as [|e tbl IH]; intros mk Hall; simpl; [reflexivity|].
  inversion Hall as [|? ? He Hall']; subst.
  rewrite IH by exact Hall'.
  destruct (chattr_is_modifiable modifiable e) eqn:Hmod.
  - destruct (Hs mk e) as [-> | [-> | ->]].
    + reflexivity.
    + apply force_set_bit; auto.
    + apply force_clear_bit; auto.
  - now rewrite Hm.
Qed.

(** Replacing an attribute the loop passes over by another one it passes
    over changes nothing. *)
Lemma fold_insert_skipped (body : mask_pair -> Attr.t -> mask_pair) (d d' : Attr.t) :
  (forall mk, body mk d = mk) -> (forall mk, body mk d' = mk) ->
  forall tbl k mk,
    tbl !! k = Some d ->
    fold_left body (<[k := d']> tbl) mk = fold_left body tbl mk.
Proof.
  intros Hd Hd'. induction tbl as [|e tbl IH]; intros k mk Hk; [discriminate|].
  destruct k as [|k]; simpl in *.
  - inversion Hk; subst. now rewrite Hd, Hd'.
  - now apply IH.
Qed.

(** A one-bit flag of a modifiable attribute is no bit of an attribute
    that is not modifiable. *)
Lemma one_bit_apart e d i :
  one_bit (Attr.flags e) = true ->
  chattr_is_modifiable modifiable e = true ->
  chattr_is_modifiable modifiable d = false ->
  0 <= i -> Z.testbit (Attr.flags d) i = true ->
  Z.testbit (Attr.flags e) i = false.
Proof.
  unfold one_bit, chattr_is_modifiable. intros H1 He Hd Hi Hdi.
  apply Z.eqb_eq in H1.
  apply negb_true_iff, Z.eqb_neq in He.
  apply negb_false_iff, Z.eqb_eq in Hd.
  pose proof (Z.log2_nonneg (Attr.flags e)) as Hk.
  destruct (Z.testbit (Attr.flags e) i) eqn:Hei; [|reflexivity].
  exfalso. apply He.
  rewrite H1 in Hei. rewrite Z.pow2_bits_eqb in Hei by lia.
  apply Z.eqb_eq in Hei.
  rewrite land_zero_bits in Hd. specialize (Hd i Hi). rewrite Hdi in Hd. simpl in Hd.
  apply Z.bits_inj'. intros j Hj. bits.
  rewrite H1, Z.pow2_bits_eqb by lia.
  destruct (Z.eqb_spec (Z.log2 (Attr.flags e)) j) as [Heq|]; [|reflexivity].
  simpl. congruence.
Qed.

Lemma mask_init_bit i : 0 <= i < Z.of_N w -> mask_bit (mask_init w) i = (true, false).
Proof.
  intros Hi. rewrite mask_init_all_ones. unfold mask_bit. simpl. bits.
  destruct (Z.ltb_spec i (Z.of_N w)); [reflexivity | lia].
Qed.

Lemma modifiable_bits_cons e tbl :
  modifiable_bits modifiable (e :: tbl)
  = if chattr_is_modifiable modifiable e
    then Z.lor (Attr.flags e) (modifiable_bits modifiable tbl)
    else modifiable_bits modifiable tbl.
Proof.
  unfold modifiable_bits. destruct (chattr_is_modifiable modifiable e) eqn:H.
  - now rewrite filter_cons_True by exact H.
  - rewrite filter_cons_False; [reflexivity|]. congruence.
Qed.

Lemma fold_setall_checked tbl :
  Forall (fun e => chattr_is_modifiable modifiable e = true -> Attr.check e = true) tbl ->
  forall mk,
    fold_left (setall_body w modifiable B_SETALL) tbl mk
    = MaskPair (and_mask mk) (Z.lor (or_mask mk) (modifiable_bits modifiable tbl)).
Proof.
  induction 1 as [|e tbl He _ IH]; intros mk; simpl.
  - unfold modifiable_bits. simpl. rewrite Z.lor_0_r. now destruct mk.
  - rewrite IH, modifiable_bits_cons. unfold setall_body.
    destruct (chattr_is_modifiable modifiable e) eqn:Hm; simpl.
    + rewrite orb_true_r, He by reflexivity. simpl. now rewrite Z.lor_assoc.
    + reflexivity.
Qed.

Lemma consistent_bits mk i :
  mask_consistent w mk -> 0 <= i < Z.of_N w ->
  mask_bit mk i = (true, false) \/ mask_bit mk i = (true, true)
  \/ mask_bit mk i = (false, false).
Proof.
  unfold mask_consistent, mask_bit. intros H Hi.
  rewrite land_zero_bits in H. specialize (H i (proj1 Hi)). revert H. bits.
  destruct (Z.ltb_spec i (Z.of_N w)); [|lia].
  destruct (Z.testbit (and_mask mk) i), (Z.testbit (or_mask mk) i); simpl; auto.
  discriminate.
Qed.

End MaskFacts.

(** The table of the program has pairwise disjoint flags of one bit each,
    whatever the stars and the checkboxes are. *)
Lemma disjoint_flags_map (t1 t2 : list Attr.t) :
  map Attr.flags t1 = map Attr.flags t2 -> disjoint_flags t1 = disjoint_flags t2.
Proof.
  revert t2. induction t1 as [|e1 t1 IH]; intros [|e2 t2] H; try discriminate; [reflexivity|].
  simpl in *. inversion H as [[Hf Ht]].
  rewrite (IH t2 Ht), Hf. f_equal.
  clear -Ht. revert t2 Ht. induction t1 as [|a t1 IH]; intros [|b t2] H; try discriminate;
    [reflexivity|].
  simpl in *. inversion H as [[Hab Ht]]. now rewrite Hab, (IH t2 Ht).
Qed.

Lemma check_attr_disjoint (tbl : list Attr.t) :
  map Attr.flags tbl = map Attr.flags check_attr -> disjoint_flags tbl = true.
Proof. intros H. now rewrite (disjoint_flags_map _ _ H). Qed.

Lemma check_attr_one_bit (tbl : list Attr.t) :
  map Attr.flags tbl = map Attr.flags check_attr ->
  Forall (fun e => one_bit (Attr.flags e) = true) tbl.
Proof.
  intros H.
  assert (Hf : Forall (fun f => one_bit f = true) (map Attr.flags tbl)).
  { rewrite H. repeat constructor. }
  now rewrite Forall_map in Hf.
Qed.

(** C6, as amended: with every checkbox of a modifiable attribute on, "Set
    all" leaves [and_mask] at all ones and gives [or_mask] exactly the
    modifiable bits, so that a flags word gets those bits set and keeps its
    other bits. *)
Theorem setall_all_checked (w : N) (modifiable : Z) (tbl : list Attr.t) :
  Forall (fun e => chattr_is_modifiable modifiable e = true -> Attr.check e = true) tbl ->
  build_mask w modifiable B_SETALL tbl
  = Some (MaskPair (Z.ones (Z.of_N w)) (modifiable_bits modifiable tbl))
  /\ forall m, 0 <= m < 2 ^ Z.of_N w ->
       apply_mask (MaskPair (Z.ones (Z.of_N w)) (modifiable_bits modifiable tbl)) m
       = Z.lor m (modifiable_bits modifiable tbl).
Proof.
  intros H. split.
  - simpl. rewrite fold_setall_checked by exact H.
    rewrite mask_init_all_ones. simpl. reflexivity.
  - intros m Hm. unfold apply_mask. simpl.
    rewrite Z.land_ones by lia. now rewrite Z.mod_small by lia.
Qed.

Lemma setall_all_checked_witness :
  build_mask 32 7 B_SETALL catalog_124 = Some (MaskPair 0xFFFFFFFF 7)
  /\ forall m, 0 <= m < 2 ^ 32 -> apply_mask (MaskPair 0xFFFFFFFF 7) m = Z.lor m 7.
Proof.
  apply (setall_all_checked 32 7 catalog_124).
  repeat constructor.
Defined.

(** C6, as stated, fails: for the table with the bits 1, 2 and 4 all
    checked, [and_mask] is not [7] (binary 111). *)
Lemma setall_and_mask_not_or_mask :
  build_mask 32 7 B_SETALL catalog_124 <> Some (MaskPair 7 7).
Proof. vm_compute. discriminate. Qed.

(** C7: over a table with pairwise disjoint flags, the masks of each of the
    four operations never clear and set the same bit:
    [or_mask & ~and_mask = 0], and every bit of the word has one of the
    three transformations identity, force-set, force-clear. *)
Theorem mask_never_contradicts (w : N) (modifiable : Z) (result : button)
    (tbl : list Attr.t) (mk : mask_pair) :
  disjoint_flags tbl = true ->
  build_mask w modifiable result tbl = Some mk ->
  mask_consistent w mk
  /\ forall i, 0 <= i < Z.of_N w ->
       mask_bit mk i = (true, false) \/ mask_bit mk i = (true, true)
       \/ mask_bit mk i = (false, false).
Proof.
  intros Hd Hb.
  destruct (build_mask_body w modifiable result tbl mk Hb) as (body & Hs & _ & Hfold).
  rewrite Hfold in Hb. inversion Hb as [Hmk]. clear Hb.
  assert (Hc : mask_consistent w (fold_left body tbl (mask_init w))).
  { apply fold_consistent; auto.
    - apply mask_init_consistent.
    - apply Forall_forall. intros e _. apply mask_init_spares. }
  split; [exact Hc|]. intros i Hi. now apply consistent_bits with (w := w).
Qed.

Lemma mask_never_contradicts_witness :
  exists mk,
    build_mask 32 sample_modifiable B_MARKED sample_table = Some mk
    /\ mask_consistent 32 mk
    /\ forall i, 0 <= i < 32 ->
         mask_bit mk i = (true, false) \/ mask_bit mk i = (true, true)
         \/ mask_bit mk i = (false, false).
Proof.
  eexists. split; [reflexivity|].
  apply (mask_never_contradicts 32 sample_modifiable B_MARKED sample_table);
    reflexivity.
Defined.

(** C8: an attribute [d] that is not modifiable has no part in the masks
    of any of the four operations: its bit gets the identity transformation,
    and the masks are the same whatever the star and the checkbox of [d]
    are. *)
Theorem unmodifiable_never_influences (w : N) (modifiable : Z) (result : button)
    (tbl : list Attr.t) (mk : mask_pair) (k : nat) (d : Attr.t) :
  Forall (fun e => one_bit (Attr.flags e) = true) tbl ->
  tbl !! k = Some d ->
  chattr_is_modifiable modifiable d = false ->
  build_mask w modifiable result tbl = Some mk ->
  (forall i, 0 <= i < Z.of_N w -> Z.testbit (Attr.flags d) i = true ->
     mask_bit mk i = (true, false))
  /\ (forall sel chk,
        build_mask w modifiable result
          (<[k := Attr.set_selected sel (Attr.set_check chk d)]> tbl) = Some mk).
Proof.
  intros H1 Hk Hd Hb.
  destruct (build_mask_body w modifiable result tbl mk Hb) as (body & Hs & Hm & Hfold).
  rewrite Hfold in Hb. inversion Hb as [Hmk]. clear Hb. split.
  - intros i Hi Hdi.
    rewrite (fold_keeps_bit w modifiable body i Hs Hm Hi).
    + now apply mask_init_bit.
    + eapply Forall_impl; [exact H1|]. intros e He Hmod. simpl in He.
      apply (one_bit_apart modifiable e d i); auto. lia.
  - intros sel chk. rewrite Hfold. f_equal.
    apply fold_insert_skipped with (d := d); auto.
Qed.

Lemma unmodifiable_never_influences_witness :
  exists mk,
    build_mask 32 sample_modifiable B_MARKED sample_table = Some mk
    /\ (forall i, 0 <= i < 32 -> Z.testbit EXT2_INDEX_FL i = true ->
          mask_bit mk i = (true, false))
    /\ (forall sel chk,
          build_mask 32 sample_modifiable B_MARKED
            (<[14%nat := Attr.set_selected sel
                 (Attr.set_check chk (Attr.mk EXT2_INDEX_FL "I" "Indexed directory" true true))]>
               sample_table) = Some mk).
Proof.
  eexists. split; [reflexivity|].
  apply (unmodifiable_never_influences 32 sample_modifiable B_MARKED sample_table _ 14
           (Attr.mk EXT2_INDEX_FL "I" "Indexed directory" true true)).
  - apply check_attr_one_bit. reflexivity.
  - reflexivity.
  - reflexivity.
  - reflexivity.
Defined.

(** ** The batch engine *)

(** Unfold the statements of a program down to the variables. *)
Ltac run :=
  unfold bind, ret, get, modify, out_of_fuel, out_of_bounds, call_fsetflags,
    call_query_dialog, call_fgetflags, call_message, call_vfs_current_is_local,
    call_dlg_run; simpl.

(** The variables outside the frame of a write attempt. *)
Ltac frame := unfold same_frame; simpl; repeat split; auto.

Section EngineFacts.

Variable E : env.

Lemma same_frame_refl g : same_frame g g.
Proof. repeat split. Qed.

Lemma same_frame_trans g1 g2 g3 :
  same_frame g1 g2 -> same_frame g2 g3 -> same_frame g1 g3.
Proof. unfold same_frame. intuition congruence. Qed.

(** One round of the loop of [try_chattr]. *)
Lemma try_chattr_unfold fuel p m g :
  try_chattr E (S fuel) p m g =
  let ok := fsetflags E (now g) p m in
  let g1 := log (EvSetflags p m ok) g in
  if negb ok && negb (ignore_all g) then
    let a := query_dialog E (now g1) p in
    let g2 := log (EvQuery p a) g1 in
    if a =? 0 then Ok true g2
    else if a =? 1 then Ok true (set_ignore_all true g2)
    else if a =? 2 then try_chattr E fuel p m g2
    else Ok false g2
  else Ok true g1.
Proof.
  simpl. run.
  destruct (negb (fsetflags E (now g) p m) && negb (ignore_all g)); [|reflexivity].
  destruct (_ =? 0); [reflexivity|].
  destruct (_ =? 1); [reflexivity|].
  destruct (_ =? 2); reflexivity.
Qed.

Lemma try_chattr_frame fuel p m :
  forall g, same_frame g (res_state (try_chattr E fuel p m g)).
Proof.
  induction fuel as [|fuel IH]; intros g; [apply same_frame_refl|].
  rewrite try_chattr_unfold. cbv zeta.
  destruct (negb _ && negb _); [|now frame].
  destruct (_ =? 0); [now frame|].
  destruct (_ =? 1); [now frame|].
  destruct (_ =? 2); [|now frame].
  eapply same_frame_trans; [|apply IH]. now frame.
Qed.

Lemma try_chattr_ignore_all fuel p m g :
  ignore_all g = true ->
  try_chattr E (S fuel) p m g
  = Ok true (log (EvSetflags p m (fsetflags E (now g) p m)) g).
Proof.
  intros H. rewrite try_chattr_unfold. cbv zeta. rewrite H.
  now rewrite andb_false_r.
Qed.

Lemma is_try_event_set p m ok : is_try_event p m (EvSetflags p m ok) = true.
Proof. simpl. now rewrite String.eqb_refl, Z.eqb_refl. Qed.

Lemma is_try_event_query p m a : is_try_event p m (EvQuery p a) = true.
Proof. simpl. now rewrite String.eqb_refl. Qed.

(** Every interaction of [try_chattr] is a write of [m] to [p] or a prompt
    about [p]. *)
Lemma try_chattr_events fuel p m :
  forall g, exists ev,
    trace (res_state (try_chattr E fuel p m g)) = ev ++ trace g
    /\ forallb (is_try_event p m) ev = true.
Proof.
  induction fuel as [|fuel IH]; intros g; [now exists []|].
  rewrite try_chattr_unfold. cbv zeta.
  set (ok := fsetflags E (now g) p m).
  set (g1 := log (EvSetflags p m ok) g).
  set (a := query_dialog E (now g1) p).
  assert (H2 : forallb (is_try_event p m) [EvQuery p a; EvSetflags p m ok] = true).
  { cbn [forallb]. now rewrite is_try_event_set, is_try_event_query. }
  destruct (negb ok && negb (ignore_all g)).
  2:{ exists [EvSetflags p m ok]. split; [reflexivity|].
      cbn [forallb]. now rewrite is_try_event_set. }
  destruct (a =? 0); [now exists [EvQuery p a; EvSetflags p m ok]|].
  destruct (a =? 1); [now exists [EvQuery p a; EvSetflags p m ok]|].
  destruct (a =? 2); [|now exists [EvQuery p a; EvSetflags p m ok]].
  destruct (IH (log (EvQuery p a) g1)) as (ev & Hev & Hall).
  exists (ev ++ [EvQuery p a; EvSetflags p m ok]). split.
  - rewrite Hev. now rewrite <- app_assoc.
  - rewrite forallb_app, Hall. exact H2.
Qed.

(** A prompt answered "Cancel" is the last interaction of [try_chattr],
    and is what makes it return [FALSE]. *)
Lemma try_chattr_cancel fuel p m :
  forall g, exists ev,
    trace (res_state (try_chattr E fuel p m g)) = ev ++ trace g
    /\ existsb is_cancel_query (tail ev) = false
    /\ existsb is_cancel_query ev
       = match try_chattr E fuel p m g with Ok false _ => true | _ => false end.
Proof.
  induction fuel as [|fuel IH]; intros g; [now exists []|].
  rewrite try_chattr_unfold. cbv zeta.
  set (ok := fsetflags E (now g) p m).
  set (g1 := log (EvSetflags p m ok) g).
  set (a := query_dialog E (now g1) p).
  destruct (negb ok && negb (ignore_all g)); [|now exists [EvSetflags p m ok]].
  destruct (a =? 0) eqn:H0.
  { exists [EvQuery p a; EvSetflags p m ok]. simpl. now rewrite H0. }
  destruct (a =? 1) eqn:H1.
  { exists [EvQuery p a; EvSetflags p m ok]. simpl. now rewrite H0, H1. }
  destruct (a =? 2) eqn:H2.
  2:{ exists [EvQuery p a; EvSetflags p m ok]. simpl. now rewrite H0, H1, H2. }
  destruct (IH (log (EvQuery p a) g1)) as (ev & Hev & Htl & Hhd).
  exists (ev ++ [EvQuery p a; EvSetflags p m ok]). split; [|split].
  - rewrite Hev. now rewrite <- app_assoc.
  - destruct ev as [|e ev]; simpl in *; [reflexivity|].
    rewrite existsb_app, Htl. simpl. now rewrite H0, H1, H2.
  - rewrite existsb_app, Hhd. simpl. rewrite H0, H1, H2. simpl.
    now rewrite orb_false_r.
Qed.

Lemma disciplined_log e ev ia :
  is_query e = false -> disciplined ev ia -> disciplined (e :: ev) ia.
Proof.
  unfold disciplined. intros He [H1 H2]. simpl. rewrite He, H1. split; [reflexivity|].
  destruct e; simpl in *; try discriminate; exact H2.
Qed.

(** The prompts of [try_chattr] keep to the variable [ignore_all]. *)
Lemma try_chattr_disciplined fuel p m :
  preserves disciplined (try_chattr E fuel p m).
Proof.
  induction fuel as [|fuel IH]; intros g base ev Hev Hd; [now exists ev|].
  rewrite try_chattr_unfold. cbv zeta.
  set (ok := fsetflags E (now g) p m).
  set (g1 := log (EvSetflags p m ok) g).
  set (a := query_dialog E (now g1) p).
  assert (Hd1 : disciplined (EvSetflags p m ok :: ev) (ignore_all g1))
    by now apply disciplined_log.
  destruct (negb ok && negb (ignore_all g)) eqn:Hc.
  2:{ exists (EvSetflags p m ok :: ev). simpl. now rewrite Hev. }
  apply andb_prop in Hc as [_ Hia]. apply negb_true_iff in Hia.
  assert (Hd2 : forall g',
    trace g' = EvQuery p a :: trace g1 ->
    ((a =? 1) = true -> ignore_all g' = true) ->
    exists ev', trace g' = ev' ++ base /\ disciplined ev' (ignore_all g')).
  { intros g' Ht Hg'. exists (EvQuery p a :: EvSetflags p m ok :: ev).
    split; [rewrite Ht; simpl; now rewrite Hev|].
    destruct Hd as [Hd Hign]. unfold disciplined. simpl.
    destruct (existsb is_ignore_all_query ev) eqn:Hex.
    - rewrite Hign in Hia by reflexivity. discriminate.
    - simpl. rewrite Hd. split; [reflexivity|].
      rewrite orb_false_r. exact Hg'. }
  destruct (a =? 0) eqn:H0.
  { apply Hd2; [reflexivity|]. apply Z.eqb_eq in H0. rewrite H0. discriminate. }
  destruct (a =? 1) eqn:H1.
  { apply Hd2; [reflexivity|]. reflexivity. }
  destruct (a =? 2) eqn:H2; [|apply Hd2; [reflexivity | discriminate]].
  destruct (Hd2 (log (EvQuery p a) g1) eq_refl) as (ev2 & Hev2 & Hdis2); [discriminate|].
  now apply (IH _ base ev2).
Qed.

Lemma quiet_log e ev ia :
  is_query e = false -> quiet ev ia -> quiet (e :: ev) ia.
Proof. unfold quiet. intros He [H1 H2]. simpl. now rewrite He, H1. Qed.

(** With [ignore_all] set, [try_chattr] asks nothing and keeps it set. *)
Lemma try_chattr_quiet fuel p m : preserves quiet (try_chattr E fuel p m).
Proof.
  intros g base ev Hev [Hq Hia]. destruct fuel as [|fuel]; [now exists ev|].
  rewrite try_chattr_ignore_all by exact Hia.
  exists (EvSetflags p m (fsetflags E (now g) p m) :: ev). simpl.
  rewrite Hev. split; [reflexivity|]. now apply quiet_log.
Qed.

(** *** Marks *)

Lemma do_file_mark_other panel idx mark i :
  i <> idx ->
  dir_list (do_file_mark panel idx mark) !! i = dir_list panel !! i.
Proof.
  intros Hi. unfold do_file_mark.
  destruct (dir_list panel !! idx) as [e|]; [|reflexivity].
  destruct (eqb (f_marked e) mark); [reflexivity|]. simpl.
  now apply list_lookup_insert_ne.
Qed.

Lemma do_file_mark_at panel idx e :
  dir_list panel !! idx = Some e ->
  dir_list (do_file_mark panel idx false) !! idx = Some (FileEntry (fname e) false)
  /\ marked (do_file_mark panel idx false)
     = if f_marked e then marked panel - 1 else marked panel.
Proof.
  intros He. unfold do_file_mark. rewrite He.
  destruct e as [fn [|]]; simpl.
  - split; [|reflexivity]. apply list_lookup_insert_eq.
    now apply lookup_lt_Some in He.
  - now split.
Qed.

Lemma next_marked_found l : forall i k e,
  next_marked l i = Some (k, e) ->
  (i <= k)%nat /\ l !! (k - i)%nat = Some e /\ f_marked e = true.
Proof.
  induction l as [|a l IH]; intros i k e H; [discriminate|].
  simpl in H. destruct (f_marked a) eqn:Ha.
  - inversion H; subst. rewrite Nat.sub_diag. now repeat split.
  - apply IH in H as (Hle & Hl & Hm).
    split; [lia|]. split; [|exact Hm].
    replace (k - i)%nat with (S (k - S i)) by lia. exact Hl.
Qed.

(** [next_file] moves [current_file] forward to a marked entry and gives
    its name, or runs out of the listing. *)
Lemma next_file_cases g :
  (exists k e,
      next_file g = Ok (fname e) (set_current_file k g)
      /\ (current_file g <= k)%nat
      /\ dir_list (current_panel g) !! k = Some e
      /\ f_marked e = true)
  \/ next_file g = OutOfBounds g.
Proof.
  unfold next_file. run.
  destruct (next_marked _ _) as [[k e]|] eqn:H; [left | now right].
  exists k, e. apply next_marked_found in H as (Hle & Hl & Hm).
  rewrite lookup_drop in Hl.
  replace (current_file g + (k - current_file g))%nat with k in Hl by lia.
  now repeat split.
Qed.

(** *** One file *)

Lemma do_chattr_unfold fuel p m g :
  do_chattr E fuel p m g =
  match try_chattr E fuel p (apply_mask (masks g) m) g with
  | Ok r g' => Ok r (unmark_current g')
  | OutOfFuel g' => OutOfFuel g'
  | OutOfBounds g' => OutOfBounds g'
  end.
Proof. unfold do_chattr. run. now destruct (try_chattr _ _ _ _ _). Qed.

(** One round of the loop of [chattr_apply_mask]. *)
Lemma chattr_apply_loop_unfold fuel g :
  chattr_apply_loop E (S fuel) g =
  match next_file g with
  | Ok fn g1 =>
      let r := fgetflags E (now g1) fn in
      let g2 := log (EvGetflags fn r) g1 in
      match r with
      | None =>
          let g3 := unmark_current g2 in
          if negb (marked (current_panel g3) =? 0)
          then chattr_apply_loop E fuel g3 else Ok tt g3
      | Some v =>
          match do_chattr E fuel fn v (set_flags v g2) with
          | Ok ok g3 =>
              if ok && negb (marked (current_panel g3) =? 0)
              then chattr_apply_loop E fuel g3 else Ok tt g3
          | OutOfFuel g3 => OutOfFuel g3
          | OutOfBounds g3 => OutOfBounds g3
          end
      end
  | OutOfFuel g1 => OutOfFuel g1
  | OutOfBounds g1 => OutOfBounds g1
  end.
Proof.
  cbn [chattr_apply_loop]. unfold bind at 1.
  destruct (next_file g) as [fn g1| |]; [|reflexivity..].
  unfold bind at 1. unfold call_fgetflags at 1. cbv zeta.
  destruct (fgetflags E (now g1) fn) as [v|].
  - unfold bind at 1. unfold bind at 1. unfold modify at 1.
    destruct (do_chattr _ _ _ _ _) as [ok g3| |]; [|reflexivity..].
    unfold bind at 1. unfold get at 1.
    now destruct (ok && negb (marked (current_panel g3) =? 0)).
  - run. now destruct (negb (marked _ =? 0)).
Qed.

Lemma chattr_apply_mask_unfold fuel vpath m g :
  chattr_apply_mask E fuel vpath m g =
  match do_chattr E fuel vpath m g with
  | Ok ok g1 => if ok then chattr_apply_loop E fuel g1 else Ok tt g1
  | OutOfFuel g1 => OutOfFuel g1
  | OutOfBounds g1 => OutOfBounds g1
  end.
Proof.
  unfold chattr_apply_mask, bind.
  destruct (do_chattr _ _ _ _ _) as [[|] g1| |]; reflexivity.
Qed.

Lemma do_chattr_events fuel p m g :
  exists ev,
    trace (res_state (do_chattr E fuel p m g)) = ev ++ trace g
    /\ forallb (is_try_event p (apply_mask (masks g) m)) ev = true.
Proof.
  rewrite do_chattr_unfold.
  destruct (try_chattr_events fuel p (apply_mask (masks g) m) g) as (ev & Hev & Hall).
  exists ev. split; [|exact Hall].
  now destruct (try_chattr _ _ _ _ _).
Qed.

Lemma do_chattr_masks fuel p m g :
  masks (res_state (do_chattr E fuel p m g)) = masks g
  /\ ignore_all (res_state (do_chattr E fuel p m g))
     = ignore_all (res_state (try_chattr E fuel p (apply_mask (masks g) m) g)).
Proof.
  rewrite do_chattr_unfold.
  pose proof (try_chattr_frame fuel p (apply_mask (masks g) m) g) as H.
  destruct (try_chattr _ _ _ _ _); simpl in *; unfold same_frame in H; now intuition.
Qed.

(** *** Writes use the flags just read *)

Lemma last_read_app a b x : last_read a = Some x -> last_read (a ++ b) = Some x.
Proof.
  induction a as [|e a IH]; [discriminate|].
  destruct e as [| q [v|] | | | |]; simpl; auto; discriminate.
Qed.

Lemma writes_masked_app mk a b :
  writes_masked mk a = true -> writes_masked mk b = true ->
  writes_masked mk (a ++ b) = true.
Proof.
  intros Ha Hb. induction a as [|e a IH]; [exact Hb|].
  destruct e; simpl in *; auto.
  apply andb_prop in Ha as [Hr Ha]. rewrite (IH Ha), andb_true_r.
  destruct (last_read a) as [[q v]|] eqn:Hl; [|discriminate].
  now rewrite (last_read_app a b _ Hl).
Qed.

Lemma writes_masked_after_read mk p v ev :
  forallb (is_try_event p (apply_mask mk v)) ev = true ->
  last_read (ev ++ [EvGetflags p (Some v)]) = Some (p, v)
  /\ writes_masked mk (ev ++ [EvGetflags p (Some v)]) = true.
Proof.
  induction ev as [|e ev IH]; intros H; [now split|].
  simpl in H. apply andb_prop in H as [He H].
  destruct (IH H) as [Hl Hw].
  destruct e; simpl in He; try discriminate; simpl; rewrite Hl, Hw.
  - apply andb_prop in He as [Hp Hm]. apply String.eqb_eq in Hp. apply Z.eqb_eq in Hm.
    subst. now rewrite String.eqb_refl, Z.eqb_refl.
  - now split.
Qed.

(** Every write of the loop stores the flags read from the same file in
    the same round, transformed by the masks the loop started with. *)
Lemma chattr_apply_loop_masked fuel :
  forall g, exists ev,
    trace (res_state (chattr_apply_loop E fuel g)) = ev ++ trace g
    /\ writes_masked (masks g) ev = true
    /\ masks (res_state (chattr_apply_loop E fuel g)) = masks g.
Proof.
  induction fuel as [|fuel IH]; intros g; [now exists []|].
  rewrite chattr_apply_loop_unfold.
  destruct (next_file_cases g) as [(k & e & -> & _) | ->]; [|now exists []].
  cbv zeta. set (fn := fname e). set (g1 := set_current_file k g).
  destruct (fgetflags E (now g1) fn) as [v|].
  - set (g2 := set_flags v (log (EvGetflags fn (Some v)) g1)).
    destruct (do_chattr_events fuel fn v g2) as (ev & Hev & Hall).
    destruct (do_chattr_masks fuel fn v g2) as [Hmk _].
    change (masks g2) with (masks g) in *.
    destruct (writes_masked_after_read (masks g) fn v ev Hall) as [_ Hw].
    assert (Hstop : exists ev',
      trace (res_state (do_chattr E fuel fn v g2)) = ev' ++ trace g
      /\ writes_masked (masks g) ev' = true).
    { exists (ev ++ [EvGetflags fn (Some v)]). split; [|exact Hw].
      rewrite Hev. now rewrite <- app_assoc. }
    destruct (do_chattr E fuel fn v g2) as [ok g3|g3|g3]; simpl in *;
      try (destruct Hstop as (ev' & ? & ?); now exists ev').
    destruct (ok && negb (marked (current_panel g3) =? 0));
      [|destruct Hstop as (ev' & ? & ?); now exists ev'].
    destruct (IH g3) as (ev3 & Hev3 & Hw3 & Hmk3).
    exists (ev3 ++ ev ++ [EvGetflags fn (Some v)]). split; [|split].
    + rewrite Hev3, Hev, <- !app_assoc. reflexivity.
    + apply writes_masked_app; [now rewrite <- Hmk | exact Hw].
    + congruence.
  - set (g3 := unmark_current (log (EvGetflags fn None) g1)).
    destruct (negb (marked (current_panel g3) =? 0));
      [|now exists [EvGetflags fn None]].
    destruct (IH g3) as (ev3 & Hev3 & Hw3 & Hmk3).
    exists (ev3 ++ [EvGetflags fn None]). split; [|split].
    + rewrite Hev3. now rewrite <- app_assoc.
    + now apply writes_masked_app.
    + exact Hmk3.
Qed.

Lemma try_chattr_first_write fuel p m g :
  exists ev,
    trace (res_state (try_chattr E (S fuel) p m g))
    = ev ++ EvSetflags p m (fsetflags E (now g) p m) :: trace g.
Proof.
  rewrite try_chattr_unfold. cbv zeta.
  set (ok := fsetflags E (now g) p m).
  set (g1 := log (EvSetflags p m ok) g).
  set (a := query_dialog E (now g1) p).
  destruct (negb ok && negb (ignore_all g)); [|now exists []].
  destruct (a =? 0); [now exists [EvQuery p a]|].
  destruct (a =? 1); [now exists [EvQuery p a]|].
  destruct (a =? 2); [|now exists [EvQuery p a]].
  destruct (try_chattr_events fuel p m (log (EvQuery p a) g1)) as (ev & Hev & _).
  exists (ev ++ [EvQuery p a]). rewrite Hev, <- app_assoc. reflexivity.
Qed.

(** *** Cancel *)

Lemma do_chattr_cancel fuel p m g :
  exists ev,
    trace (res_state (do_chattr E fuel p m g)) = ev ++ trace g
    /\ existsb is_cancel_query (tail ev) = false
    /\ existsb is_cancel_query ev
       = match do_chattr E fuel p m g with Ok false _ => true | _ => false end.
Proof.
  rewrite do_chattr_unfold.
  destruct (try_chattr_cancel fuel p (apply_mask (masks g) m) g) as (ev & Hev & Htl & Hhd).
  exists ev. destruct (try_chattr _ _ _ _ _) as [[|] g'|g'|g']; now repeat split.
Qed.

Lemma do_chattr_residue fuel p m g :
  current_file (res_state (do_chattr E fuel p m g)) = current_file g
  /\ forall i, i <> current_file g ->
       dir_list (current_panel (res_state (do_chattr E fuel p m g))) !! i
       = dir_list (current_panel g) !! i.
Proof.
  rewrite do_chattr_unfold.
  pose proof (try_chattr_frame fuel p (apply_mask (masks g) m) g) as H.
  destruct (try_chattr _ _ _ _ _) as [r g'|g'|g']; simpl in *;
    destruct H as (Hp & _ & _ & Hc & _); rewrite ?Hp, ?Hc; split; auto.
  intros i Hi. rewrite do_file_mark_other by exact Hi. reflexivity.
Qed.

Lemma existsb_tail_app (f : event -> bool) a b :
  existsb f (tail a) = false -> existsb f b = false ->
  existsb f (tail (a ++ b)) = false.
Proof.
  intros Ha Hb. destruct a as [|e a]; simpl in *.
  - destruct b as [|e b]; simpl in *; [reflexivity|].
    now apply orb_false_elim in Hb as [_ Hb].
  - now rewrite existsb_app, Ha, Hb.
Qed.

(** A prompt answered "Cancel" is the last interaction of the loop and
    makes it return; the loop never touches an entry behind
    [current_file]. *)
Lemma chattr_apply_loop_cancel fuel :
  forall g, exists ev,
    trace (res_state (chattr_apply_loop E fuel g)) = ev ++ trace g
    /\ existsb is_cancel_query (tail ev) = false
    /\ (existsb is_cancel_query ev = true ->
        returned (chattr_apply_loop E fuel g) = true).
Proof.
  induction fuel as [|fuel IH]; intros g; [now exists []|].
  rewrite chattr_apply_loop_unfold.
  destruct (next_file_cases g) as [(k & e & -> & _) | ->]; [|now exists []].
  cbv zeta. set (fn := fname e). set (g1 := set_current_file k g).
  destruct (fgetflags E (now g1) fn) as [v|].
  - set (g2 := set_flags v (log (EvGetflags fn (Some v)) g1)).
    destruct (do_chattr_cancel fuel fn v g2) as (ev & Hev & Htl & Hhd).
    change (trace g2) with (EvGetflags fn (Some v) :: trace g) in Hev.
    assert (Htl' : existsb is_cancel_query (tail (ev ++ [EvGetflags fn (Some v)])) = false)
      by now apply existsb_tail_app.
    assert (Hex : existsb is_cancel_query (ev ++ [EvGetflags fn (Some v)])
                  = existsb is_cancel_query ev).
    { rewrite existsb_app. simpl. now rewrite orb_false_r. }
    destruct (do_chattr E fuel fn v g2) as [[|] g3|g3|g3]; simpl in *.
    + destruct (negb (marked (current_panel g3) =? 0)).
      * destruct (IH g3) as (ev3 & Hev3 & Htl3 & Hret3).
        exists (ev3 ++ ev ++ [EvGetflags fn (Some v)]). split; [|split].
        -- rewrite Hev3, Hev, <- !app_assoc. reflexivity.
        -- apply existsb_tail_app; [exact Htl3 | now rewrite Hex].
        -- rewrite existsb_app, Hex, Hhd, orb_false_r. exact Hret3.
      * exists (ev ++ [EvGetflags fn (Some v)]). simpl. rewrite Hev, <- app_assoc.
        now repeat split.
    + exists (ev ++ [EvGetflags fn (Some v)]). simpl. rewrite Hev, <- app_assoc.
      now repeat split.
    + exists (ev ++ [EvGetflags fn (Some v)]). simpl. rewrite Hev, <- app_assoc.
      repeat split; auto. rewrite Hex, Hhd. discriminate.
    + exists (ev ++ [EvGetflags fn (Some v)]). simpl. rewrite Hev, <- app_assoc.
      repeat split; auto. rewrite Hex, Hhd. discriminate.
  - set (g3 := unmark_current (log (EvGetflags fn None) g1)).
    destruct (negb (marked (current_panel g3) =? 0));
      [|now exists [EvGetflags fn None]].
    destruct (IH g3) as (ev3 & Hev3 & Htl3 & Hret3).
    exists (ev3 ++ [EvGetflags fn None]). split; [|split].
    + rewrite Hev3, <- app_assoc. reflexivity.
    + now apply existsb_tail_app.
    + rewrite existsb_app. simpl. now rewrite orb_false_r.
Qed.

Lemma chattr_apply_loop_residue fuel :
  forall g,
    (current_file g <= current_file (res_state (chattr_apply_loop E fuel g)))%nat
    /\ forall i,
         (current_file (res_state (chattr_apply_loop E fuel g)) < i)%nat ->
         dir_list (current_panel (res_state (chattr_apply_loop E fuel g))) !! i
         = dir_list (current_panel g) !! i.
Proof.
  induction fuel as [|fuel IH]; intros g; [now split|].
  rewrite chattr_apply_loop_unfold.
  destruct (next_file_cases g) as [(k & e & -> & Hk & _) | ->]; [|now split].
  cbv zeta. set (fn := fname e). set (g1 := set_current_file k g).
  assert (Hjoin : forall g3,
    current_file g3 = k ->
    (forall i, i <> k ->
       dir_list (current_panel g3) !! i = dir_list (current_panel g) !! i) ->
    (current_file g <= current_file g3)%nat
    /\ (forall i, (current_file g3 < i)%nat ->
          dir_list (current_panel g3) !! i = dir_list (current_panel g) !! i)
    /\ (current_file g <= current_file (res_state (chattr_apply_loop E fuel g3)))%nat
    /\ forall i,
         (current_file (res_state (chattr_apply_loop E fuel g3)) < i)%nat ->
         dir_list (current_panel (res_state (chattr_apply_loop E fuel g3))) !! i
         = dir_list (current_panel g) !! i).
  { intros g3 Hc Hl. destruct (IH g3) as [Hle Hres].
    split; [lia|]. split; [intros i Hi; apply Hl; lia|]. split; [lia|].
    intros i Hi. rewrite Hres by exact Hi. apply Hl. lia. }
  destruct (fgetflags E (now g1) fn) as [v|].
  - set (g2 := set_flags v (log (EvGetflags fn (Some v)) g1)).
    destruct (do_chattr_residue fuel fn v g2) as [Hc Hl].
    change (current_file g2) with k in *.
    change (current_panel g2) with (current_panel g) in *.
    destruct (do_chattr E fuel fn v g2) as [ok g3|g3|g3]; simpl in *;
      destruct (Hjoin g3 Hc Hl) as (H1 & H2 & H3 & H4); try (now split).
    destruct (ok && negb (marked (current_panel g3) =? 0)); now split.
  - set (g3 := unmark_current (log (EvGetflags fn None) g1)).
    destruct (Hjoin g3) as (H1 & H2 & H3 & H4); [reflexivity| |].
    + intros i Hi. unfold g3. simpl. now rewrite do_file_mark_other.
    + destruct (negb (marked (current_panel g3) =? 0)); now split.
Qed.

Lemma chattr_apply_loop_extends fuel g :
  exists ev, trace (res_state (chattr_apply_loop E fuel g)) = ev ++ trace g.
Proof. destruct (chattr_apply_loop_masked fuel g) as (ev & H & _). now exists ev. Qed.

(** After a read that succeeds, the next interaction of the loop is the
    write of the flags read, transformed by the masks. *)
Lemma chattr_apply_loop_writes_fresh fuel g fn g1 fresh :
  next_file g = Ok fn g1 ->
  fgetflags E (now g1) fn = Some fresh ->
  exists ev,
    trace (res_state (chattr_apply_loop E (S (S fuel)) g))
    = ev ++ EvSetflags fn (apply_mask (masks g) fresh)
              (fsetflags E (S (now g)) fn (apply_mask (masks g) fresh))
         :: EvGetflags fn (Some fresh) :: trace g.
Proof.
  intros Hn Hr. rewrite chattr_apply_loop_unfold, Hn. cbv zeta. rewrite Hr.
  destruct (next_file_cases g) as [(k & e & Hn' & _) | Hn']; rewrite Hn' in Hn;
    [|discriminate].
  inversion Hn; subst fn g1. clear Hn Hn'.
  set (fn := fname e) in *.
  set (g2 := set_flags fresh (log (EvGetflags fn (Some fresh)) (set_current_file k g))).
  rewrite do_chattr_unfold.
  destruct (try_chattr_first_write fuel fn (apply_mask (masks g2) fresh) g2) as (ev & Hev).
  change (masks g2) with (masks g) in *.
  change (now g2) with (S (now g)) in *.
  change (trace g2) with (EvGetflags fn (Some fresh) :: trace g) in *.
  destruct (try_chattr _ _ _ _ _) as [ok g3|g3|g3]; cbn [res_state] in *;
    try (now exists ev).
  destruct (ok && negb (marked (current_panel (unmark_current g3)) =? 0));
    [|now exists ev].
  destruct (chattr_apply_loop_extends (S fuel) (unmark_current g3)) as (ev3 & Hev3).
  exists (ev3 ++ ev). rewrite Hev3.
  change (trace (unmark_current g3)) with (trace g3).
  rewrite Hev, <- app_assoc. reflexivity.
Qed.

Lemma chattr_apply_mask_cancel fuel vpath m g :
  exists ev,
    trace (res_state (chattr_apply_mask E fuel vpath m g)) = ev ++ trace g
    /\ existsb is_cancel_query (tail ev) = false
    /\ (existsb is_cancel_query ev = true ->
        returned (chattr_apply_mask E fuel vpath m g) = true).
Proof.
  rewrite chattr_apply_mask_unfold.
  destruct (do_chattr_cancel fuel vpath m g) as (ev & Hev & Htl & Hhd).
  destruct (do_chattr E fuel vpath m g) as [[|] g1|g1|g1]; simpl in *.
  - destruct (chattr_apply_loop_cancel fuel g1) as (ev1 & Hev1 & Htl1 & Hret1).
    exists (ev1 ++ ev). split; [|split].
    + rewrite Hev1, Hev, <- app_assoc. reflexivity.
    + now apply existsb_tail_app.
    + now rewrite existsb_app, Hhd, orb_false_r.
  - exists ev. now repeat split.
  - exists ev. repeat split; auto. rewrite Hhd. discriminate.
  - exists ev. repeat split; auto. rewrite Hhd. discriminate.
Qed.

Lemma chattr_apply_mask_residue fuel vpath m g i :
  (current_file (res_state (chattr_apply_mask E fuel vpath m g)) < i)%nat ->
  dir_list (current_panel (res_state (chattr_apply_mask E fuel vpath m g))) !! i
  = dir_list (current_panel g) !! i.
Proof.
  rewrite chattr_apply_mask_unfold.
  destruct (do_chattr_residue fuel vpath m g) as [Hc Hl].
  destruct (do_chattr E fuel vpath m g) as [[|] g1|g1|g1]; simpl in *;
    try (intros Hi; apply Hl; lia).
  destruct (chattr_apply_loop_residue fuel g1) as [Hle Hres].
  intros Hi. rewrite Hres by exact Hi. apply Hl. lia.
Qed.

(** [try_chattr] returns [FALSE] right after a failed write and a prompt
    answered "Cancel". *)
Lemma try_chattr_false fuel p m :
  forall g g',
    try_chattr E fuel p m g = Ok false g' ->
    exists a ev,
      trace g' = EvQuery p a :: EvSetflags p m false :: ev
      /\ is_cancel_query (EvQuery p a) = true.
Proof.
  induction fuel as [|fuel IH]; intros g g'; [discriminate|].
  rewrite try_chattr_unfold. cbv zeta.
  set (ok := fsetflags E (now g) p m).
  set (g1 := log (EvSetflags p m ok) g).
  set (a := query_dialog E (now g1) p).
  destruct ok eqn:Hok; simpl; [discriminate|].
  destruct (ignore_all g); simpl; [discriminate|].
  destruct (a =? 0) eqn:H0; [discriminate|].
  destruct (a =? 1) eqn:H1; [discriminate|].
  destruct (a =? 2) eqn:H2; [apply IH|].
  intros H. inversion H; subst g'. exists a, (trace g). simpl.
  now rewrite H0, H1, H2.
Qed.

(** When [do_chattr] returns, the current entry carries no mark. *)
Lemma do_chattr_unmarked fuel p m g r g' e :
  do_chattr E fuel p m g = Ok r g' ->
  dir_list (current_panel g') !! current_file g = Some e ->
  f_marked e = false.
Proof.
  rewrite do_chattr_unfold.
  pose proof (try_chattr_frame fuel p (apply_mask (masks g) m) g) as Hf.
  destruct (try_chattr _ _ _ _ _) as [r1 g1|g1|g1]; try discriminate.
  intros H. inversion H; subst r g'. clear H.
  destruct Hf as (Hp & _ & _ & Hc & _). cbn [res_state] in Hp, Hc.
  cbn. rewrite Hp, Hc. intros He.
  destruct (dir_list (current_panel g) !! current_file g) as [e0|] eqn:H0.
  - destruct (do_file_mark_at (current_panel g) (current_file g) e0 H0) as [Hat _].
    rewrite Hat in He. now inversion He.
  - unfold do_file_mark in He. rewrite H0 in He. congruence.
Qed.

(** The file of a prompt answered "Cancel" in the loop is the entry at
    [current_file], which was marked when the loop started. *)
Lemma chattr_apply_loop_cancel_at fuel :
  forall g p a earlier,
    trace (res_state (chattr_apply_loop E fuel g)) = EvQuery p a :: earlier ++ trace g ->
    is_cancel_query (EvQuery p a) = true ->
    dir_list (current_panel g) !! current_file (res_state (chattr_apply_loop E fuel g))
    = Some (FileEntry p true).
Proof.
  induction fuel as [|fuel IH]; intros g p a earlier.
  { cbn. intros H. exfalso.
    apply (f_equal length) in H. simpl in H. rewrite length_app in H. lia. }
  rewrite chattr_apply_loop_unfold.
  destruct (next_file_cases g) as [(k & e & -> & _ & Hk & Hm) | ->].
  2:{ cbn. intros H. exfalso.
      apply (f_equal length) in H. simpl in H. rewrite length_app in H. lia. }
  cbv zeta. set (fn := fname e). set (g1 := set_current_file k g).
  assert (Hstep : forall g3 ev1,
    trace g3 = ev1 ++ trace g ->
    existsb is_cancel_query ev1 = false ->
    (forall e', dir_list (current_panel g3) !! k = Some e' -> f_marked e' = false) ->
    (forall i, i <> k ->
       dir_list (current_panel g3) !! i = dir_list (current_panel g) !! i) ->
    trace (res_state (chattr_apply_loop E fuel g3)) = EvQuery p a :: earlier ++ trace g ->
    is_cancel_query (EvQuery p a) = true ->
    dir_list (current_panel g) !! current_file (res_state (chattr_apply_loop E fuel g3))
    = Some (FileEntry p true)).
  { intros g3 ev1 Hev1 Hno Hun Hl Ht Hc.
    destruct (chattr_apply_loop_extends fuel g3) as (ev3 & Hev3).
    assert (Heq : EvQuery p a :: earlier = ev3 ++ ev1).
    { apply (app_inv_tail (trace g)). rewrite <- app_assoc, <- Hev1, <- Hev3, Ht.
      reflexivity. }
    destruct ev3 as [|q ev3].
    - simpl in Heq. rewrite <- Heq in Hno. cbn [existsb] in Hno.
      rewrite Hc in Hno. discriminate.
    - inversion Heq; subst q.
      assert (Hin : dir_list (current_panel g3)
                      !! current_file (res_state (chattr_apply_loop E fuel g3))
                    = Some (FileEntry p true)).
      { apply (IH g3 p a ev3); [|exact Hc]. rewrite Hev3. reflexivity. }
      rewrite <- Hin. symmetry. apply Hl. intros Hk'. rewrite Hk' in Hin.
      apply Hun in Hin. discriminate. }
  assert (Hnot : forall ev1,
    existsb is_cancel_query ev1 = false ->
    ev1 ++ trace g = EvQuery p a :: earlier ++ trace g ->
    is_cancel_query (EvQuery p a) = true -> False).
  { intros ev1 Hno Ht Hc.
    assert (Heq : ev1 = EvQuery p a :: earlier).
    { apply (app_inv_tail (trace g)). rewrite Ht. reflexivity. }
    subst ev1. cbn [existsb] in Hno. rewrite Hc in Hno. discriminate. }
  destruct (fgetflags E (now g1) fn) as [v|].
  - set (g2 := set_flags v (log (EvGetflags fn (Some v)) g1)).
    destruct (do_chattr_cancel fuel fn v g2) as (ev & Hev & Htl & Hhd).
    destruct (do_chattr_events fuel fn v g2) as (ev' & Hev' & Hall).
    assert (ev' = ev) by (apply (app_inv_tail (trace g2)); congruence). subst ev'.
    destruct (do_chattr_residue fuel fn v g2) as [Hc2 Hl2].
    pose proof (do_chattr_unmarked fuel fn v g2) as Hun.
    change (trace g2) with (EvGetflags fn (Some v) :: trace g) in Hev.
    change (current_file g2) with k in *.
    change (current_panel g2) with (current_panel g) in *.
    assert (Hex : existsb is_cancel_query (ev ++ [EvGetflags fn (Some v)])
                  = existsb is_cancel_query ev).
    { rewrite existsb_app. simpl. now rewrite orb_false_r. }
    assert (Hev2 : trace (res_state (do_chattr E fuel fn v g2))
                   = (ev ++ [EvGetflags fn (Some v)]) ++ trace g)
      by (rewrite Hev, <- app_assoc; reflexivity).
    destruct (do_chattr E fuel fn v g2) as [[|] g3|g3|g3]; cbn [res_state] in *.
    + destruct (negb (marked (current_panel g3) =? 0)); cbn [andb].
      * apply (Hstep g3 (ev ++ [EvGetflags fn (Some v)])); auto.
        -- now rewrite Hex.
        -- intros e' He'. now apply (Hun true g3 e').
      * cbn [res_state]. rewrite Hev2. intros Ht Hc. exfalso.
        apply (Hnot (ev ++ [EvGetflags fn (Some v)])); auto. now rewrite Hex.
    + cbn [andb res_state]. rewrite Hev2, Hc2. intros Ht Hc.
      assert (Heq : ev ++ [EvGetflags fn (Some v)] = EvQuery p a :: earlier).
      { apply (app_inv_tail (trace g)). rewrite Ht. reflexivity. }
      destruct ev as [|q ev]; [discriminate|].
      simpl in Heq. inversion Heq; subst q.
      cbn [forallb] in Hall. apply andb_prop in Hall as [Hq _].
      apply String.eqb_eq in Hq. subst p.
      rewrite Hk. f_equal. destruct e as [n b]. simpl in *. now subst.
    + rewrite Hev2. intros Ht Hc. exfalso.
      apply (Hnot (ev ++ [EvGetflags fn (Some v)])); auto. now rewrite Hex.
    + rewrite Hev2. intros Ht Hc. exfalso.
      apply (Hnot (ev ++ [EvGetflags fn (Some v)])); auto. now rewrite Hex.
  - set (g3 := unmark_current (log (EvGetflags fn None) g1)).
    destruct (do_file_mark_at (current_panel g) k e Hk) as [Hat _].
    destruct (negb (marked (current_panel g3) =? 0)).
    + apply (Hstep g3 [EvGetflags fn None]); auto.
      * intros e' He'. cbn in He'. rewrite Hat in He'. now inversion He'.
      * intros i Hi. cbn. now apply do_file_mark_other.
    + cbn [res_state]. intros Ht Hc. exfalso.
      apply (Hnot [EvGetflags fn None]); auto.
Qed.

(** The same for the whole batch, where the prompt may also be about the
    first file. *)
Lemma chattr_apply_mask_cancel_at fuel vpath m g p a earlier :
  trace (res_state (chattr_apply_mask E fuel vpath m g))
  = EvQuery p a :: earlier ++ trace g ->
  is_cancel_query (EvQuery p a) = true ->
  (p = vpath
   /\ current_file (res_state (chattr_apply_mask E fuel vpath m g)) = current_file g)
  \/ dir_list (current_panel g)
       !! current_file (res_state (chattr_apply_mask E fuel vpath m g))
     = Some (FileEntry p true).
Proof.
  rewrite chattr_apply_mask_unfold.
  destruct (do_chattr_cancel fuel vpath m g) as (ev & Hev & Htl & Hhd).
  destruct (do_chattr_events fuel vpath m g) as (ev' & Hev' & Hall).
  assert (ev' = ev) by (apply (app_inv_tail (trace g)); congruence). subst ev'.
  destruct (do_chattr_residue fuel vpath m g) as [Hc Hl].
  pose proof (do_chattr_unmarked fuel vpath m g) as Hun.
  assert (Hnot : existsb is_cancel_query ev = false ->
                 ev ++ trace g = EvQuery p a :: earlier ++ trace g ->
                 is_cancel_query (EvQuery p a) = true -> False).
  { intros Hno Ht Hq.
    assert (Heq : ev = EvQuery p a :: earlier).
    { apply (app_inv_tail (trace g)). rewrite Ht. reflexivity. }
    subst ev. cbn [existsb] in Hno. rewrite Hq in Hno. discriminate. }
  destruct (do_chattr E fuel vpath m g) as [[|] g1|g1|g1]; cbn [res_state] in *;
    try (rewrite Hev; intros Ht Hq; exfalso; now apply Hnot).
  - intros Ht Hq. right.
    destruct (chattr_apply_loop_extends fuel g1) as (ev1 & Hev1).
    assert (Heq : EvQuery p a :: earlier = ev1 ++ ev).
    { apply (app_inv_tail (trace g)). rewrite <- app_assoc, <- Hev, <- Hev1, Ht.
      reflexivity. }
    destruct ev1 as [|q ev1].
    + simpl in Heq. rewrite <- Heq in Hhd. cbn [existsb] in Hhd.
      rewrite Hq in Hhd. discriminate.
    + inversion Heq; subst q.
      assert (Hin : dir_list (current_panel g1)
                      !! current_file (res_state (chattr_apply_loop E fuel g1))
                    = Some (FileEntry p true)).
      { apply (chattr_apply_loop_cancel_at fuel g1 p a ev1); [|exact Hq].
        rewrite Hev1. reflexivity. }
      rewrite <- Hin. symmetry. apply Hl. intros Hk. rewrite Hk in Hin.
      apply (Hun true g1) in Hin; [discriminate | reflexivity].
  - rewrite Hev. intros Ht Hq. left. split; [|exact Hc].
    assert (Heq : ev = EvQuery p a :: earlier).
    { apply (app_inv_tail (trace g)). rewrite Ht. reflexivity. }
    subst ev. cbn [forallb] in Hall. apply andb_prop in Hall as [Hp _].
    now apply String.eqb_eq in Hp.
Qed.

End EngineFacts.

(** ** Properties of the prompts, through the whole command *)

Section Prompts.

Variable w : N.
Variable modifiable : Z.
Variable E : env.

(** A property of the interactions and of [ignore_all] that no
    interaction other than a prompt disturbs, and that [try_chattr]
    keeps. *)
Variable J : list event -> bool -> Prop.
Hypothesis J_log : forall e ev ia, is_query e = false -> J ev ia -> J (e :: ev) ia.
Hypothesis J_try : forall fuel p m, preserves J (try_chattr E fuel p m).

Lemma preserves_ret {A} (a : A) : preserves J (ret a).
Proof. intros g base ev Hev HJ. now exists ev. Qed.

Lemma preserves_get : preserves J get.
Proof. intros g base ev Hev HJ. now exists ev. Qed.

Lemma preserves_out_of_fuel {A} : preserves J (@out_of_fuel A).
Proof. intros g base ev Hev HJ. now exists ev. Qed.

Lemma preserves_out_of_bounds {A} : preserves J (@out_of_bounds A).
Proof. intros g base ev Hev HJ. now exists ev. Qed.

Lemma preserves_bind {A B} (m : prog A) (k : A -> prog B) :
  preserves J m -> (forall a, preserves J (k a)) -> preserves J (bind m k).
Proof.
  intros Hm Hk g base ev Hev HJ. unfold bind.
  destruct (Hm g base ev Hev HJ) as (ev1 & H1 & HJ1).
  destruct (m g) as [a g1|g1|g1]; simpl in *.
  - now apply (Hk a g1 base ev1).
  - now exists ev1.
  - now exists ev1.
Qed.

Lemma preserves_modify (f : globals -> globals) :
  (forall g, trace (f g) = trace g /\ ignore_all (f g) = ignore_all g) ->
  preserves J (modify f).
Proof.
  intros Hf g base ev Hev HJ. exists ev. unfold modify. simpl.
  destruct (Hf g) as [-> ->]. now split.
Qed.

Lemma preserves_log {A} (f : globals -> A) (e : globals -> event)
    (h : globals -> globals) :
  (forall g, is_query (e g) = false) ->
  (forall g, trace (h g) = trace g /\ ignore_all (h g) = ignore_all g) ->
  preserves J (fun g => Ok (f g) (log (e g) (h g))).
Proof.
  intros He Hh g base ev Hev HJ. exists (e g :: ev). simpl.
  destruct (Hh g) as [-> ->]. rewrite Hev. split; [reflexivity|].
  now apply J_log.
Qed.

Lemma preserves_call_fgetflags p : preserves J (call_fgetflags E p).
Proof.
  apply (preserves_log (fun g => fgetflags E (now g) p)
           (fun g => EvGetflags p (fgetflags E (now g) p)) (fun g => g)); now intros.
Qed.

Lemma preserves_call_fsetflags p m : preserves J (call_fsetflags E p m).
Proof.
  apply (preserves_log (fun g => fsetflags E (now g) p m)
           (fun g => EvSetflags p m (fsetflags E (now g) p m)) (fun g => g)); now intros.
Qed.

Lemma preserves_call_vfs_current_is_local : preserves J (call_vfs_current_is_local E).
Proof.
  apply (preserves_log (fun g => vfs_current_is_local E (now g))
           (fun g => EvIsLocal (vfs_current_is_local E (now g))) (fun g => g)); now intros.
Qed.

Lemma preserves_call_message msg : preserves J (call_message msg).
Proof.
  apply (preserves_log (fun _ => tt) (fun _ => EvMessage msg) (fun g => g)); now intros.
Qed.

Lemma preserves_call_dlg_run p attr : preserves J (call_dlg_run E p attr).
Proof.
  apply (preserves_log
           (fun g => dlg_result (dlg_run E (now g) p attr (attr_table g)))
           (fun g => EvDialog p attr (dlg_result (dlg_run E (now g) p attr (attr_table g))))
           (fun g => set_flags (dlg_flags (dlg_run E (now g) p attr (attr_table g)))
              (set_flags_changed (dlg_flags_changed (dlg_run E (now g) p attr (attr_table g)))
                 (set_attr_table (dlg_check_attr (dlg_run E (now g) p attr (attr_table g))) g))));
    now intros.
Qed.

(** Decompose a program into its statements. *)
Ltac pres :=
  repeat first
    [ apply preserves_ret | apply preserves_get
    | apply preserves_out_of_fuel | apply preserves_out_of_bounds
    | apply preserves_call_fgetflags | apply preserves_call_fsetflags
    | apply preserves_call_vfs_current_is_local | apply preserves_call_message
    | apply preserves_call_dlg_run | apply J_try
    | apply preserves_modify; intros ?; split; reflexivity
    | apply preserves_bind; [|intros ?]
    | match goal with
      | |- preserves _ (if ?c then _ else _) => destruct c
      | |- preserves _ (match ?x with _ => _ end) => destruct x
      end ].

Lemma preserves_next_file : preserves J next_file.
Proof. unfold next_file. pres. Qed.

Lemma preserves_do_chattr fuel p m : preserves J (do_chattr E fuel p m).
Proof. unfold do_chattr. pres. Qed.

Lemma preserves_chattr_apply_loop fuel : preserves J (chattr_apply_loop E fuel).
Proof.
  induction fuel as [|fuel IH]; cbn [chattr_apply_loop]; [pres|].
  apply preserves_bind; [apply preserves_next_file | intros fn].
  apply preserves_bind; [pres | intros r].
  apply preserves_bind; [destruct r; pres; apply preserves_do_chattr | intros ok].
  apply preserves_bind; [pres | intros g].
  destruct (ok && _); [exact IH | pres].
Qed.

Lemma preserves_chattr_apply_mask fuel vpath m :
  preserves J (chattr_apply_mask E fuel vpath m).
Proof.
  unfold chattr_apply_mask.
  apply preserves_bind; [apply preserves_do_chattr | intros [|]].
  - apply preserves_chattr_apply_loop.
  - pres.
Qed.

Lemma preserves_chattr_init attr : preserves J (chattr_init modifiable attr).
Proof. unfold chattr_init. pres. Qed.

Lemma preserves_chattr_enter fuel fname2 : preserves J (chattr_enter E fuel fname2).
Proof. unfold chattr_enter. pres. Qed.

Lemma preserves_chattr_switch fuel result fname2 :
  preserves J (chattr_switch w modifiable E fuel result fname2).
Proof.
  unfold chattr_switch.
  destruct result; try apply preserves_chattr_enter; try (now pres);
    (apply preserves_bind;
     [ apply preserves_modify; intros g; destruct (build_mask _ _ _ _); now split
     | intros _; apply preserves_bind; [pres | intros g];
       apply preserves_bind; [apply preserves_chattr_apply_mask | intros _; pres] ]).
Qed.

Lemma preserves_chattr_pick : preserves J chattr_pick.
Proof.
  unfold chattr_pick. apply preserves_bind; [pres | intros g].
  destruct (negb _); [apply preserves_next_file | pres].
Qed.

Lemma preserves_chattr_cmd_round fuel :
  preserves J (chattr_cmd_round w modifiable E fuel).
Proof.
  unfold chattr_cmd_round.
  apply preserves_bind; [pres | intros loc].
  destruct (negb loc); [pres|].
  apply preserves_bind; [apply preserves_chattr_pick | intros fn].
  apply preserves_bind; [pres | intros [attr|]]; [|pres].
  apply preserves_bind; [pres | intros _].
  apply preserves_bind; [apply preserves_chattr_init | intros _].
  apply preserves_bind; [pres | intros result].
  apply preserves_bind; [apply preserves_chattr_switch | intros [result' end_chattr]].
  pres.
Qed.

Lemma preserves_chattr_cmd_loop fuel :
  preserves J (chattr_cmd_loop w modifiable E fuel).
Proof.
  induction fuel as [|fuel IH]; cbn [chattr_cmd_loop]; [pres|].
  apply preserves_bind; [apply preserves_chattr_cmd_round | intros [|]].
  - pres.
  - exact IH.
Qed.

End Prompts.

(** ** The batch *)

(** C2: a prompt answered "Cancel" is the last interaction of the batch:
    the batch returns, nothing is read or written afterwards, and the
    entries behind [current_file] are what they were when the batch started,
    marks included.  [current_file] is then at the file of the prompt: the
    first file of the batch, or an entry that was marked when the batch
    started and carries the name the prompt was about. *)
Theorem cancel_stops_batch (E : env) (fuel : nat) (vpath : string) (m : Z)
    (g : globals) (later earlier : list event) (p : string) (a : Z) :
  trace (res_state (chattr_apply_mask E fuel vpath m g))
  = later ++ EvQuery p a :: earlier ++ trace g ->
  is_cancel_query (EvQuery p a) = true ->
  later = []
  /\ returned (chattr_apply_mask E fuel vpath m g) = true
  /\ (forall i,
        (current_file (res_state (chattr_apply_mask E fuel vpath m g)) < i)%nat ->
        dir_list (current_panel (res_state (chattr_apply_mask E fuel vpath m g))) !! i
        = dir_list (current_panel g) !! i)
  /\ ((p = vpath
       /\ current_file (res_state (chattr_apply_mask E fuel vpath m g)) = current_file g)
      \/ dir_list (current_panel g)
           !! current_file (res_state (chattr_apply_mask E fuel vpath m g))
         = Some (FileEntry p true)).
Proof.
  intros Ht Hc.
  destruct (chattr_apply_mask_cancel E fuel vpath m g) as (ev & Hev & Htl & Hret).
  assert (Heq : ev = later ++ EvQuery p a :: earlier).
  { apply (app_inv_tail (trace g)). rewrite <- Hev, Ht, <- app_assoc. reflexivity. }
  subst ev.
  assert (Hlater : later = []).
  { destruct later as [|e later]; [reflexivity|]. exfalso.
    simpl in Htl. rewrite existsb_app in Htl. cbn [existsb] in Htl.
    rewrite Hc, orb_true_r in Htl. discriminate. }
  subst later. split; [reflexivity|]. split; [|split].
  - apply Hret. cbn [app existsb]. now rewrite Hc.
  - intros i. apply chattr_apply_mask_residue.
  - now apply (chattr_apply_mask_cancel_at E fuel vpath m g p a earlier).
Qed.

Lemma cancel_stops_batch_witness :
  let r := chattr_apply_mask env_B_cancel 5 "A" 1 sample_globals in
  returned r = true
  /\ (forall i, (2 < i)%nat ->
        dir_list (current_panel (res_state r)) !! i = dir_list sample_panel !! i)
  /\ dir_list sample_panel !! 2%nat = Some (FileEntry "B" true).
Proof.
  intros r.
  destruct (cancel_stops_batch env_B_cancel 5 "A" 1 sample_globals []
              [EvSetflags "B" 82 false; EvGetflags "B" (Some 66); EvSetflags "A" 17 true]
              "B" 3 eq_refl eq_refl) as (_ & Hret & Hres & _).
  split; [exact Hret|]. split; [exact Hres | reflexivity].
Defined.

(** C3: when the read of the next marked file fails, the round of the loop
    has no other interaction than that read, it takes the mark off the file,
    and the loop goes on with the next round unless no marked file is left,
    in which case the batch is complete. *)
Theorem read_failure_skips (E : env) (fuel : nat) (g : globals) (fn : string)
    (g1 : globals) :
  next_file g = Ok fn g1 ->
  fgetflags E (now g1) fn = None ->
  let g2 := unmark_current (log (EvGetflags fn None) g1) in
  chattr_apply_loop E (S fuel) g
  = (if negb (marked (current_panel g2) =? 0)
     then chattr_apply_loop E fuel g2 else Ok tt g2)
  /\ trace g2 = EvGetflags fn None :: trace g
  /\ ignore_all g2 = ignore_all g
  /\ dir_list (current_panel g) !! current_file g2 = Some (FileEntry fn true)
  /\ dir_list (current_panel g2) !! current_file g2 = Some (FileEntry fn false)
  /\ marked (current_panel g2) = marked (current_panel g) - 1.
Proof.
  intros Hn Hr g2.
  destruct (next_file_cases g) as [(k & e & Hn' & _ & Hk & Hm) | Hn']; rewrite Hn' in Hn;
    [|discriminate].
  inversion Hn; subst fn g1. clear Hn.
  destruct (do_file_mark_at (current_panel g) k e Hk) as [Hat Hcount].
  rewrite Hm in Hcount.
  split; [|split; [|split; [|split; [|split]]]].
  - rewrite chattr_apply_loop_unfold, Hn'. cbv zeta. now rewrite Hr.
  - reflexivity.
  - reflexivity.
  - cbn. rewrite Hk. f_equal. destruct e as [n mk]. simpl in *. now subst.
  - exact Hat.
  - exact Hcount.
Qed.

Lemma read_failure_skips_witness :
  let g2 := unmark_current
              (log (EvGetflags "B" None)
                 (set_current_file 2 (set_current_file 1 sample_globals))) in
  chattr_apply_loop env_B_vanished 4 (set_current_file 1 sample_globals)
  = (if negb (marked (current_panel g2) =? 0)
     then chattr_apply_loop env_B_vanished 3 g2 else Ok tt g2)
  /\ trace g2 = EvGetflags "B" None :: trace (set_current_file 1 sample_globals)
  /\ ignore_all g2 = ignore_all (set_current_file 1 sample_globals)
  /\ dir_list (current_panel (set_current_file 1 sample_globals)) !! current_file g2
     = Some (FileEntry "B" true)
  /\ dir_list (current_panel g2) !! current_file g2 = Some (FileEntry "B" false)
  /\ marked (current_panel g2) = marked (current_panel (set_current_file 1 sample_globals)) - 1.
Proof.
  apply (read_failure_skips env_B_vanished 3 (set_current_file 1 sample_globals) "B"
           (set_current_file 2 (set_current_file 1 sample_globals))).
  - reflexivity.
  - reflexivity.
Defined.

(** C10: [do_chattr] takes the mark off the current file whatever
    [try_chattr] returns; when it returns [FALSE], the last interactions
    were a write that failed and a prompt answered "Cancel", and the file is
    unmarked all the same. *)
Theorem do_chattr_always_unmarks (E : env) (fuel : nat) (p : string) (m : Z)
    (g g' : globals) (ret : bool) :
  do_chattr E fuel p m g = Ok ret g' ->
  current_file g' = current_file g
  /\ current_panel g' = do_file_mark (current_panel g) (current_file g) false
  /\ (forall e,
        dir_list (current_panel g) !! current_file g = Some e ->
        dir_list (current_panel g') !! current_file g = Some (FileEntry (fname e) false)
        /\ marked (current_panel g')
           = if f_marked e then marked (current_panel g) - 1 else marked (current_panel g))
  /\ (ret = false ->
      exists a ev,
        trace g' = EvQuery p a :: EvSetflags p (apply_mask (masks g) m) false :: ev
        /\ is_cancel_query (EvQuery p a) = true).
Proof.
  rewrite do_chattr_unfold. intros H.
  pose proof (try_chattr_frame E fuel p (apply_mask (masks g) m) g) as Hf.
  pose proof (try_chattr_false E fuel p (apply_mask (masks g) m) g) as Hfalse.
  destruct (try_chattr E fuel p (apply_mask (masks g) m) g) as [r g1|g1|g1];
    try discriminate.
  inversion H; subst ret g'. clear H. cbn [res_state] in Hf.
  destruct Hf as (Hp & _ & _ & Hc & _).
  split; [exact Hc|]. split; [|split].
  - cbn. now rewrite Hp, Hc.
  - intros e He. cbn. rewrite Hp, Hc. now apply do_file_mark_at.
  - intros ->. destruct (Hfalse g1 eq_refl) as (a & ev & Ht & Hq).
    exists a, ev. now split.
Qed.

Lemma do_chattr_always_unmarks_witness :
  let g' := res_state (do_chattr env_B_cancel 3 "B" 0x42
                         (set_current_file 2 sample_globals)) in
  do_chattr env_B_cancel 3 "B" 0x42 (set_current_file 2 sample_globals) = Ok false g'
  /\ current_file g' = 2%nat
  /\ dir_list (current_panel g') !! 2%nat = Some (FileEntry "B" false)
  /\ marked (current_panel g') = 2.
Proof.
  intros g'.
  assert (H : do_chattr env_B_cancel 3 "B" 0x42 (set_current_file 2 sample_globals)
              = Ok false g') by (vm_compute; reflexivity).
  destruct (do_chattr_always_unmarks env_B_cancel 3 "B" 0x42
              (set_current_file 2 sample_globals) g' false H)
    as (Hc & _ & He & _).
  split; [exact H|]. split; [exact Hc|].
  exact (He (FileEntry "B" true) eq_refl).
Defined.

(** ** Prompts *)

Lemma chattr_cmd_unfold (w : N) (modifiable : Z) (E : env) (fuel : nat) (g : globals) :
  chattr_cmd w modifiable E fuel g
  = chattr_cmd_loop w modifiable E fuel (set_ignore_all false (set_current_file 0 g)).
Proof. reflexivity. Qed.

(** C4: in a run of the command no prompt comes after a prompt answered
    "Ignore all"; from a state with [ignore_all] set, the rest of the
    command and a batch over the marked files ask nothing and keep it set,
    however many writes fail; and [try_chattr] then returns [TRUE] after its
    one write, whatever the write gave. *)
Theorem ignore_all_silences_prompts (w : N) (modifiable : Z) (E : env) (fuel : nat)
    (g : globals) :
  (exists ev,
      trace (res_state (chattr_cmd w modifiable E fuel g)) = ev ++ trace g
      /\ no_prompt_after_ignore_all ev = true)
  /\ (ignore_all g = true ->
      (exists ev,
          trace (res_state (chattr_cmd_loop w modifiable E fuel g)) = ev ++ trace g
          /\ existsb is_query ev = false
          /\ ignore_all (res_state (chattr_cmd_loop w modifiable E fuel g)) = true)
      /\ (forall vpath m, exists ev,
            trace (res_state (chattr_apply_mask E fuel vpath m g)) = ev ++ trace g
            /\ existsb is_query ev = false
            /\ ignore_all (res_state (chattr_apply_mask E fuel vpath m g)) = true)
      /\ (forall p m,
            try_chattr E (S fuel) p m g
            = Ok true (log (EvSetflags p m (fsetflags E (now g) p m)) g))).
Proof.
  split.
  - rewrite chattr_cmd_unfold.
    destruct (preserves_chattr_cmd_loop w modifiable E disciplined disciplined_log
                (try_chattr_disciplined E) fuel
                (set_ignore_all false (set_current_file 0 g)) (trace g) [])
      as (ev & Hev & Hd & _).
    + reflexivity.
    + split; [reflexivity | discriminate].
    + now exists ev.
  - intros Hia. split; [|split].
    + destruct (preserves_chattr_cmd_loop w modifiable E quiet quiet_log
                  (try_chattr_quiet E) fuel g (trace g) [])
        as (ev & Hev & Hq & Hia'); [reflexivity | now split |].
      now exists ev.
    + intros vpath m.
      destruct (preserves_chattr_apply_mask E quiet quiet_log
                  (try_chattr_quiet E) fuel vpath m g (trace g) [])
        as (ev & Hev & Hq & Hia'); [reflexivity | now split |].
      now exists ev.
    + intros p m. now apply try_chattr_ignore_all.
Qed.

Lemma ignore_all_silences_prompts_witness :
  (exists ev,
      trace (res_state (chattr_cmd_loop 32 sample_modifiable env_ignore_all 5
                          (set_ignore_all true sample_globals)))
      = ev ++ trace (set_ignore_all true sample_globals)
      /\ existsb is_query ev = false
      /\ ignore_all (res_state (chattr_cmd_loop 32 sample_modifiable env_ignore_all 5
                                  (set_ignore_all true sample_globals))) = true)
  /\ try_chattr env_ignore_all 6 "A" 17 (set_ignore_all true sample_globals)
     = Ok true (log (EvSetflags "A" 17 false) (set_ignore_all true sample_globals)).
Proof.
  destruct (ignore_all_silences_prompts 32 sample_modifiable env_ignore_all 5
              (set_ignore_all true sample_globals)) as [_ H].
  destruct (H eq_refl) as (H1 & _ & H3).
  split; [exact H1 | exact (H3 "A" 17)].
Defined.

(** ** The "Set" button *)

(** C5, as amended: under "Set", nothing is written when the dialog changed
    no flag.  Otherwise, with at most one marked file, the flags of the
    dialog are written once, without a read and without a prompt: a failure
    shows a message unless [ignore_all] is set, and the command ends either
    way.  With more marked files the write goes through [try_chattr]: the
    flags of the dialog are written; when the write fails and [ignore_all]
    is not set, the prompt is shown, and "Ignore" lets the command go on to
    the next round, "Ignore all" does so too and sets [ignore_all], "Retry"
    does the same write and, when it fails, the same prompt again, and any
    other answer ("Cancel", or the prompt closed) ends the command. *)
Theorem set_button (E : env) (fuel : nat) (fname2 : string) (g : globals) :
  (flags_changed g = false -> chattr_enter E fuel fname2 g = Ok (B_ENTER, false) g)
  /\ (flags_changed g = true -> marked (current_panel g) <= 1 ->
      let ok := fsetflags E (now g) fname2 (flags g) in
      let g1 := log (EvSetflags fname2 (flags g) ok) g in
      chattr_enter E fuel fname2 g
      = Ok (B_ENTER, true)
           (if negb ok && negb (ignore_all g) then log (EvMessage fname2) g1 else g1))
  /\ (flags_changed g = true -> 1 < marked (current_panel g) ->
      chattr_enter E fuel fname2 g
      = match try_chattr E fuel fname2 (flags g) g with
        | Ok true g' => Ok (B_ENTER, false) g'
        | Ok false g' => Ok (B_CANCEL, true) g'
        | OutOfFuel g' => OutOfFuel g'
        | OutOfBounds g' => OutOfBounds g'
        end)
  /\ (flags_changed g = true -> 1 < marked (current_panel g) ->
      let ok := fsetflags E (now g) fname2 (flags g) in
      let g1 := log (EvSetflags fname2 (flags g) ok) g in
      let answer := query_dialog E (now g1) fname2 in
      let g2 := log (EvQuery fname2 answer) g1 in
      chattr_enter E 0 fname2 g = OutOfFuel g
      /\ chattr_enter E (S fuel) fname2 g
         = if negb ok && negb (ignore_all g) then
             if answer =? 0 then Ok (B_ENTER, false) g2
             else if answer =? 1 then Ok (B_ENTER, false) (set_ignore_all true g2)
             else if answer =? 2 then chattr_enter E fuel fname2 g2
             else Ok (B_CANCEL, true) g2
           else Ok (B_ENTER, false) g1).
Proof.
  split; [|split; [|split]].
  - unfold chattr_enter. run. now intros ->.
  - unfold chattr_enter. run.
    intros -> Hm. destruct (Z.leb_spec (marked (current_panel g)) 1); [|lia].
    now destruct (negb _ && negb _).
  - unfold chattr_enter. run.
    intros -> Hm. destruct (Z.leb_spec (marked (current_panel g)) 1); [lia|].
    now destruct (try_chattr _ _ _ _ _) as [[|] g'|g'|g'].
  - intros Hc Hm. cbv zeta. split.
    + unfold chattr_enter. run. rewrite Hc.
      destruct (Z.leb_spec (marked (current_panel g)) 1); [lia|]. reflexivity.
    + unfold chattr_enter, bind, get, ret. cbv beta. rewrite Hc.
      destruct (Z.leb_spec (marked (current_panel g)) 1); [lia|].
      rewrite try_chattr_unfold. cbv zeta.
      destruct (negb _ && negb _); [|reflexivity].
      destruct (_ =? 0); [reflexivity|].
      destruct (_ =? 1); [reflexivity|].
      destruct (_ =? 2); [|reflexivity].
      cbn [flags_changed log current_panel flags]. rewrite Hc.
      destruct (Z.leb_spec (marked (current_panel g)) 1); [lia|]. reflexivity.
Qed.

Lemma set_button_witness :
  chattr_enter env_retry 5 "A" single_globals
  = Ok (B_ENTER, true) (log (EvMessage "A") (log (EvSetflags "A" 0x11 false) single_globals))
  /\ chattr_enter env_B_cancel 5 "B" (set_flags_changed true sample_globals)
     = Ok (B_CANCEL, true)
          (log (EvQuery "B" 3) (log (EvSetflags "B" 0 false)
                                  (set_flags_changed true sample_globals)))
  /\ chattr_enter env_retry 2 "A" (set_flags_changed true sample_globals)
     = chattr_enter env_retry 1 "A"
         (log (EvQuery "A" 2) (log (EvSetflags "A" 0 false)
                                 (set_flags_changed true sample_globals))).
Proof.
  split; [|split].
  - destruct (set_button env_retry 5 "A" single_globals) as (_ & H & _).
    apply H; [reflexivity | discriminate].
  - destruct (set_button env_B_cancel 4 "B" (set_flags_changed true sample_globals))
      as (_ & _ & _ & H).
    exact (proj2 (H eq_refl eq_refl)).
  - destruct (set_button env_retry 1 "A" (set_flags_changed true sample_globals))
      as (_ & _ & _ & H).
    exact (proj2 (H eq_refl eq_refl)).
Defined.

(** C5, as stated, fails: with one marked file, a failing write and a user
    who would answer "Retry", the write is made once and no prompt is
    shown. *)
Lemma single_file_failure_never_prompts :
  marked (current_panel single_globals) = 1
  /\ fsetflags env_retry 0 "A" 0x11 = false
  /\ query_dialog env_retry 1 "A" = 2
  /\ trace (res_state (chattr_enter env_retry 5 "A" single_globals))
     = [EvMessage "A"; EvSetflags "A" 0x11 false]
  /\ ~ (exists p a, In (EvQuery p a)
                      (trace (res_state (chattr_enter env_retry 5 "A" single_globals)))).
Proof.
  repeat split. intros (p & a & [H | [H | []]]); discriminate.
Qed.

(** ** Runs *)

(** Three marked files and no failure: each file is written with its own
    flags and "Immutable" added, and every mark is taken off. *)
Example run_all_written :
  let r := chattr_apply_mask env_fine 5 "A" 1 sample_globals in
  returned r = true
  /\ rev (trace (res_state r))
     = [EvSetflags "A" 0x11 true;
        EvGetflags "B" (Some 0x42); EvSetflags "B" 0x52 true;
        EvGetflags "C" (Some 0x80); EvSetflags "C" 0x90 true]
  /\ map f_marked (dir_list (current_panel (res_state r))) = [false; false; false; false]
  /\ marked (current_panel (res_state r)) = 0.
Proof. vm_compute. repeat split. Qed.

(** The file "B" vanished: it is passed over without a prompt. *)
Example run_B_vanished :
  let r := chattr_apply_mask env_B_vanished 5 "A" 1 sample_globals in
  returned r = true
  /\ rev (trace (res_state r))
     = [EvSetflags "A" 0x11 true;
        EvGetflags "B" None;
        EvGetflags "C" (Some 0x80); EvSetflags "C" 0x90 true]
  /\ map f_marked (dir_list (current_panel (res_state r))) = [false; false; false; false].
Proof. vm_compute. repeat split. Qed.

(** The write to "B" fails and the user cancels: "C" is neither read nor
    written and keeps its mark, "B" has lost its mark. *)
Example run_B_cancelled :
  let r := chattr_apply_mask env_B_cancel 5 "A" 1 sample_globals in
  returned r = true
  /\ rev (trace (res_state r))
     = [EvSetflags "A" 0x11 true;
        EvGetflags "B" (Some 0x42); EvSetflags "B" 0x52 false; EvQuery "B" 3]
  /\ map f_marked (dir_list (current_panel (res_state r))) = [false; false; false; true]
  /\ marked (current_panel (res_state r)) = 1.
Proof. vm_compute. repeat split. Qed.

(** Every write fails and the first prompt is answered "Ignore all": one
    prompt, then none. *)
Example run_ignore_all :
  let r := chattr_apply_mask env_ignore_all 5 "A" 1 sample_globals in
  returned r = true
  /\ rev (trace (res_state r))
     = [EvSetflags "A" 0x11 false; EvQuery "A" 1;
        EvGetflags "B" (Some 0x42); EvSetflags "B" 0x52 false;
        EvGetflags "C" (Some 0x80); EvSetflags "C" 0x90 false]
  /\ ignore_all (res_state r) = true.
Proof. vm_compute. repeat split. Qed.

(** A user who answers "Retry" each time to a write that fails each time:
    fifty rounds of [try_chattr] later the run has not returned. *)
Example run_retry_for_ever :
  returned (chattr_apply_mask env_retry 50 "A" 1 sample_globals) = false.
Proof. vm_compute. reflexivity. Qed.

(** * Further properties *)

(** ** What the four mask operations do to a flags word *)

Lemma mod_pow2_spec (w : N) (x i : Z) :
  0 <= i -> Z.testbit (x mod 2 ^ Z.of_N w) i = Z.testbit x i && (i <? Z.of_N w).
Proof.
  intros Hi. rewrite <- Z.land_ones by lia. rewrite Z.land_spec. now rewrite ones_spec.
Qed.

Lemma flag_bits_cons (sel : Attr.t -> bool) (e : Attr.t) (tbl : list Attr.t) :
  flag_bits sel (e :: tbl)
  = if sel e then Z.lor (Attr.flags e) (flag_bits sel tbl) else flag_bits sel tbl.
Proof.
  unfold flag_bits. destruct (sel e) eqn:H.
  - now rewrite filter_cons_True by exact H.
  - rewrite filter_cons_False; [reflexivity|]. congruence.
Qed.

Lemma flag_bits_spec (sel : Attr.t -> bool) (tbl : list Attr.t) (i : Z) :
  Z.testbit (flag_bits sel tbl) i
  = existsb (fun e => sel e && Z.testbit (Attr.flags e) i) tbl.
Proof.
  induction tbl as [|e tbl IH]; [apply Z.bits_0|].
  rewrite flag_bits_cons. simpl. destruct (sel e); simpl; [|exact IH].
  now rewrite Z.lor_spec, IH.
Qed.

Lemma ulong_not_0 (w : N) : ulong_not w 0 = Z.ones (Z.of_N w).
Proof.
  apply Z.bits_inj'. intros i Hi. bits. reflexivity.
Qed.

Lemma ulong_not_lor (w : N) (a f : Z) :
  Z.land (ulong_not w a) (ulong_not w f) = ulong_not w (Z.lor a f).
Proof.
  apply Z.bits_inj'. intros i Hi. bits.
  destruct (Z.testbit a i), (Z.testbit f i), (i <? Z.of_N w); reflexivity.
Qed.

Lemma fold_setmrk (modifiable : Z) (tbl : list Attr.t) :
  forall mk,
    fold_left (setmrk_body modifiable) tbl mk
    = MaskPair (and_mask mk) (Z.lor (or_mask mk) (flag_bits (starred modifiable) tbl)).
Proof.
  induction tbl as [|e tbl IH]; intros mk; simpl.
  - unfold flag_bits. simpl. rewrite Z.lor_0_r. now destruct mk.
  - rewrite IH, flag_bits_cons. unfold setmrk_body, starred.
    destruct (chattr_is_modifiable modifiable e && Attr.selected e); simpl; [|reflexivity].
    now rewrite Z.lor_assoc.
Qed.

Lemma fold_clrmrk (w : N) (modifiable : Z) (tbl : list Attr.t) :
  forall a o,
    fold_left (clrmrk_body w modifiable) tbl (MaskPair (ulong_not w a) o)
    = MaskPair (ulong_not w (Z.lor a (flag_bits (starred modifiable) tbl))) o.
Proof.
  induction tbl as [|e tbl IH]; intros a o; simpl.
  - unfold flag_bits. simpl. now rewrite Z.lor_0_r.
  - rewrite flag_bits_cons. unfold clrmrk_body, starred.
    destruct (chattr_is_modifiable modifiable e && Attr.selected e); simpl; [|apply IH].
    rewrite ulong_not_lor, IH. now rewrite Z.lor_assoc.
Qed.

Lemma fold_setall (w : N) (modifiable : Z) (result : button) (tbl : list Attr.t) :
  forall a o,
    fold_left (setall_body w modifiable result) tbl (MaskPair (ulong_not w a) o)
    = MaskPair
        (ulong_not w
           (Z.lor a (flag_bits (fun e => takes_part modifiable result e
                                         && negb (Attr.check e)) tbl)))
        (Z.lor o (flag_bits (fun e => takes_part modifiable result e && Attr.check e) tbl)).
Proof.
  induction tbl as [|e tbl IH]; intros a o; simpl.
  - unfold flag_bits. simpl. now rewrite !Z.lor_0_r.
  - rewrite !flag_bits_cons. unfold setall_body, takes_part.
    destruct (chattr_is_modifiable modifiable e && (Attr.selected e || is_B_SETALL result));
      simpl; [|apply IH].
    destruct (Attr.check e); simpl.
    + rewrite IH. now rewrite Z.lor_assoc.
    + rewrite ulong_not_lor, IH. now rewrite Z.lor_assoc.
Qed.

Lemma mask_init_ulong_not (w : N) : mask_init w = MaskPair (ulong_not w 0) 0.
Proof. now rewrite mask_init_all_ones, ulong_not_0. Qed.

(** X1: "Set marked" sets in every flags word exactly the bits of the
    starred modifiable attributes and keeps the other bits of the word. *)
Theorem set_marked_sets_starred (w : N) (modifiable : Z) (tbl : list Attr.t) (x : Z) :
  build_mask w modifiable B_SETMRK tbl
  = Some (MaskPair (Z.ones (Z.of_N w)) (flag_bits (starred modifiable) tbl))
  /\ apply_mask (MaskPair (Z.ones (Z.of_N w)) (flag_bits (starred modifiable) tbl)) x
     = Z.lor (x mod 2 ^ Z.of_N w) (flag_bits (starred modifiable) tbl).
Proof.
  split.
  - simpl. rewrite fold_setmrk, mask_init_all_ones. simpl. reflexivity.
  - unfold apply_mask. simpl. now rewrite Z.land_ones by lia.
Qed.

(** X2: "Clear marked" clears in every flags word exactly the bits of the
    starred modifiable attributes and keeps the other bits of the word. *)
Theorem clear_marked_clears_starred (w : N) (modifiable : Z) (tbl : list Attr.t) (x : Z) :
  build_mask w modifiable B_CLRMRK tbl
  = Some (MaskPair (ulong_not w (flag_bits (starred modifiable) tbl)) 0)
  /\ apply_mask (MaskPair (ulong_not w (flag_bits (starred modifiable) tbl)) 0) x
     = Z.land (x mod 2 ^ Z.of_N w) (Z.lnot (flag_bits (starred modifiable) tbl)).
Proof.
  split.
  - simpl. rewrite mask_init_ulong_not, fold_clrmrk. now rewrite Z.lor_0_l.
  - apply Z.bits_inj'. intros i Hi. rewrite apply_mask_spec. simpl.
    bits. rewrite mod_pow2_spec, Z.lnot_spec by lia.
    destruct (Z.testbit x i), (Z.testbit (flag_bits (starred modifiable) tbl) i),
      (i <? Z.of_N w); reflexivity.
Qed.

Lemma build_mask_setall (w : N) (modifiable : Z) (result : button) (tbl : list Attr.t) :
  result = B_SETALL \/ result = B_MARKED ->
  build_mask w modifiable result tbl
  = Some (MaskPair
            (ulong_not w (flag_bits (fun e => takes_part modifiable result e
                                              && negb (Attr.check e)) tbl))
            (flag_bits (fun e => takes_part modifiable result e && Attr.check e) tbl)).
Proof.
  intros [-> | ->]; simpl; rewrite mask_init_ulong_not, fold_setall;
    now rewrite !Z.lor_0_l.
Qed.

(** X3: "Set all" and "Marked all" set the bits of the attributes that take
    part and are ticked, clear the bits of those that take part and are not
    ticked, and keep the other bits of the word. *)
Theorem set_all_follows_checkboxes (w : N) (modifiable : Z) (result : button)
    (tbl : list Attr.t) (x : Z) :
  result = B_SETALL \/ result = B_MARKED ->
  let ticked := flag_bits (fun e => takes_part modifiable result e && Attr.check e) tbl in
  let unticked :=
    flag_bits (fun e => takes_part modifiable result e && negb (Attr.check e)) tbl in
  build_mask w modifiable result tbl = Some (MaskPair (ulong_not w unticked) ticked)
  /\ apply_mask (MaskPair (ulong_not w unticked) ticked) x
     = Z.lor (Z.land (x mod 2 ^ Z.of_N w) (Z.lnot unticked)) ticked.
Proof.
  intros Hr ticked unticked. split.
  - now apply build_mask_setall.
  - apply Z.bits_inj'. intros i Hi. rewrite apply_mask_spec. simpl.
    bits. rewrite mod_pow2_spec, Z.lnot_spec by lia.
    destruct (Z.testbit x i), (Z.testbit unticked i), (Z.testbit ticked i),
      (i <? Z.of_N w); reflexivity.
Qed.

Lemma set_all_follows_checkboxes_witness :
  build_mask 32 sample_modifiable B_MARKED sample_table
  = Some (MaskPair (ulong_not 32 EXT2_NODUMP_FL) EXT2_IMMUTABLE_FL)
  /\ apply_mask (MaskPair (ulong_not 32 EXT2_NODUMP_FL) EXT2_IMMUTABLE_FL) 0x42
     = Z.lor (Z.land (0x42 mod 2 ^ 32) (Z.lnot EXT2_NODUMP_FL)) EXT2_IMMUTABLE_FL.
Proof.
  apply (set_all_follows_checkboxes 32 sample_modifiable B_MARKED sample_table 0x42).
  now right.
Defined.

(** X4: setting the starred bits and then clearing them leaves a word as
    clearing alone does, and clearing and then setting leaves it as setting
    alone does. *)
Theorem set_and_clear_marked_compose (w : N) (modifiable : Z) (tbl : list Attr.t)
    (mset mclr : mask_pair) (x : Z) :
  build_mask w modifiable B_SETMRK tbl = Some mset ->
  build_mask w modifiable B_CLRMRK tbl = Some mclr ->
  apply_mask mclr (apply_mask mset x) = apply_mask mclr x
  /\ apply_mask mset (apply_mask mclr x) = apply_mask mset x.
Proof.
  intros Hs Hc. simpl in Hs, Hc.
  rewrite fold_setmrk, mask_init_all_ones in Hs.
  rewrite mask_init_ulong_not, fold_clrmrk, Z.lor_0_l in Hc.
  inversion Hs. inversion Hc. subst. clear Hs Hc.
  split; apply Z.bits_inj'; intros i Hi; rewrite !apply_mask_spec; simpl; bits;
    destruct (Z.testbit x i), (Z.testbit (flag_bits (starred modifiable) tbl) i),
      (i <? Z.of_N w); reflexivity.
Qed.

Lemma set_and_clear_marked_compose_witness :
  let mset := MaskPair (Z.ones 32) (flag_bits (starred sample_modifiable) sample_table) in
  let mclr := MaskPair (ulong_not 32 (flag_bits (starred sample_modifiable) sample_table)) 0 in
  apply_mask mclr (apply_mask mset 0x42) = apply_mask mclr 0x42
  /\ apply_mask mset (apply_mask mclr 0x42) = apply_mask mset 0x42.
Proof.
  intros mset mclr.
  apply (set_and_clear_marked_compose 32 sample_modifiable sample_table mset mclr 0x42);
    reflexivity.
Defined.

(** ** Checkboxes that show the flags of the first file *)

Lemma one_bit_check (f attr : Z) :
  one_bit f = true ->
  negb (Z.land attr f =? 0) = Z.testbit attr (Z.log2 f).
Proof.
  unfold one_bit. intros H. apply Z.eqb_eq in H.
  pose proof (Z.log2_nonneg f) as Hk.
  destruct (Z.testbit attr (Z.log2 f)) eqn:Hb.
  - apply negb_true_iff, Z.eqb_neq. intros H0.
    assert (Ht : Z.testbit (Z.land attr f) (Z.log2 f) = true).
    { rewrite Z.land_spec, Hb. rewrite H at 1. now rewrite Z.pow2_bits_true. }
    rewrite H0, Z.bits_0 in Ht. discriminate.
  - apply negb_false_iff, Z.eqb_eq. apply Z.bits_inj'. intros i Hi.
    rewrite Z.land_spec, Z.bits_0, H, Z.pow2_bits_eqb by lia.
    destruct (Z.eqb_spec (Z.log2 f) i) as [<-|]; [|apply andb_false_r].
    now rewrite Hb.
Qed.

Lemma agree_bits (modifiable : Z) (result : button) (attr : Z) (tbl : list Attr.t) (i : Z) :
  0 <= i ->
  Forall (fun e => one_bit (Attr.flags e) = true) tbl ->
  checks_agree modifiable result attr tbl ->
  Z.testbit (flag_bits (fun e => takes_part modifiable result e && Attr.check e) tbl) i
  = Z.testbit (flag_bits (takes_part modifiable result) tbl) i && Z.testbit attr i
  /\ Z.testbit (flag_bits (fun e => takes_part modifiable result e
                                    && negb (Attr.check e)) tbl) i
     = Z.testbit (flag_bits (takes_part modifiable result) tbl) i
       && negb (Z.testbit attr i).
Proof.
  intros Hi H1 Ha. rewrite !flag_bits_spec.
  induction tbl as [|e tbl IH]; [now split|].
  inversion H1 as [|? ? He1 H1']; subst. inversion Ha as [|? ? Hea Ha']; subst.
  destruct (IH H1' Ha') as [IHt IHu]. cbn [existsb]. rewrite IHt, IHu.
  unfold one_bit in He1. apply Z.eqb_eq in He1.
  pose proof (Z.log2_nonneg (Attr.flags e)) as Hk.
  assert (Hfi : Z.testbit (Attr.flags e) i = (Z.log2 (Attr.flags e) =? i)).
  { rewrite He1 at 1. apply Z.pow2_bits_eqb. lia. }
  destruct (takes_part modifiable result e) eqn:Htp; simpl; [|now split].
  rewrite (Hea eq_refl), Hfi.
  destruct (Z.eqb_spec (Z.log2 (Attr.flags e)) i) as [->|]; simpl.
  - destruct (Z.testbit attr _); cbn [andb orb negb];
      rewrite ?andb_true_r, ?andb_false_r; now split.
  - rewrite !andb_false_r. now split.
Qed.

Lemma set_all_copies (w : N) (modifiable : Z) (result : button)
    (tbl : list Attr.t) (attr x : Z) :
  result = B_SETALL \/ result = B_MARKED ->
  Forall (fun e => one_bit (Attr.flags e) = true) tbl ->
  checks_agree modifiable result attr tbl ->
  exists mk,
    build_mask w modifiable result tbl = Some mk
    /\ apply_mask mk x
       = Z.lor (Z.land (x mod 2 ^ Z.of_N w)
                       (Z.lnot (flag_bits (takes_part modifiable result) tbl)))
               (Z.land attr (flag_bits (takes_part modifiable result) tbl))
    /\ (0 <= attr < 2 ^ Z.of_N w -> apply_mask mk attr = attr).
Proof.
  intros Hr H1 Ha.
  pose proof (build_mask_setall w modifiable result tbl Hr) as Hb.
  eexists. split; [exact Hb|].
  assert (Hbits : forall y i, 0 <= i ->
    Z.testbit (apply_mask
                 (MaskPair
                    (ulong_not w (flag_bits (fun e => takes_part modifiable result e
                                                      && negb (Attr.check e)) tbl))
                    (flag_bits (fun e => takes_part modifiable result e && Attr.check e) tbl))
                 y) i
    = Z.testbit (Z.lor (Z.land (y mod 2 ^ Z.of_N w)
                               (Z.lnot (flag_bits (takes_part modifiable result) tbl)))
                       (Z.land attr (flag_bits (takes_part modifiable result) tbl))) i).
  { intros y i Hi. rewrite apply_mask_spec. simpl.
    destruct (agree_bits modifiable result attr tbl i Hi H1 Ha) as [Ht Hu].
    bits. rewrite Ht, Hu, mod_pow2_spec, Z.lnot_spec by lia.
    destruct (Z.testbit y i), (Z.testbit attr i),
      (Z.testbit (flag_bits (takes_part modifiable result) tbl) i), (i <? Z.of_N w);
      reflexivity. }
  split.
  - apply Z.bits_inj'. intros i Hi. apply Hbits, Hi.
  - intros Hattr. apply Z.bits_inj'. intros i Hi. rewrite Hbits by exact Hi.
    rewrite Z.mod_small by lia. bits. rewrite Z.lnot_spec by lia.
    destruct (Z.testbit attr i),
      (Z.testbit (flag_bits (takes_part modifiable result) tbl) i); reflexivity.
Qed.

(** X5: when the checkboxes of the attributes that take part show the bits
    of a word [attr] and every flag of the table is one bit, "Set all" and
    "Marked all" copy the bits of those attributes from [attr] into every
    flags word and keep the other bits of the word; [attr] itself is left
    as it is. *)
Theorem set_all_copies_flags (w : N) (modifiable : Z) (result : button)
    (tbl : list Attr.t) (attr x : Z) :
  result = B_SETALL \/ result = B_MARKED ->
  Forall (fun e => one_bit (Attr.flags e) = true) tbl ->
  checks_agree modifiable result attr tbl ->
  exists mk,
    build_mask w modifiable result tbl = Some mk
    /\ apply_mask mk x
       = Z.lor (Z.land (x mod 2 ^ Z.of_N w)
                       (Z.lnot (flag_bits (takes_part modifiable result) tbl)))
               (Z.land attr (flag_bits (takes_part modifiable result) tbl))
    /\ (0 <= attr < 2 ^ Z.of_N w -> apply_mask mk attr = attr).
Proof. apply set_all_copies. Qed.

Lemma takes_part_setall_bits (modifiable : Z) (tbl : list Attr.t) :
  flag_bits (takes_part modifiable B_SETALL) tbl = modifiable_bits modifiable tbl.
Proof.
  induction tbl as [|e tbl IH]; [reflexivity|].
  rewrite flag_bits_cons, modifiable_bits_cons, IH. unfold takes_part. simpl.
  now rewrite orb_true_r, andb_true_r.
Qed.

Lemma chattr_init_table (modifiable attr : Z) (g : globals) :
  attr_table (res_state (chattr_init modifiable attr g))
  = map (fun e => if chattr_is_modifiable modifiable e
                  then Attr.set_check (negb (Z.land attr (Attr.flags e) =? 0)) e
                  else e) (attr_table g).
Proof. reflexivity. Qed.

Lemma chattr_init_agrees (modifiable : Z) (result : button) (attr : Z) (tbl : list Attr.t) :
  Forall (fun e => one_bit (Attr.flags e) = true) tbl ->
  checks_agree modifiable result attr
    (map (fun e => if chattr_is_modifiable modifiable e
                   then Attr.set_check (negb (Z.land attr (Attr.flags e) =? 0)) e
                   else e) tbl).
Proof.
  intros H1. unfold checks_agree. rewrite Forall_map.
  eapply Forall_impl; [exact H1|]. intros e He. simpl in He.
  unfold takes_part. destruct (chattr_is_modifiable modifiable e) eqn:Hm.
  - intros _. simpl. now apply one_bit_check.
  - rewrite Hm. discriminate.
Qed.

(** X6: [chattr_init] resets [flags_changed], keeps the flags and the stars
    of the table, and makes the checkboxes show [attr]; so "Set all" in the
    dialog as it opens copies the modifiable bits of the table from the first
    file into every flags word, keeps the other bits, and rewrites the flags
    of the first file as they are. *)
Theorem chattr_init_then_set_all (w : N) (modifiable attr : Z) (g : globals) (x : Z) :
  Forall (fun e => one_bit (Attr.flags e) = true) (attr_table g) ->
  let g' := res_state (chattr_init modifiable attr g) in
  flags_changed g' = false
  /\ map Attr.flags (attr_table g') = map Attr.flags (attr_table g)
  /\ map Attr.selected (attr_table g') = map Attr.selected (attr_table g)
  /\ exists mk,
       build_mask w modifiable B_SETALL (attr_table g') = Some mk
       /\ apply_mask mk x
          = Z.lor (Z.land (x mod 2 ^ Z.of_N w)
                          (Z.lnot (modifiable_bits modifiable (attr_table g))))
                  (Z.land attr (modifiable_bits modifiable (attr_table g)))
       /\ (0 <= attr < 2 ^ Z.of_N w -> apply_mask mk attr = attr).
Proof.
  intros H1 g'. unfold g'. rewrite chattr_init_table.
  set (init := fun e : Attr.t =>
         if chattr_is_modifiable modifiable e
         then Attr.set_check (negb (Z.land attr (Attr.flags e) =? 0)) e else e).
  assert (Hf : forall e, Attr.flags (init e) = Attr.flags e)
    by (intros e; unfold init; now destruct (chattr_is_modifiable modifiable e)).
  assert (Hs : forall e, Attr.selected (init e) = Attr.selected e)
    by (intros e; unfold init; now destruct (chattr_is_modifiable modifiable e)).
  split; [reflexivity|]. split; [|split].
  - rewrite map_map. now apply map_ext.
  - rewrite map_map. now apply map_ext.
  - assert (H1' : Forall (fun e => one_bit (Attr.flags e) = true) (map init (attr_table g))).
    { rewrite Forall_map. eapply Forall_impl; [exact H1|]. intros e He. simpl.
      now rewrite Hf. }
    destruct (set_all_copies w modifiable B_SETALL (map init (attr_table g)) attr x
                (or_introl eq_refl) H1'
                (chattr_init_agrees modifiable B_SETALL attr (attr_table g) H1))
      as (mk & Hb & Hx & Hattr).
    exists mk. split; [exact Hb|]. split; [|exact Hattr].
    rewrite Hx, takes_part_setall_bits.
    assert (HM : modifiable_bits modifiable (map init (attr_table g))
                 = modifiable_bits modifiable (attr_table g)).
    { clear -Hf. induction (attr_table g) as [|e l IH]; [reflexivity|].
      cbn [map]. rewrite !modifiable_bits_cons, IH.
      assert (Hm : chattr_is_modifiable modifiable (init e) = chattr_is_modifiable modifiable e)
        by (unfold chattr_is_modifiable; now rewrite Hf).
      now rewrite Hm, Hf. }
    now rewrite HM.
Qed.

Lemma set_all_copies_flags_witness :
  exists mk,
    build_mask 32 7 B_SETALL catalog_124 = Some mk
    /\ apply_mask mk 0x42
       = Z.lor (Z.land (0x42 mod 2 ^ 32) (Z.lnot (flag_bits (takes_part 7 B_SETALL) catalog_124)))
               (Z.land 7 (flag_bits (takes_part 7 B_SETALL) catalog_124))
    /\ (0 <= 7 < 2 ^ 32 -> apply_mask mk 7 = 7).
Proof.
  apply (set_all_copies_flags 32 7 B_SETALL catalog_124 7 0x42).
  - now left.
  - repeat constructor.
  - repeat (constructor; [intros _; reflexivity|]). constructor.
Defined.

Lemma chattr_init_then_set_all_witness :
  let g' := res_state (chattr_init sample_modifiable 0x42 sample_globals) in
  flags_changed g' = false
  /\ map Attr.flags (attr_table g') = map Attr.flags check_attr
  /\ map Attr.selected (attr_table g') = map Attr.selected check_attr
  /\ exists mk,
       build_mask 32 sample_modifiable B_SETALL (attr_table g') = Some mk
       /\ apply_mask mk 0x80
          = Z.lor (Z.land (0x80 mod 2 ^ 32)
                          (Z.lnot (modifiable_bits sample_modifiable check_attr)))
                  (Z.land 0x42 (modifiable_bits sample_modifiable check_attr))
       /\ (0 <= 0x42 < 2 ^ 32 -> apply_mask mk 0x42 = 0x42).
Proof.
  apply (chattr_init_then_set_all 32 sample_modifiable 0x42 sample_globals 0x80).
  apply check_attr_one_bit. reflexivity.
Defined.

(** ** The attribute string *)

Lemma string_of_list_ascii_length (l : list ascii) :
  String.length (String.string_of_list_ascii l) = length l.
Proof. induction l as [|c l IH]; simpl; congruence. Qed.

Lemma string_of_list_ascii_inj (l1 l2 : list ascii) :
  String.string_of_list_ascii l1 = String.string_of_list_ascii l2 -> l1 = l2.
Proof.
  intros H. apply (f_equal String.list_ascii_of_string) in H.
  now rewrite !String.list_ascii_of_string_of_list_ascii in H.
Qed.

(** X7: [chattr_fill_str] writes one character for each attribute of the
    table, and when no attribute has the letter "-", two flags words give
    the same string exactly when each attribute is present in both or absent
    from both. *)
Theorem chattr_fill_str_faithful (tbl : list Attr.t) (a b : Z) :
  no_dash tbl = true ->
  String.length (chattr_fill_str tbl a) = length tbl
  /\ (chattr_fill_str tbl a = chattr_fill_str tbl b
      <-> Forall (fun e => (Z.land a (Attr.flags e) =? 0) = (Z.land b (Attr.flags e) =? 0))
                 tbl).
Proof.
  intros Hd. unfold chattr_fill_str. split.
  - now rewrite string_of_list_ascii_length, length_map.
  - split.
    + intros H. apply string_of_list_ascii_inj in H.
      induction tbl as [|e tbl IH]; constructor.
      * simpl in Hd. apply andb_prop in Hd as [He _].
        apply negb_true_iff, Ascii.eqb_neq in He.
        simpl in H. inversion H as [[Hc _]].
        destruct (Z.land a (Attr.flags e) =? 0), (Z.land b (Attr.flags e) =? 0);
          simpl in Hc; congruence.
      * simpl in Hd. apply andb_prop in Hd as [_ Hd].
        simpl in H. inversion H. now apply IH.
    + intros H. f_equal. clear Hd.
      induction H as [|e tbl He _ IH]; [reflexivity|].
      simpl. now rewrite He, IH.
Qed.

Lemma chattr_fill_str_faithful_witness :
  String.length (chattr_fill_str check_attr 0x52) = length check_attr
  /\ (chattr_fill_str check_attr 0x52 = chattr_fill_str check_attr 0x02000052
      <-> Forall (fun e => (Z.land 0x52 (Attr.flags e) =? 0)
                           = (Z.land 0x02000052 (Attr.flags e) =? 0)) check_attr).
Proof.
  apply (chattr_fill_str_faithful check_attr 0x52 0x02000052). reflexivity.
Defined.

(** ** The callback of the dialog *)

Lemma find_check_spec (modifiable : Z) (tbl : list Attr.t) (w : option nat) :
  forall i0,
    find_check modifiable tbl i0 w
    = match w with
      | Some i =>
          if (i0 <=? i)%nat then
            match tbl !! (i - i0)%nat with
            | Some e => if chattr_is_modifiable modifiable e then Some (i, e) else None
            | None => None
            end
          else None
      | None => None
      end.
Proof.
  induction tbl as [|e tbl IH]; intros i0; cbn [find_check].
  - destruct w as [i|]; [|reflexivity]. now destruct (i0 <=? i)%nat.
  - rewrite IH. destruct w as [i|]; [|now rewrite andb_false_r].
    destruct (decide (i = i0)) as [->|Hne].
    + rewrite bool_decide_eq_true_2 by reflexivity. rewrite andb_true_r.
      rewrite Nat.leb_refl, Nat.sub_diag.
      change ((e :: tbl) !! 0%nat) with (Some e). cbv beta iota.
      destruct (chattr_is_modifiable modifiable e); [reflexivity|].
      assert (H : (S i0 <=? i0)%nat = false) by (apply Nat.leb_gt; lia).
      now rewrite H.
    + rewrite bool_decide_eq_false_2 by congruence. rewrite andb_false_r.
      destruct (Nat.leb_spec i0 i) as [Hle|Hlt].
      * assert (H : (S i0 <=? i)%nat = true) by (apply Nat.leb_le; lia).
        rewrite H. replace (i - i0)%nat with (S (i - S i0)) by lia. reflexivity.
      * assert (H : (S i0 <=? i)%nat = false) by (apply Nat.leb_gt; lia).
        now rewrite H.
Qed.

Lemma chattr_toggle_select_twice (i : nat) (tbl : list Attr.t) :
  chattr_toggle_select i (chattr_toggle_select i tbl) = tbl.
Proof.
  unfold chattr_toggle_select at 2.
  destruct (tbl !! i) as [e|] eqn:He.
  - unfold chattr_toggle_select.
    rewrite list_lookup_insert_eq by (now apply lookup_lt_Some in He).
    rewrite list_insert_insert_eq. destruct e as [f a t s c]. simpl.
    rewrite negb_involutive. now apply list_insert_id.
  - unfold chattr_toggle_select. now rewrite He.
Qed.

(** X8: a notification from the checkbox of a modifiable attribute flips
    the bits of the attribute in [flags] and its star and sets
    [flags_changed]; a second one brings [flags] and the table back, and
    [flags_changed] stays set. *)
Theorem chattr_callback_notify (modifiable KEY_IC parm : Z) (current : option nat)
    (g : globals) (i : nat) (e : Attr.t) :
  attr_table g !! i = Some e ->
  chattr_is_modifiable modifiable e = true ->
  let r1 := chattr_callback modifiable KEY_IC (Some i) current MSG_NOTIFY parm g in
  let r2 := chattr_callback modifiable KEY_IC (Some i) current MSG_NOTIFY parm (snd r1) in
  fst r1 = MSG_HANDLED
  /\ flags (snd r1) = Z.lxor (flags g) (Attr.flags e)
  /\ attr_table (snd r1) = <[i := Attr.set_selected (negb (Attr.selected e)) e]> (attr_table g)
  /\ flags_changed (snd r1) = true
  /\ fst r2 = MSG_HANDLED
  /\ flags (snd r2) = flags g
  /\ attr_table (snd r2) = attr_table g
  /\ flags_changed (snd r2) = true.
Proof.
  intros He Hm r1 r2.
  assert (H1 : r1 = (MSG_HANDLED,
                     set_flags_changed true
                       (set_attr_table (chattr_toggle_select i (attr_table g))
                          (set_flags (Z.lxor (flags g) (Attr.flags e)) g)))).
  { unfold r1, chattr_callback. rewrite find_check_spec. simpl.
    now rewrite Nat.sub_0_r, He, Hm. }
  assert (Ht : chattr_toggle_select i (attr_table g)
               = <[i := Attr.set_selected (negb (Attr.selected e)) e]> (attr_table g)).
  { unfold chattr_toggle_select. now rewrite He. }
  assert (H2 : r2 = (MSG_HANDLED,
                     set_flags_changed true
                       (set_attr_table (attr_table g) (set_flags (flags g) (snd r1))))).
  { unfold r2. rewrite H1. unfold chattr_callback. rewrite find_check_spec.
    cbn [snd attr_table set_flags_changed set_attr_table set_flags flags].
    rewrite Nat.sub_0_r. simpl.
    rewrite Ht at 1.
    rewrite list_lookup_insert_eq by (now apply lookup_lt_Some in He).
    assert (Hm' : chattr_is_modifiable modifiable
                    (Attr.set_selected (negb (Attr.selected e)) e) = true) by exact Hm.
    rewrite Hm'. rewrite chattr_toggle_select_twice.
    simpl. rewrite Z.lxor_assoc, Z.lxor_nilpotent, Z.lxor_0_r. reflexivity. }
  rewrite H2, H1. simpl. rewrite Ht. now repeat split.
Qed.

Lemma chattr_callback_notify_witness :
  let g := set_flags 0x42 sample_globals in
  let r1 := chattr_callback sample_modifiable 0 (Some 4%nat) None MSG_NOTIFY 0 g in
  let r2 := chattr_callback sample_modifiable 0 (Some 4%nat) None MSG_NOTIFY 0 (snd r1) in
  flags (snd r1) = 0x52 /\ flags_changed (snd r1) = true
  /\ flags (snd r2) = 0x42 /\ attr_table (snd r2) = check_attr
  /\ flags_changed (snd r2) = true.
Proof.
  intros g r1 r2.
  destruct (chattr_callback_notify sample_modifiable 0 0 None g 4
              (Attr.mk EXT2_IMMUTABLE_FL "i" "Immutable" false false) eq_refl eq_refl)
    as (_ & H1 & _ & H2 & _ & H3 & H4 & H5).
  now repeat split.
Defined.

(** X9: a message that is about no checkbox of a modifiable attribute, or a
    key other than "T", "t" and Insert, changes no variable; "T", "t" or
    Insert on the checkbox of a modifiable attribute flips the star of the
    attribute and nothing else, so it never makes "Set" write. *)
Theorem chattr_callback_keys (modifiable KEY_IC parm : Z) (sender current : option nat)
    (g : globals) :
  ((forall i e, sender = Some i -> attr_table g !! i = Some e ->
                chattr_is_modifiable modifiable e = false) ->
   chattr_callback modifiable KEY_IC sender current MSG_NOTIFY parm g
   = (MSG_NOT_HANDLED, g))
  /\ ((forall i e, current = Some i -> attr_table g !! i = Some e ->
                   chattr_is_modifiable modifiable e = false) ->
      chattr_callback modifiable KEY_IC sender current MSG_KEY parm g
      = (MSG_NOT_HANDLED, g))
  /\ (parm <> 84 -> parm <> 116 -> parm <> KEY_IC ->
      chattr_callback modifiable KEY_IC sender current MSG_KEY parm g
      = (MSG_NOT_HANDLED, g))
  /\ (forall i e,
        current = Some i -> attr_table g !! i = Some e ->
        chattr_is_modifiable modifiable e = true ->
        parm = 84 \/ parm = 116 \/ parm = KEY_IC ->
        chattr_callback modifiable KEY_IC sender current MSG_KEY parm g
        = (MSG_HANDLED,
           set_attr_table
             (<[i := Attr.set_selected (negb (Attr.selected e)) e]> (attr_table g)) g)).
Proof.
  assert (Hnone : forall w,
    (forall i e, w = Some i -> attr_table g !! i = Some e ->
                 chattr_is_modifiable modifiable e = false) ->
    find_check modifiable (attr_table g) 0 w = None).
  { intros w H. rewrite find_check_spec. destruct w as [i|]; [|reflexivity].
    simpl. rewrite Nat.sub_0_r.
    destruct (attr_table g !! i) as [e|] eqn:He; [|reflexivity].
    now rewrite (H i e eq_refl He). }
  split; [|split; [|split]].
  - intros H. unfold chattr_callback. now rewrite Hnone.
  - intros H. unfold chattr_callback. rewrite Hnone by exact H.
    now destruct ((parm =? 84) || (parm =? 116) || (parm =? KEY_IC)).
  - intros H1 H2 H3. unfold chattr_callback.
    apply Z.eqb_neq in H1, H2, H3. now rewrite H1, H2, H3.
  - intros i e -> He Hm Hp. unfold chattr_callback.
    assert (Hk : (parm =? 84) || (parm =? 116) || (parm =? KEY_IC) = true).
    { destruct Hp as [-> | [-> | ->]]; rewrite ?Z.eqb_refl, ?orb_true_r; reflexivity. }
    rewrite Hk, find_check_spec. simpl. rewrite Nat.sub_0_r, He, Hm.
    unfold chattr_toggle_select. now rewrite He.
Qed.

Lemma chattr_callback_keys_witness :
  chattr_callback sample_modifiable 0 None (Some 14%nat) MSG_KEY 84 sample_globals
  = (MSG_NOT_HANDLED, sample_globals)
  /\ chattr_callback sample_modifiable 0 None (Some 4%nat) MSG_KEY 84 sample_globals
     = (MSG_HANDLED,
        set_attr_table
          (<[4%nat := Attr.mk EXT2_IMMUTABLE_FL "i" "Immutable" true false]> check_attr)
          sample_globals).
Proof.
  destruct (chattr_callback_keys sample_modifiable 0 84 None (Some 14%nat) sample_globals)
    as (_ & H2 & _ & _).
  destruct (chattr_callback_keys sample_modifiable 0 84 None (Some 4%nat) sample_globals)
    as (_ & _ & _ & H4).
  split.
  - apply H2. intros i e Hi He. inversion Hi; subst i. inversion He. reflexivity.
  - apply (H4 4%nat (Attr.mk EXT2_IMMUTABLE_FL "i" "Immutable" false false));
      try reflexivity. now left.
Defined.

(** ** The search for the next marked file *)

Lemma next_marked_skips (l : list file_entry) :
  forall i k e,
    next_marked l i = Some (k, e) ->
    forall j e', (j < k - i)%nat -> l !! j = Some e' -> f_marked e' = false.
Proof.
  induction l as [|a l IH]; intros i k e H j e' Hj Hl; [discriminate|].
  simpl in H. destruct (f_marked a) eqn:Ha.
  - inversion H; subst. lia.
  - destruct j as [|j]; simpl in Hl.
    + now inversion Hl; subst.
    + apply (IH (S i) k e H j e'); [|exact Hl].
      apply next_marked_found in H. lia.
Qed.

Lemma next_marked_none (l : list file_entry) :
  forall i, next_marked l i = None ->
            forall j e', l !! j = Some e' -> f_marked e' = false.
Proof.
  induction l as [|a l IH]; intros i H j e' Hl; [discriminate|].
  simpl in H. destruct (f_marked a) eqn:Ha; [discriminate|].
  destruct j as [|j]; simpl in Hl.
  - now inversion Hl; subst.
  - now apply (IH (S i) H j e').
Qed.

Lemma next_file_spec (g : globals) :
  match next_file g with
  | Ok fn g' =>
      g' = set_current_file (current_file g') g
      /\ (current_file g <= current_file g')%nat
      /\ dir_list (current_panel g) !! current_file g' = Some (FileEntry fn true)
      /\ (forall i e, (current_file g <= i < current_file g')%nat ->
                      dir_list (current_panel g) !! i = Some e -> f_marked e = false)
      /\ next_file g' = Ok fn g'
  | OutOfBounds g' =>
      g' = g
      /\ forall i e, (current_file g <= i)%nat ->
                     dir_list (current_panel g) !! i = Some e -> f_marked e = false
  | OutOfFuel _ => False
  end.
Proof.
  unfold next_file. run.
  destruct (next_marked (drop (current_file g) (dir_list (current_panel g))) (current_file g))
    as [[k e]|] eqn:H.
  - pose proof (next_marked_found _ _ _ _ H) as (Hle & Hl & Hm).
    pose proof (next_marked_skips _ _ _ _ H) as Hskip.
    rewrite lookup_drop in Hl.
    replace (current_file g + (k - current_file g))%nat with k in Hl by lia.
    cbn [current_file set_current_file current_panel].
    split; [reflexivity|]. split; [exact Hle|]. split; [|split].
    + rewrite Hl. f_equal. destruct e as [n b]. simpl in *. now subst.
    + intros i e' Hi He'. apply (Hskip (i - current_file g)%nat e'); [lia|].
      rewrite lookup_drop. now replace (current_file g + (i - current_file g))%nat with i by lia.
    + destruct (drop k (dir_list (current_panel g))) as [|a l] eqn:Hd.
      * apply (f_equal (fun l => l !! 0%nat)) in Hd. rewrite lookup_drop, Nat.add_0_r in Hd.
        simpl in Hd. congruence.
      * assert (Ha : a = e).
        { apply (f_equal (fun l => l !! 0%nat)) in Hd.
          rewrite lookup_drop, Nat.add_0_r in Hd. simpl in Hd. congruence. }
        subst a. simpl. now rewrite Hm.
  - split; [reflexivity|]. intros i e' Hi He'.
    apply (next_marked_none _ _ H (i - current_file g)%nat e').
    rewrite lookup_drop. now replace (current_file g + (i - current_file g))%nat with i by lia.
Qed.

(** X10: [next_file] stops at the first marked entry from [current_file]
    on, passing over unmarked entries only, and changes nothing but
    [current_file]; asked again at once it gives the same file.  When no
    entry from [current_file] on is marked it leaves the listing. *)
Theorem next_file_first_marked (g : globals) :
  match next_file g with
  | Ok fn g' =>
      g' = set_current_file (current_file g') g
      /\ (current_file g <= current_file g')%nat
      /\ dir_list (current_panel g) !! current_file g' = Some (FileEntry fn true)
      /\ (forall i e, (current_file g <= i < current_file g')%nat ->
                      dir_list (current_panel g) !! i = Some e -> f_marked e = false)
      /\ next_file g' = Ok fn g'
  | OutOfBounds g' =>
      g' = g
      /\ forall i e, (current_file g <= i)%nat ->
                     dir_list (current_panel g) !! i = Some e -> f_marked e = false
  | OutOfFuel _ => False
  end.
Proof. exact (next_file_spec g). Qed.

(** ** The counter of marked files *)

Lemma count_marked_skip (l : list file_entry) (n : nat) :
  (forall j e, (j < n)%nat -> l !! j = Some e -> f_marked e = false) ->
  count_marked (drop n l) = count_marked l.
Proof.
  revert l. induction n as [|n IH]; intros l H; [now rewrite drop_0|].
  destruct l as [|a l]; [reflexivity|]. simpl.
  rewrite (H 0%nat a) by (simpl; auto; lia). simpl.
  apply IH. intros j e Hj He. apply (H (S j) e); [lia | exact He].
Qed.

Lemma count_marked_unmark (l : list file_entry) (k : nat) (e : file_entry) :
  l !! k = Some e -> f_marked e = true ->
  count_marked (drop k (<[k := FileEntry (fname e) false]> l))
  = (count_marked (drop k l) - 1)%nat
  /\ (1 <= count_marked (drop k l))%nat.
Proof.
  revert k. induction l as [|a l IH]; intros k He Hm; [discriminate|].
  destruct k as [|k]; simpl in *.
  - inversion He; subst a. rewrite Hm. simpl. lia.
  - now apply IH.
Qed.

Lemma well_counted_frame (g g' : globals) :
  current_panel g' = current_panel g -> current_file g' = current_file g ->
  well_counted g -> well_counted g'.
Proof. unfold well_counted. now intros -> ->. Qed.

Lemma well_counted_unmark (g : globals) :
  well_counted g -> well_counted (unmark_current g).
Proof.
  unfold well_counted, unmark_current, do_file_mark. simpl. intros H.
  destruct (dir_list (current_panel g) !! current_file g) as [e|] eqn:He; [|exact H].
  destruct (f_marked e) eqn:Hm; simpl; [|exact H].
  destruct (count_marked_unmark _ _ _ He Hm) as [Hc Hpos].
  rewrite Hc, H. lia.
Qed.

Lemma well_counted_next_file (g g' : globals) (fn : string) :
  next_file g = Ok fn g' -> well_counted g -> well_counted g' /\ at_marked g'.
Proof.
  intros Hn H. pose proof (next_file_spec g) as Hspec. rewrite Hn in Hspec.
  destruct Hspec as (Hg' & Hle & Hk & Hskip & _).
  split.
  - unfold well_counted in *. rewrite Hg'. simpl. rewrite H. f_equal.
    remember (current_file g') as k. clear Heqk Hg'.
    rewrite <- (count_marked_skip (drop (current_file g) (dir_list (current_panel g)))
                  (k - current_file g)).
    + rewrite drop_drop. do 2 f_equal. lia.
    + intros j e Hj He. rewrite lookup_drop in He.
      apply (Hskip (current_file g + j)%nat e); [lia | exact He].
  - exists (FileEntry fn true).
    assert (Hp : current_panel g' = current_panel g) by (rewrite Hg'; reflexivity).
    rewrite Hp. now split.
Qed.

Lemma well_counted_positive (g : globals) :
  well_counted g -> marked (current_panel g) <> 0 ->
  exists fn g', next_file g = Ok fn g'.
Proof.
  intros H Hm. pose proof (next_file_spec g) as Hspec.
  destruct (next_file g) as [fn g'|g'|g'] eqn:Hn; [now eauto | contradiction |].
  destruct Hspec as [_ Hnone]. exfalso. apply Hm. rewrite H.
  assert (Hz : count_marked (drop (current_file g) (dir_list (current_panel g))) = 0%nat).
  { assert (Hall : forall j e, drop (current_file g) (dir_list (current_panel g)) !! j = Some e
                               -> f_marked e = false).
    { intros j e He. rewrite lookup_drop in He.
      apply (Hnone (current_file g + j)%nat e); [lia | exact He]. }
    clear -Hall. induction (drop _ _) as [|a l IH]; [reflexivity|].
    simpl. rewrite (Hall 0%nat a eq_refl). simpl. apply IH.
    intros j e He. now apply (Hall (S j) e). }
  now rewrite Hz.
Qed.

Lemma unmark_at_marked (g : globals) :
  well_counted g -> at_marked g ->
  marked (current_panel (unmark_current g)) = marked (current_panel g) - 1.
Proof.
  intros _ (e & He & Hm).
  destruct (do_file_mark_at (current_panel g) (current_file g) e He) as [_ Hc].
  rewrite Hm in Hc. exact Hc.
Qed.

(** ** Batches that stay inside the listing and come to an end *)

Section BatchRuns.

Variable E : env.

Lemma try_chattr_in_bounds fuel p m :
  forall g, is_out_of_bounds (try_chattr E fuel p m g) = false.
Proof.
  induction fuel as [|fuel IH]; intros g; [reflexivity|].
  rewrite try_chattr_unfold. cbv zeta.
  destruct (negb _ && negb _); [|reflexivity].
  destruct (_ =? 0); [reflexivity|].
  destruct (_ =? 1); [reflexivity|].
  destruct (_ =? 2); [apply IH | reflexivity].
Qed.

Lemma do_chattr_counted fuel p m g :
  well_counted g ->
  is_out_of_bounds (do_chattr E fuel p m g) = false
  /\ well_counted (res_state (do_chattr E fuel p m g))
  /\ (forall ok g', do_chattr E fuel p m g = Ok ok g' -> at_marked g ->
        marked (current_panel g') = marked (current_panel g) - 1).
Proof.
  intros Hw. rewrite do_chattr_unfold.
  pose proof (try_chattr_frame E fuel (vfs_path_as_str p) (apply_mask (masks g) m) g) as Hf.
  pose proof (try_chattr_in_bounds fuel (vfs_path_as_str p) (apply_mask (masks g) m) g) as Hb.
  destruct (try_chattr E fuel _ _ g) as [r g1|g1|g1]; cbn [res_state] in *;
    try discriminate; destruct Hf as (Hp & _ & _ & Hc & _);
    pose proof (well_counted_frame g g1 Hp Hc Hw) as Hw1.
  - split; [reflexivity|]. split; [now apply well_counted_unmark|].
    intros ok g' H Ham. inversion H; subst ok g'.
    rewrite unmark_at_marked; [now rewrite Hp | exact Hw1 |].
    destruct Ham as (e & He & Hm). exists e. now rewrite Hp, Hc.
  - split; [reflexivity|]. split; [exact Hw1|]. discriminate.
Qed.

Lemma chattr_apply_loop_in_bounds fuel :
  forall g,
    well_counted g -> marked (current_panel g) <> 0 ->
    is_out_of_bounds (chattr_apply_loop E fuel g) = false
    /\ well_counted (res_state (chattr_apply_loop E fuel g)).
Proof.
  induction fuel as [|fuel IH]; intros g Hw Hm; [now split|].
  rewrite chattr_apply_loop_unfold.
  destruct (well_counted_positive g Hw Hm) as (fn & g1 & Hn). rewrite Hn.
  destruct (well_counted_next_file g g1 fn Hn Hw) as [Hw1 Ham1].
  cbv zeta. destruct (fgetflags E (now g1) fn) as [v|].
  - set (g2 := set_flags v (log (EvGetflags fn (Some v)) g1)).
    assert (Hw2 : well_counted g2) by exact Hw1.
    destruct (do_chattr_counted fuel fn v g2 Hw2) as (Hb & Hw3 & _).
    destruct (do_chattr E fuel fn v g2) as [ok g3|g3|g3]; cbn [res_state] in *;
      try discriminate; [|now split].
    destruct (ok && negb (marked (current_panel g3) =? 0)) eqn:Hc; [|now split].
    apply IH; [exact Hw3|]. apply andb_prop in Hc as [_ Hc].
    now apply negb_true_iff, Z.eqb_neq in Hc.
  - set (g3 := unmark_current (log (EvGetflags fn None) g1)).
    assert (Hw3 : well_counted g3) by (apply well_counted_unmark; exact Hw1).
    destruct (negb (marked (current_panel g3) =? 0)) eqn:Hc; [|now split].
    apply IH; [exact Hw3|]. now apply negb_true_iff, Z.eqb_neq in Hc.
Qed.

Lemma chattr_apply_mask_in_bounds (fuel : nat) (vpath : string) (m : Z) (g : globals) :
  well_counted g -> at_marked g -> 2 <= marked (current_panel g) ->
  is_out_of_bounds (chattr_apply_mask E fuel vpath m g) = false
  /\ well_counted (res_state (chattr_apply_mask E fuel vpath m g)).
Proof.
  intros Hw Ham Hm. rewrite chattr_apply_mask_unfold.
  destruct (do_chattr_counted fuel vpath m g Hw) as (Hb & Hw1 & Hdec).
  destruct (do_chattr E fuel vpath m g) as [ok g1|g1|g1]; cbn [res_state] in *;
    try discriminate; [|now split].
  destruct ok; [|now split].
  apply chattr_apply_loop_in_bounds; [exact Hw1|].
  rewrite (Hdec true g1 eq_refl Ham). lia.
Qed.

(** X11: with a counter that is right, the first file marked and at least
    two files marked, a batch never looks for a marked file outside the
    listing, and it leaves the counter right, however it ends. *)
Theorem batch_stays_in_listing (fuel : nat) (vpath : string) (m : Z) (g : globals) :
  well_counted g -> at_marked g -> 2 <= marked (current_panel g) ->
  is_out_of_bounds (chattr_apply_mask E fuel vpath m g) = false
  /\ well_counted (res_state (chattr_apply_mask E fuel vpath m g)).
Proof. apply chattr_apply_mask_in_bounds. Qed.

Lemma well_counted_none (g : globals) :
  well_counted g -> marked (current_panel g) = 0 -> next_file g = OutOfBounds g.
Proof.
  intros Hw Hm. pose proof (next_file_spec g) as Hspec.
  destruct (next_file g) as [fn g'|g'|g'] eqn:Hn; [|contradiction|].
  - exfalso. destruct (well_counted_next_file g g' fn Hn Hw) as [Hw' (e & He & Hme)].
    destruct Hspec as (Hg' & _).
    assert (Hp : marked (current_panel g') = marked (current_panel g))
      by (rewrite Hg'; reflexivity).
    unfold well_counted in Hw'. rewrite Hp, Hm in Hw'.
    destruct (count_marked_unmark _ _ _ He Hme) as [_ Hpos]. lia.
  - destruct Hspec as [-> _]. reflexivity.
Qed.

(** X12: a batch over a single marked file whose write is settled without
    "Cancel" goes on to look for a second marked file, finds none and leaves
    the listing: the loop of [chattr_apply_mask] has no test before its
    first round. *)
Theorem batch_of_one_leaves_listing (fuel : nat) (vpath : string) (m : Z)
    (g g1 : globals) :
  well_counted g -> at_marked g -> marked (current_panel g) = 1 ->
  do_chattr E fuel vpath m g = Ok true g1 ->
  chattr_apply_mask E fuel vpath m g = OutOfBounds g1.
Proof.
  intros Hw Ham Hm Hd. rewrite chattr_apply_mask_unfold.
  destruct (do_chattr_counted fuel vpath m g Hw) as (_ & Hw1 & Hdec).
  rewrite Hd in *. cbn [res_state] in Hw1.
  assert (Hm1 : marked (current_panel g1) = 0)
    by (rewrite (Hdec true g1 eq_refl Ham); lia).
  destruct fuel as [|fuel].
  - rewrite do_chattr_unfold in Hd. discriminate.
  - rewrite chattr_apply_loop_unfold. now rewrite (well_counted_none g1 Hw1 Hm1).
Qed.

Lemma try_chattr_returns fuel p m g :
  never_retries E -> returned (try_chattr E (S fuel) p m g) = true.
Proof.
  intros Hnr. rewrite try_chattr_unfold. cbv zeta.
  destruct (negb _ && negb _); [|reflexivity].
  destruct (_ =? 0); [reflexivity|].
  destruct (_ =? 1); [reflexivity|].
  destruct (Z.eqb_spec (query_dialog E
              (now (log (EvSetflags p m (fsetflags E (now g) p m)) g)) p) 2) as [H|_];
    [|reflexivity].
  now apply Hnr in H.
Qed.

Lemma do_chattr_returns fuel p m g :
  never_retries E ->
  exists ok g',
    do_chattr E (S fuel) p m g = Ok ok g'
    /\ (ok = false ->
        exists q a ev, trace g' = EvQuery q a :: ev /\ is_cancel_query (EvQuery q a) = true).
Proof.
  intros Hnr. rewrite do_chattr_unfold.
  pose proof (try_chattr_returns fuel (vfs_path_as_str p) (apply_mask (masks g) m) g Hnr) as Hr.
  pose proof (try_chattr_false E (S fuel) (vfs_path_as_str p) (apply_mask (masks g) m) g) as Hf.
  destruct (try_chattr E (S fuel) _ _ g) as [r g1|g1|g1]; try discriminate.
  exists r, (unmark_current g1). split; [reflexivity|].
  intros ->. destruct (Hf g1 eq_refl) as (a & ev & Ht & Hq).
  exists (vfs_path_as_str p), a, (EvSetflags (vfs_path_as_str p) (apply_mask (masks g) m) false :: ev).
  now split.
Qed.

Lemma chattr_apply_loop_ends fuel :
  forall g,
    never_retries E -> well_counted g -> marked (current_panel g) <> 0 ->
    (Z.to_nat (marked (current_panel g)) + 1 <= fuel)%nat ->
    returned (chattr_apply_loop E fuel g) = true
    /\ done_or_aborted (res_state (chattr_apply_loop E fuel g)).
Proof.
  induction fuel as [|fuel IH]; intros g Hnr Hw Hm Hfuel; [lia|].
  assert (Hpos : 0 < marked (current_panel g)) by (unfold well_counted in Hw; lia).
  rewrite chattr_apply_loop_unfold.
  destruct (well_counted_positive g Hw Hm) as (fn & g1 & Hn). rewrite Hn.
  destruct (well_counted_next_file g g1 fn Hn Hw) as [Hw1 Ham1].
  assert (Hm1 : marked (current_panel g1) = marked (current_panel g)).
  { pose proof (next_file_spec g) as Hs. rewrite Hn in Hs.
    destruct Hs as (-> & _). reflexivity. }
  assert (Hnext : forall g3,
    well_counted g3 -> marked (current_panel g3) = marked (current_panel g) - 1 ->
    returned (if negb (marked (current_panel g3) =? 0)
              then chattr_apply_loop E fuel g3 else Ok tt g3) = true
    /\ done_or_aborted (res_state (if negb (marked (current_panel g3) =? 0)
                                   then chattr_apply_loop E fuel g3 else Ok tt g3))).
  { intros g3 Hw3 Hm3.
    destruct (Z.eqb_spec (marked (current_panel g3)) 0) as [H0|H0]; cbn [negb].
    - split; [reflexivity|]. now left.
    - apply IH; auto. lia. }
  cbv zeta. destruct (fgetflags E (now g1) fn) as [v|].
  - set (g2 := set_flags v (log (EvGetflags fn (Some v)) g1)).
    assert (Hw2 : well_counted g2) by exact Hw1.
    assert (Ham2 : at_marked g2) by exact Ham1.
    destruct fuel as [|fuel']; [lia|].
    destruct (do_chattr_returns fuel' fn v g2 Hnr) as (ok & g3 & Hd & Hfalse).
    destruct (do_chattr_counted (S fuel') fn v g2 Hw2) as (_ & Hw3 & Hdec).
    rewrite Hd in *. cbn [res_state] in Hw3.
    destruct ok; cbn [andb].
    + apply Hnext; [exact Hw3|]. rewrite (Hdec true g3 eq_refl Ham2).
      change (marked (current_panel g2)) with (marked (current_panel g1)). lia.
    + split; [reflexivity|]. right. now apply Hfalse.
  - apply Hnext.
    + apply well_counted_unmark. exact Hw1.
    + rewrite unmark_at_marked; [|exact Hw1 | exact Ham1].
      change (marked (current_panel (log (EvGetflags fn None) g1)))
        with (marked (current_panel g1)). lia.
Qed.

(** X13: when the user never answers "Retry", a batch over at least two
    marked files, with a counter that is right and fuel for one round for
    each marked file, returns; it returns with no marked file left or right
    after a prompt answered "Cancel". *)
Theorem batch_ends_done_or_aborted (fuel : nat) (vpath : string) (m : Z) (g : globals) :
  never_retries E -> well_counted g -> at_marked g ->
  2 <= marked (current_panel g) ->
  (Z.to_nat (marked (current_panel g)) <= fuel)%nat ->
  returned (chattr_apply_mask E fuel vpath m g) = true
  /\ done_or_aborted (res_state (chattr_apply_mask E fuel vpath m g)).
Proof.
  intros Hnr Hw Ham Hm Hfuel. rewrite chattr_apply_mask_unfold.
  destruct fuel as [|fuel']; [lia|].
  destruct (do_chattr_returns fuel' vpath m g Hnr) as (ok & g1 & Hd & Hfalse).
  destruct (do_chattr_counted (S fuel') vpath m g Hw) as (_ & Hw1 & Hdec).
  rewrite Hd in *. cbn [res_state] in Hw1.
  destruct ok.
  - pose proof (Hdec true g1 eq_refl Ham) as Hm1.
    apply chattr_apply_loop_ends; auto; lia.
  - split; [reflexivity|]. right. now apply Hfalse.
Qed.

(** X14: [try_chattr] writes once, and once more for each prompt answered
    "Retry"; a run that is still retrying has written as often as it was
    told to retry. *)
Theorem try_chattr_counts_writes (fuel : nat) (p : string) (m : Z) :
  forall g, exists ev,
    trace (res_state (try_chattr E fuel p m g)) = ev ++ trace g
    /\ count_events is_write ev
       = ((if returned (try_chattr E fuel p m g) then 1 else 0)
          + count_events is_retry_query ev)%nat.
Proof.
  induction fuel as [|fuel IH]; intros g; [now exists []|].
  rewrite try_chattr_unfold. cbv zeta.
  set (ok := fsetflags E (now g) p m).
  set (g1 := log (EvSetflags p m ok) g).
  set (a := query_dialog E (now g1) p).
  destruct (negb ok && negb (ignore_all g)); [|now exists [EvSetflags p m ok]].
  destruct (a =? 0) eqn:H0.
  { exists [EvQuery p a; EvSetflags p m ok]. split; [reflexivity|].
    apply Z.eqb_eq in H0. simpl. now rewrite H0. }
  destruct (a =? 1) eqn:H1.
  { exists [EvQuery p a; EvSetflags p m ok]. split; [reflexivity|].
    apply Z.eqb_eq in H1. simpl. now rewrite H1. }
  destruct (a =? 2) eqn:H2.
  2:{ exists [EvQuery p a; EvSetflags p m ok]. split; [reflexivity|].
      simpl. now rewrite H2. }
  destruct (IH (log (EvQuery p a) g1)) as (ev & Hev & Hc).
  exists (ev ++ [EvQuery p a; EvSetflags p m ok]). split.
  - rewrite Hev, <- app_assoc. reflexivity.
  - assert (Happ : forall f l1 l2,
      count_events f (l1 ++ l2) = (count_events f l1 + count_events f l2)%nat).
    { intros f l1 l2. induction l1 as [|e l1 IHl]; simpl; [reflexivity|]. rewrite IHl. lia. }
    rewrite !Happ, Hc. simpl. rewrite H2. lia.
Qed.

End BatchRuns.

Lemma batch_stays_in_listing_witness :
  is_out_of_bounds (chattr_apply_mask env_B_vanished 5 "A" 1 sample_globals) = false
  /\ well_counted (res_state (chattr_apply_mask env_B_vanished 5 "A" 1 sample_globals)).
Proof.
  apply (batch_stays_in_listing env_B_vanished 5 "A" 1 sample_globals).
  - reflexivity.
  - exists (FileEntry "A" true). now split.
  - discriminate.
Defined.

Lemma batch_of_one_leaves_listing_witness :
  chattr_apply_mask env_fine 3 "A" 0x11 single_globals
  = OutOfBounds (res_state (do_chattr env_fine 3 "A" 0x11 single_globals)).
Proof.
  apply (batch_of_one_leaves_listing env_fine 3 "A" 0x11 single_globals).
  - reflexivity.
  - exists (FileEntry "A" true). now split.
  - reflexivity.
  - vm_compute. reflexivity.
Defined.

Lemma batch_ends_done_or_aborted_witness :
  returned (chattr_apply_mask env_B_cancel 3 "A" 1 sample_globals) = true
  /\ done_or_aborted (res_state (chattr_apply_mask env_B_cancel 3 "A" 1 sample_globals)).
Proof.
  apply (batch_ends_done_or_aborted env_B_cancel 3 "A" 1 sample_globals).
  - intros n p. discriminate.
  - reflexivity.
  - exists (FileEntry "A" true). now split.
  - discriminate.
  - vm_compute. lia.
Defined.

(** ** Invariants of the whole command *)

Section Keeps.

Variable w : N.
Variable modifiable : Z.
Variable E : env.

(** A property of the panel and of [current_file] that the two places
    where the program changes them keep. *)
Variable I : globals -> Prop.
Hypothesis I_frame :
  forall g g', current_panel g' = current_panel g -> current_file g' = current_file g ->
               I g -> I g'.
Hypothesis I_unmark : forall g, I g -> I (unmark_current g).
Hypothesis I_next : forall g fn g', next_file g = Ok fn g' -> I g -> I g'.

Lemma keeps_ret {A} (a : A) : keeps I (ret a).
Proof. intros g H. exact H. Qed.

Lemma keeps_get : keeps I get.
Proof. intros g H. exact H. Qed.

Lemma keeps_out_of_fuel {A} : keeps I (@out_of_fuel A).
Proof. intros g H. exact H. Qed.

Lemma keeps_out_of_bounds {A} : keeps I (@out_of_bounds A).
Proof. intros g H. exact H. Qed.

Lemma keeps_bind {A B} (m : prog A) (k : A -> prog B) :
  keeps I m -> (forall a, keeps I (k a)) -> keeps I (bind m k).
Proof.
  intros Hm Hk g H. unfold bind. specialize (Hm g H).
  destruct (m g) as [a g1|g1|g1]; cbn [res_state] in *; auto. now apply Hk.
Qed.

Lemma keeps_frame {A} (f : prog A) :
  (forall g, current_panel (res_state (f g)) = current_panel g
             /\ current_file (res_state (f g)) = current_file g) ->
  keeps I f.
Proof. intros Hf g H. destruct (Hf g) as [Hp Hc]. now apply (I_frame g). Qed.

Lemma keeps_try_chattr fuel p m : keeps I (try_chattr E fuel p m).
Proof.
  apply keeps_frame. intros g.
  destruct (try_chattr_frame E fuel p m g) as (Hp & _ & _ & Hc & _). now split.
Qed.

Lemma keeps_unmark : keeps I (modify unmark_current).
Proof. intros g H. now apply I_unmark. Qed.

Lemma keeps_next_file : keeps I next_file.
Proof.
  intros g H. destruct (next_file g) as [fn g'|g'|g'] eqn:Hn; cbn [res_state].
  - now apply (I_next g fn).
  - pose proof (next_file_spec g) as Hs. now rewrite Hn in Hs.
  - pose proof (next_file_spec g) as Hs. rewrite Hn in Hs. now destruct Hs as [-> _].
Qed.

(** Decompose a program into its statements. *)
Ltac keep :=
  repeat first
    [ apply keeps_ret | apply keeps_get
    | apply keeps_out_of_fuel | apply keeps_out_of_bounds
    | apply keeps_try_chattr | apply keeps_unmark | apply keeps_next_file
    | apply keeps_frame; intros ?; split; reflexivity
    | apply keeps_bind; [|intros ?]
    | match goal with
      | |- keeps _ (if ?c then _ else _) => destruct c
      | |- keeps _ (match ?x with _ => _ end) => destruct x
      end ].

Lemma keeps_do_chattr fuel p m : keeps I (do_chattr E fuel p m).
Proof. unfold do_chattr. keep. Qed.

Lemma keeps_chattr_apply_loop fuel : keeps I (chattr_apply_loop E fuel).
Proof.
  induction fuel as [|fuel IH]; cbn [chattr_apply_loop]; [keep|].
  apply keeps_bind; [apply keeps_next_file | intros fn].
  apply keeps_bind; [keep | intros r].
  apply keeps_bind; [destruct r; keep; apply keeps_do_chattr | intros ok].
  apply keeps_bind; [keep | intros g].
  destruct (ok && _); [exact IH | keep].
Qed.

Lemma keeps_chattr_apply_mask fuel vpath m : keeps I (chattr_apply_mask E fuel vpath m).
Proof.
  unfold chattr_apply_mask.
  apply keeps_bind; [apply keeps_do_chattr | intros [|]].
  - apply keeps_chattr_apply_loop.
  - keep.
Qed.

Lemma keeps_chattr_enter fuel fname2 : keeps I (chattr_enter E fuel fname2).
Proof. unfold chattr_enter, call_message. keep. Qed.

Lemma keeps_chattr_switch fuel result vpath :
  keeps I (chattr_switch w modifiable E fuel result vpath).
Proof.
  unfold chattr_switch.
  destruct result; try apply keeps_chattr_enter; try (now keep);
    (apply keeps_bind;
     [ apply keeps_frame; intros g; unfold modify; cbn [res_state];
       destruct (build_mask _ _ _ _); now split
     | intros _; apply keeps_bind; [keep | intros g];
       apply keeps_bind; [apply keeps_chattr_apply_mask | intros _; keep] ]).
Qed.

Lemma keeps_chattr_pick : keeps I chattr_pick.
Proof.
  unfold chattr_pick. apply keeps_bind; [keep | intros g].
  destruct (negb _); [apply keeps_next_file | keep].
Qed.

Lemma keeps_chattr_cmd_round fuel : keeps I (chattr_cmd_round w modifiable E fuel).
Proof.
  unfold chattr_cmd_round, call_message, chattr_init.
  apply keeps_bind; [keep | intros loc].
  destruct (negb loc); [keep|].
  apply keeps_bind; [apply keeps_chattr_pick | intros fn].
  cbv zeta.
  apply keeps_bind; [keep | intros [attr|]]; [|keep].
  apply keeps_bind; [keep | intros _].
  apply keeps_bind; [keep | intros _].
  apply keeps_bind; [keep | intros result].
  apply keeps_bind; [apply keeps_chattr_switch | intros [result' end_chattr]].
  keep.
Qed.

Lemma keeps_chattr_cmd_loop fuel : keeps I (chattr_cmd_loop w modifiable E fuel).
Proof.
  induction fuel as [|fuel IH]; cbn [chattr_cmd_loop]; [keep|].
  apply keeps_bind; [apply keeps_chattr_cmd_round | intros [|]].
  - keep.
  - exact IH.
Qed.

End Keeps.

Lemma well_counted_next (g : globals) (fn : string) (g' : globals) :
  next_file g = Ok fn g' -> well_counted g -> well_counted g'.
Proof. intros Hn Hw. now destruct (well_counted_next_file g g' fn Hn Hw). Qed.

(** X15: the do-while loop of [chattr_cmd] keeps the counter of marked
    files right.  When the counter is the number of marked entries from
    [current_file] on before the loop, it is so wherever a run of the loop
    stops, in every environment; and it is so before the loop when the
    command starts with a counter that is the number of marked entries of
    the listing.  This is the panel the loop works on: the panel that
    [chattr_done] reads again after the loop is not covered. *)
Theorem chattr_cmd_loop_keeps_counter (w : N) (modifiable : Z) (E : env) (fuel : nat)
    (g : globals) :
  (well_counted g -> well_counted (res_state (chattr_cmd_loop w modifiable E fuel g)))
  /\ (marked (current_panel g) = Z.of_nat (count_marked (dir_list (current_panel g))) ->
      well_counted
        (res_state (chattr_cmd_loop w modifiable E fuel
                      (set_ignore_all false (set_current_file 0 g))))).
Proof.
  split; intros H;
    apply (keeps_chattr_cmd_loop w modifiable E well_counted well_counted_frame
             well_counted_unmark well_counted_next);
    exact H.
Qed.

Lemma chattr_cmd_loop_keeps_counter_witness :
  well_counted (res_state (chattr_cmd_loop 32 sample_modifiable env_B_cancel 5
                             (set_panel (Panel (dir_list sample_panel) 2 0)
                                (set_current_file 1 sample_globals))))
  /\ well_counted (res_state (chattr_cmd_loop 32 sample_modifiable env_B_cancel 5
                                (set_ignore_all false (set_current_file 0 sample_globals)))).
Proof.
  split.
  - apply (chattr_cmd_loop_keeps_counter 32 sample_modifiable env_B_cancel 5
             (set_panel (Panel (dir_list sample_panel) 2 0)
                (set_current_file 1 sample_globals))).
    reflexivity.
  - apply (chattr_cmd_loop_keeps_counter 32 sample_modifiable env_B_cancel 5 sample_globals).
    reflexivity.
Defined.

Lemma only_unmarked_refl (l : list file_entry) : only_unmarked l l.
Proof. unfold only_unmarked. induction l; constructor; auto. Qed.

Lemma only_unmarked_unmark (l0 : list file_entry) (g : globals) :
  only_unmarked l0 (dir_list (current_panel g)) ->
  only_unmarked l0 (dir_list (current_panel (unmark_current g))).
Proof.
  unfold only_unmarked, unmark_current, do_file_mark. simpl. intros H.
  destruct (dir_list (current_panel g) !! current_file g) as [e|] eqn:He; [|exact H].
  destruct (eqb (f_marked e) false); [exact H|]. simpl.
  remember (dir_list (current_panel g)) as l. remember (current_file g) as k.
  clear Heql Heqk g. revert k He.
  induction H as [|e0 a l0 l [Hn Hm] H IH]; intros k He; [discriminate|].
  destruct k as [|k]; simpl in *.
  - inversion He; subst a. constructor; [|exact H]. simpl. split; [exact Hn | discriminate].
  - constructor; [now split | now apply IH].
Qed.

(** X16: the do-while loop of [chattr_cmd] never puts a mark on an entry,
    never changes a name and never changes the length of the listing:
    wherever a run of the loop stops, from any variables, the listing has
    the entries the loop started with, some of them unmarked.  The listing
    that [chattr_done] reads again after the loop is not covered. *)
Theorem chattr_cmd_loop_only_unmarks (w : N) (modifiable : Z) (E : env) (fuel : nat)
    (g : globals) :
  only_unmarked (dir_list (current_panel g))
    (dir_list (current_panel (res_state (chattr_cmd_loop w modifiable E fuel g)))).
Proof.
  apply (keeps_chattr_cmd_loop w modifiable E
           (fun g' => only_unmarked (dir_list (current_panel g))
                        (dir_list (current_panel g')))).
  - intros g1 g2 Hp _ H. now rewrite Hp.
  - intros g1. apply only_unmarked_unmark.
  - intros g1 fn g2 Hn H. pose proof (next_file_spec g1) as Hs.
    rewrite Hn in Hs. destruct Hs as (-> & _). exact H.
  - apply only_unmarked_refl.
Qed.

(** ** Prompts and failed writes *)

Lemma prompts_follow_failures_log (e : event) (ev : list event) :
  is_query e = false ->
  prompts_follow_failures ev = true -> prompts_follow_failures (e :: ev) = true.
Proof. intros He H. simpl. rewrite H. now destruct e. Qed.

Lemma try_chattr_prompts_follow_failures (E : env) fuel p m :
  preserves (fun ev _ => prompts_follow_failures ev = true) (try_chattr E fuel p m).
Proof.
  induction fuel as [|fuel IH]; intros g base ev Hev HJ; [now exists ev|].
  rewrite try_chattr_unfold. cbv zeta.
  set (ok := fsetflags E (now g) p m).
  set (g1 := log (EvSetflags p m ok) g).
  set (a := query_dialog E (now g1) p).
  assert (H1 : prompts_follow_failures (EvSetflags p m ok :: ev) = true)
    by now apply prompts_follow_failures_log.
  destruct (negb ok && negb (ignore_all g)) eqn:Hc.
  2:{ exists (EvSetflags p m ok :: ev). simpl. now rewrite Hev. }
  apply andb_prop in Hc as [Hok _]. apply negb_true_iff in Hok.
  assert (H2 : prompts_follow_failures (EvQuery p a :: EvSetflags p m ok :: ev) = true).
  { cbn [prompts_follow_failures] in *. rewrite Hok, String.eqb_refl. exact H1. }
  assert (Hstop : forall g',
    trace g' = EvQuery p a :: trace g1 ->
    exists ev', trace g' = ev' ++ base /\ prompts_follow_failures ev' = true).
  { intros g' Ht. exists (EvQuery p a :: EvSetflags p m ok :: ev).
    split; [|exact H2]. rewrite Ht. simpl. now rewrite Hev. }
  destruct (a =? 0); [now apply Hstop|].
  destruct (a =? 1); [now apply Hstop|].
  destruct (a =? 2); [|now apply Hstop].
  apply (IH _ base (EvQuery p a :: EvSetflags p m ok :: ev)); [|exact H2].
  simpl. now rewrite Hev.
Qed.

(** X17: in a run of the command every prompt comes right after a write to
    the same file that failed. *)
Theorem prompts_only_after_failed_writes (w : N) (modifiable : Z) (E : env) (fuel : nat)
    (g : globals) :
  exists ev,
    trace (res_state (chattr_cmd w modifiable E fuel g)) = ev ++ trace g
    /\ prompts_follow_failures ev = true.
Proof.
  rewrite chattr_cmd_unfold.
  apply (preserves_chattr_cmd_loop w modifiable E
           (fun ev _ => prompts_follow_failures ev = true)
           (fun e ev _ => prompts_follow_failures_log e ev)
           (try_chattr_prompts_follow_failures E) fuel
           (set_ignore_all false (set_current_file 0 g)) (trace g) []);
    reflexivity.
Qed.

(** ** Rounds of the command that write nothing *)

Section Rounds.

Variable w : N.
Variable modifiable : Z.
Variable E : env.

(** One round of the outer loop, statement by statement. *)
Lemma chattr_cmd_round_unfold fuel g :
  chattr_cmd_round w modifiable E fuel g =
  let loc := vfs_current_is_local E (now g) in
  let g0 := log (EvIsLocal loc) g in
  if negb loc then
    Ok true (log (EvMessage "Cannot change attributes on non-local filesystems") g0)
  else
    match chattr_pick g0 with
    | Ok fn g1 =>
        let r := fgetflags E (now g1) fn in
        let g2 := log (EvGetflags fn r) g1 in
        match r with
        | None => Ok true (log (EvMessage fn) g2)
        | Some attr =>
            let g3 := res_state (chattr_init modifiable attr (set_flags attr g2)) in
            let o := dlg_run E (now g3) fn attr (attr_table g3) in
            let g4 := log (EvDialog fn attr (dlg_result o))
                          (set_flags (dlg_flags o)
                             (set_flags_changed (dlg_flags_changed o)
                                (set_attr_table (dlg_check_attr o) g3))) in
            match chattr_switch w modifiable E fuel (dlg_result o) fn g4 with
            | Ok (result, end_chattr) g5 =>
                let g6 := if negb (marked (current_panel g5) =? 0)
                             && negb (is_B_CANCEL result)
                          then unmark_current g5 else g5 in
                Ok (negb (negb (marked (current_panel g6) =? 0) && negb end_chattr)) g6
            | OutOfFuel g5 => OutOfFuel g5
            | OutOfBounds g5 => OutOfBounds g5
            end
        end
    | OutOfFuel g1 => OutOfFuel g1
    | OutOfBounds g1 => OutOfBounds g1
    end.
Proof.
  unfold chattr_cmd_round. unfold bind at 1. unfold call_vfs_current_is_local at 1.
  cbv zeta. destruct (negb (vfs_current_is_local E (now g))); [reflexivity|].
  unfold bind at 1. destruct (chattr_pick _) as [fn g1|g1|g1]; [|reflexivity..].
  unfold bind at 1. unfold call_fgetflags at 1. unfold vfs_path_as_str, vfs_path_from_str.
  destruct (fgetflags E (now g1) fn) as [attr|]; [|reflexivity].
  unfold bind at 1. unfold modify at 1.
  unfold bind at 1.
  destruct (chattr_init modifiable attr _) as [[] g3|g3|g3] eqn:Hinit;
    try (unfold chattr_init, bind, modify in Hinit; discriminate).
  cbn [res_state]. unfold bind at 1. unfold call_dlg_run at 1.
  unfold bind at 1.
  destruct (chattr_switch w modifiable E fuel _ fn _) as [[result end_chattr] g5|g5|g5];
    [|reflexivity..].
  unfold bind at 1. unfold get at 1. unfold bind at 1.
  destruct (negb (marked (current_panel g5) =? 0) && negb (is_B_CANCEL result));
    reflexivity.
Qed.

Lemma chattr_pick_frame g fn g1 :
  chattr_pick g = Ok fn g1 ->
  current_panel g1 = current_panel g /\ trace g1 = trace g
  /\ ignore_all g1 = ignore_all g /\ flags g1 = flags g.
Proof.
  unfold chattr_pick, bind, get.
  destruct (negb (marked (current_panel g) =? 0)).
  - intros Hn. pose proof (next_file_spec g) as Hs. rewrite Hn in Hs.
    destruct Hs as (-> & _). now repeat split.
  - destruct (dir_list (current_panel g) !! selected (current_panel g)); [|discriminate].
    intros H. inversion H. now repeat split.
Qed.

(** X18: on a file system that is not local, and when the flags of the
    file the dialog would open on cannot be read, a round of the command
    shows one message and leaves the loop: no dialog, no write, and the
    panel as it was. *)
Theorem round_gives_up (fuel : nat) (g : globals) :
  (vfs_current_is_local E (now g) = false ->
   chattr_cmd_round w modifiable E fuel g
   = Ok true (log (EvMessage "Cannot change attributes on non-local filesystems")
                  (log (EvIsLocal false) g)))
  /\ (forall fn g1,
        vfs_current_is_local E (now g) = true ->
        chattr_pick (log (EvIsLocal true) g) = Ok fn g1 ->
        fgetflags E (now g1) fn = None ->
        exists g',
          chattr_cmd_round w modifiable E fuel g = Ok true g'
          /\ current_panel g' = current_panel g
          /\ trace g' = EvMessage fn :: EvGetflags fn None :: EvIsLocal true :: trace g).
Proof.
  split.
  - intros Hl. rewrite chattr_cmd_round_unfold. cbv zeta. now rewrite Hl.
  - intros fn g1 Hl Hp Hr. rewrite chattr_cmd_round_unfold. cbv zeta.
    rewrite Hl. cbn [negb]. rewrite Hp, Hr.
    destruct (chattr_pick_frame _ _ _ Hp) as (Hpan & Ht & _).
    eexists. split; [reflexivity|]. cbn. now rewrite Hpan, Ht.
Qed.

(** X19: a round whose dialog is closed with "Cancel" writes nothing, takes
    no mark off and leaves the loop; a round whose dialog is closed with
    "Set" with no flag changed writes nothing, takes the mark off the file
    it was about when files are marked, and leaves the loop exactly when no
    marked file is left. *)
Theorem round_without_write (fuel : nat) (g : globals) (fn : string) (g1 : globals)
    (attr : Z) :
  vfs_current_is_local E (now g) = true ->
  chattr_pick (log (EvIsLocal true) g) = Ok fn g1 ->
  fgetflags E (now g1) fn = Some attr ->
  let g3 := res_state (chattr_init modifiable attr
                         (set_flags attr (log (EvGetflags fn (Some attr)) g1))) in
  let o := dlg_run E (now g3) fn attr (attr_table g3) in
  let g4 := log (EvDialog fn attr (dlg_result o))
                (set_flags (dlg_flags o)
                   (set_flags_changed (dlg_flags_changed o)
                      (set_attr_table (dlg_check_attr o) g3))) in
  trace g4 = EvDialog fn attr (dlg_result o) :: EvGetflags fn (Some attr)
             :: EvIsLocal true :: trace g
  /\ current_panel g4 = current_panel g
  /\ (dlg_result o = B_CANCEL ->
      chattr_cmd_round w modifiable E fuel g = Ok true g4)
  /\ (dlg_result o = B_ENTER -> dlg_flags_changed o = false ->
      let g6 := if negb (marked (current_panel g4) =? 0) then unmark_current g4 else g4 in
      chattr_cmd_round w modifiable E fuel g
      = Ok (marked (current_panel g6) =? 0) g6
      /\ trace g6 = trace g4).
Proof.
  intros Hl Hp Hr g3 o g4.
  destruct (chattr_pick_frame _ _ _ Hp) as (Hpan & Ht & _).
  split; [cbn; now rewrite Ht|]. split; [cbn; now rewrite Hpan|]. split.
  - intros Hc. rewrite chattr_cmd_round_unfold. cbv zeta.
    rewrite Hl. cbn [negb]. rewrite Hp, Hr. fold g3. fold o. fold g4.
    rewrite Hc. cbn [chattr_switch]. unfold ret.
    cbn [is_B_CANCEL negb]. rewrite !andb_false_r. reflexivity.
  - intros He Hfc g6. split.
    + rewrite chattr_cmd_round_unfold. cbv zeta.
      rewrite Hl. cbn [negb]. rewrite Hp, Hr. fold g3. fold o. fold g4.
      rewrite He. cbn [chattr_switch]. unfold chattr_enter, bind, get.
      assert (Hfc4 : flags_changed g4 = false) by exact Hfc.
      rewrite Hfc4. unfold ret. cbn [is_B_CANCEL negb].
      rewrite !andb_true_r. fold g6. now rewrite negb_involutive.
    + unfold g6. now destruct (negb (marked (current_panel g4) =? 0)).
Qed.

End Rounds.

Lemma round_gives_up_witness :
  chattr_cmd_round 32 sample_modifiable env_remote 3 sample_globals
  = Ok true (log (EvMessage "Cannot change attributes on non-local filesystems")
                 (log (EvIsLocal false) sample_globals))
  /\ exists g',
       chattr_cmd_round 32 sample_modifiable env_unreadable 3 sample_globals = Ok true g'
       /\ current_panel g' = sample_panel
       /\ trace g' = [EvMessage "A"; EvGetflags "A" None; EvIsLocal true].
Proof.
  split.
  - apply (proj1 (round_gives_up 32 sample_modifiable env_remote 3 sample_globals)).
    reflexivity.
  - apply (proj2 (round_gives_up 32 sample_modifiable env_unreadable 3 sample_globals)
             "A" (set_current_file 0 (log (EvIsLocal true) sample_globals)));
      reflexivity.
Defined.

Lemma round_without_write_witness :
  exists g',
    chattr_cmd_round 32 sample_modifiable env_dialog_cancel 3 sample_globals = Ok true g'
    /\ current_panel g' = sample_panel
    /\ trace g' = [EvDialog "A" 1 B_CANCEL; EvGetflags "A" (Some 1); EvIsLocal true].
Proof.
  destruct (round_without_write 32 sample_modifiable env_dialog_cancel 3 sample_globals
              "A" (set_current_file 0 (log (EvIsLocal true) sample_globals)) 1
              eq_refl eq_refl eq_refl) as (Ht & Hp & Hc & _).
  eexists. split; [apply Hc; reflexivity|]. split; [exact Hp | exact Ht].
Defined.

(** ** Rounds that stay inside the listing *)

Lemma batch_buttons_need_two (marked_files : Z) (b : button) :
  In b (chattr_init_buttons marked_files) -> is_batch_button b = true ->
  2 <= marked_files.
Proof.
  unfold chattr_init_buttons. destruct (Z.ltb_spec marked_files 2) as [Hlt|Hge]; [|lia].
  simpl. intros [<- | [<- | []]]; discriminate.
Qed.

Section RoundsInBounds.

Variable w : N.
Variable modifiable : Z.
Variable E : env.

Lemma chattr_enter_in_bounds fuel fname2 g :
  is_out_of_bounds (chattr_enter E fuel fname2 g) = false.
Proof.
  unfold chattr_enter, bind, get. destruct (flags_changed g); [|reflexivity].
  destruct (marked (current_panel g) <=? 1).
  - unfold call_fsetflags. cbv zeta.
    destruct (negb _ && negb _); reflexivity.
  - pose proof (try_chattr_in_bounds E fuel fname2 (flags g) g) as H.
    destruct (try_chattr E fuel fname2 (flags g) g) as [[|] g1|g1|g1];
      try discriminate; reflexivity.
Qed.

Lemma chattr_switch_in_bounds fuel result vpath g :
  well_counted g ->
  (is_batch_button result = true -> at_marked g /\ 2 <= marked (current_panel g)) ->
  is_out_of_bounds (chattr_switch w modifiable E fuel result vpath g) = false.
Proof.
  intros Hw Hb.
  assert (Hbatch : forall mk,
    is_batch_button result = true ->
    is_out_of_bounds
      (bind (chattr_apply_mask E fuel vpath (flags (set_masks mk g)))
            (fun _ => ret (result, true)) (set_masks mk g)) = false).
  { intros mk Hr. destruct (Hb Hr) as [Ham Hm]. unfold bind.
    destruct (chattr_apply_mask_in_bounds E fuel vpath (flags (set_masks mk g)) (set_masks mk g))
      as [Hin _]; [exact Hw | exact Ham | exact Hm |].
    destruct (chattr_apply_mask E fuel vpath _ _); try discriminate; reflexivity. }
  destruct result; cbn [chattr_switch]; try reflexivity;
    try apply chattr_enter_in_bounds;
    unfold bind at 1, modify at 1, bind at 1, get at 1;
    cbn [build_mask]; now apply Hbatch.
Qed.

Lemma chattr_pick_in_bounds g :
  well_counted g ->
  (marked (current_panel g) = 0 ->
   exists e, dir_list (current_panel g) !! selected (current_panel g) = Some e) ->
  exists fn g1,
    chattr_pick g = Ok fn g1
    /\ well_counted g1
    /\ current_panel g1 = current_panel g
    /\ (marked (current_panel g) <> 0 -> at_marked g1).
Proof.
  intros Hw Hsel. unfold chattr_pick, bind, get.
  destruct (Z.eqb_spec (marked (current_panel g)) 0) as [H0|H0]; cbn [negb].
  - destruct (Hsel H0) as (e & He). rewrite He. exists (fname e), g.
    split; [reflexivity|]. split; [exact Hw|]. split; [reflexivity|]. contradiction.
  - destruct (well_counted_positive g Hw H0) as (fn & g1 & Hn).
    destruct (well_counted_next_file g g1 fn Hn Hw) as [Hw1 Ham1].
    exists fn, g1. split; [exact Hn|]. split; [exact Hw1|]. split; [|auto].
    pose proof (next_file_spec g) as Hs. rewrite Hn in Hs.
    destruct Hs as (-> & _). reflexivity.
Qed.

(** X20: with a counter that is right, an entry under the cursor when
    nothing is marked, and a dialog that gives a batch button only when
    [chattr_init] has put it there, a round of the command never looks for a
    file outside the listing, and it leaves the counter right.  The dialog
    has the batch buttons only when at least two files are marked. *)
Theorem round_stays_in_listing (fuel : nat) (g : globals) :
  well_counted g ->
  (marked (current_panel g) = 0 ->
   exists e, dir_list (current_panel g) !! selected (current_panel g) = Some e) ->
  (forall n p a t,
     is_batch_button (dlg_result (dlg_run E n p a t)) = true ->
     In (dlg_result (dlg_run E n p a t)) (chattr_init_buttons (marked (current_panel g)))) ->
  is_out_of_bounds (chattr_cmd_round w modifiable E fuel g) = false
  /\ well_counted (res_state (chattr_cmd_round w modifiable E fuel g)).
Proof.
  intros Hw Hsel Hdlg. split.
  2:{ apply (keeps_chattr_cmd_round w modifiable E well_counted well_counted_frame
               well_counted_unmark well_counted_next). exact Hw. }
  rewrite chattr_cmd_round_unfold. cbv zeta.
  destruct (negb (vfs_current_is_local E (now g))); [reflexivity|].
  destruct (chattr_pick_in_bounds (log (EvIsLocal (vfs_current_is_local E (now g))) g))
    as (fn & g1 & Hp & Hw1 & Hpan & Ham); [exact Hw | exact Hsel |].
  rewrite Hp. destruct (fgetflags E (now g1) fn) as [attr|]; [|reflexivity].
  set (g3 := res_state (chattr_init modifiable attr
                          (set_flags attr (log (EvGetflags fn (Some attr)) g1)))).
  set (o := dlg_run E (now g3) fn attr (attr_table g3)).
  set (g4 := log (EvDialog fn attr (dlg_result o)) _).
  assert (Hin : is_out_of_bounds
                  (chattr_switch w modifiable E fuel (dlg_result o) fn g4) = false).
  { apply chattr_switch_in_bounds.
    - exact Hw1.
    - intros Hb. pose proof (batch_buttons_need_two _ _ (Hdlg _ _ _ _ Hb) Hb) as H2.
      split.
      + destruct Ham as (e & He & Hm); [cbn; lia|]. exists e. now split.
      + change (marked (current_panel g4)) with (marked (current_panel g1)).
        rewrite Hpan. exact H2. }
  destruct (chattr_switch w modifiable E fuel (dlg_result o) fn g4)
    as [[result end_chattr] g5|g5|g5]; try discriminate; reflexivity.
Qed.

End RoundsInBounds.

Lemma round_stays_in_listing_witness :
  is_out_of_bounds (chattr_cmd_round 32 sample_modifiable env_B_cancel 5 sample_globals)
  = false
  /\ well_counted (res_state (chattr_cmd_round 32 sample_modifiable env_B_cancel 5
                                sample_globals)).
Proof.
  apply (round_stays_in_listing 32 sample_modifiable env_B_cancel 5 sample_globals).
  - reflexivity.
  - discriminate.
  - intros n p a t _. simpl. auto.
Defined.

(** ** Marked files only *)

Lemma only_unmarked_names (l0 l : list file_entry) (p : string) :
  only_unmarked l0 l -> names_marked l p = true -> names_marked l0 p = true.
Proof.
  unfold names_marked. induction 1 as [|e0 e l0 l [Hn Hm] _ IH]; [auto|].
  simpl. intros H. apply orb_prop in H as [H|H].
  - apply andb_prop in H as [Hp Hmk]. rewrite <- Hn, Hp, (Hm Hmk). reflexivity.
  - rewrite (IH H). apply orb_true_r.
Qed.

Lemma lookup_names_marked (l : list file_entry) (k : nat) (fn : string) :
  l !! k = Some (FileEntry fn true) -> names_marked l fn = true.
Proof.
  unfold names_marked. revert k. induction l as [|a l IH]; intros k H; [discriminate|].
  destruct k as [|k]; simpl in *.
  - inversion H; subst a. simpl. now rewrite String.eqb_refl.
  - rewrite (IH k H). apply orb_true_r.
Qed.

Lemma try_events_on_marked (l0 : list file_entry) (fn : string) (m : Z) (ev : list event) :
  names_marked l0 fn = true ->
  forallb (is_try_event fn m) ev = true -> forallb (on_marked l0) ev = true.
Proof.
  intros Hn. induction ev as [|e ev IH]; [reflexivity|].
  simpl. intros H. apply andb_prop in H as [He H]. rewrite (IH H), andb_true_r.
  destruct e; simpl in *; try discriminate.
  - apply andb_prop in He as [Hp _]. apply String.eqb_eq in Hp. now subst.
  - apply String.eqb_eq in He. now subst.
Qed.

Lemma on_marked_weaken (l0 l : list file_entry) (ev : list event) :
  only_unmarked l0 l -> forallb (on_marked l) ev = true -> forallb (on_marked l0) ev = true.
Proof.
  intros Hu. induction ev as [|e ev IH]; [reflexivity|].
  simpl. intros H. apply andb_prop in H as [He H]. rewrite (IH H), andb_true_r.
  destruct e; simpl in *; auto; now apply (only_unmarked_names l0 l).
Qed.

(** X21: every read, write and prompt of the loop of a batch is about a
    file that was marked when the loop started. *)
Theorem batch_touches_marked_only (E : env) (fuel : nat) :
  forall g, exists ev,
    trace (res_state (chattr_apply_loop E fuel g)) = ev ++ trace g
    /\ forallb (on_marked (dir_list (current_panel g))) ev = true.
Proof.
  induction fuel as [|fuel IH]; intros g; [now exists []|].
  rewrite chattr_apply_loop_unfold.
  pose proof (next_file_spec g) as Hs.
  destruct (next_file g) as [fn g1|g1|g1]; [|contradiction|].
  2:{ destruct Hs as [-> _]. now exists []. }
  destruct Hs as (Hg1 & _ & Hk & _).
  assert (Hp1 : current_panel g1 = current_panel g) by (rewrite Hg1; reflexivity).
  assert (Ht1 : trace g1 = trace g) by (rewrite Hg1; reflexivity).
  pose proof (lookup_names_marked _ _ _ Hk) as Hname.
  set (l0 := dir_list (current_panel g)) in *.
  assert (Hrest : forall g3 ev1,
    trace g3 = ev1 ++ trace g -> forallb (on_marked l0) ev1 = true ->
    only_unmarked l0 (dir_list (current_panel g3)) ->
    exists ev, trace (res_state (chattr_apply_loop E fuel g3)) = ev ++ trace g
               /\ forallb (on_marked l0) ev = true).
  { intros g3 ev1 Hev1 Hon Hu. destruct (IH g3) as (ev3 & Hev3 & Hon3).
    exists (ev3 ++ ev1). split.
    - rewrite Hev3, Hev1, <- app_assoc. reflexivity.
    - rewrite forallb_app, Hon, andb_true_r. now apply (on_marked_weaken l0 _ ev3 Hu). }
  cbv zeta. destruct (fgetflags E (now g1) fn) as [v|].
  - set (g2 := set_flags v (log (EvGetflags fn (Some v)) g1)).
    destruct (do_chattr_events E fuel fn v g2) as (ev & Hev & Hall).
    change (trace g2) with (EvGetflags fn (Some v) :: trace g1) in Hev. rewrite Ht1 in Hev.
    assert (Hon : forallb (on_marked l0) (ev ++ [EvGetflags fn (Some v)]) = true).
    { rewrite forallb_app. simpl. rewrite Hname, andb_true_r.
      rewrite (try_events_on_marked l0 fn _ ev Hname Hall). reflexivity. }
    assert (Hu : only_unmarked l0 (dir_list (current_panel
                                               (res_state (do_chattr E fuel fn v g2))))).
    { apply (keeps_do_chattr E (fun g' => only_unmarked l0 (dir_list (current_panel g')))).
      - intros ga gb Hp _ H. now rewrite Hp.
      - intros ga. apply only_unmarked_unmark.
      - change (current_panel g2) with (current_panel g1). rewrite Hp1.
        apply only_unmarked_refl. }
    assert (Hev' : trace (res_state (do_chattr E fuel fn v g2))
                   = (ev ++ [EvGetflags fn (Some v)]) ++ trace g)
      by (rewrite Hev, <- app_assoc; reflexivity).
    destruct (do_chattr E fuel fn v g2) as [ok g3|g3|g3]; cbn [res_state] in *;
      try (now exists (ev ++ [EvGetflags fn (Some v)])).
    destruct (ok && negb (marked (current_panel g3) =? 0)).
    + now apply (Hrest g3 (ev ++ [EvGetflags fn (Some v)])).
    + now exists (ev ++ [EvGetflags fn (Some v)]).
  - set (g3 := unmark_current (log (EvGetflags fn None) g1)).
    assert (Hon : forallb (on_marked l0) [EvGetflags fn None] = true)
      by (simpl; now rewrite Hname).
    assert (Hev : trace g3 = [EvGetflags fn None] ++ trace g)
      by (cbn; now rewrite Ht1).
    destruct (negb (marked (current_panel g3) =? 0)).
    + apply (Hrest g3 [EvGetflags fn None] Hev Hon).
      unfold g3. apply only_unmarked_unmark. cbn. rewrite Hp1. apply only_unmarked_refl.
    + now exists [EvGetflags fn None].
Qed.

(** * The batch reaches every marked file *)

Lemma mask_applied_app_l (mk : mask_pair) (fn : string) (a t : list event) :
  mask_applied mk fn t = true -> mask_applied mk fn (a ++ t) = true.
Proof.
  intros H. induction a as [|e a IH]; [exact H|].
  cbn [app mask_applied]. rewrite IH. apply orb_true_r.
Qed.

Lemma mask_applied_app_r (mk : mask_pair) (fn : string) (t b : list event) :
  mask_applied mk fn t = true -> mask_applied mk fn (t ++ b) = true.
Proof.
  induction t as [|e t IH]; [discriminate|].
  cbn [app mask_applied]. intros H. apply orb_true_iff in H. apply orb_true_iff.
  destruct H as [H|H]; [left | right; now apply IH].
  destruct e; try discriminate H; try exact H.
  destruct t as [|[] t]; try discriminate H. exact H.
Qed.

Lemma mask_applied_pair (mk : mask_pair) (fn : string) (v : Z) (ok : bool)
    (t : list event) :
  mask_applied mk fn (EvSetflags fn (apply_mask mk v) ok :: EvGetflags fn (Some v) :: t)
  = true.
Proof. cbn [mask_applied]. now rewrite String.eqb_refl, Z.eqb_refl. Qed.

Lemma mask_applied_unread (mk : mask_pair) (fn : string) (t : list event) :
  mask_applied mk fn (EvGetflags fn None :: t) = true.
Proof. cbn [mask_applied]. now rewrite String.eqb_refl. Qed.

Lemma count_marked_zero (l : list file_entry) :
  count_marked l = 0%nat -> forall i e, l !! i = Some e -> f_marked e = false.
Proof.
  induction l as [|a l IH]; intros H i e He; [discriminate|].
  cbn [count_marked] in H. destruct i as [|i]; cbn in He.
  - inversion He; subst a. destruct (f_marked e); [lia | reflexivity].
  - apply (IH ltac:(lia) i e He).
Qed.

Section Reach.

Variable E : env.

Lemma stopped_by_cancel_app (ev ev' : list event) :
  stopped_by_cancel ev = true -> stopped_by_cancel (ev ++ ev') = true.
Proof. now destruct ev. Qed.

Lemma do_chattr_shape fuel p m g ok g' :
  do_chattr E fuel p m g = Ok ok g' ->
  exists ev okw,
    trace g' = ev ++ EvSetflags p (apply_mask (masks g) m) okw :: trace g
    /\ (ok = false -> stopped_by_cancel ev = true).
Proof.
  intros H. rewrite do_chattr_unfold in H.
  destruct fuel as [|fuel]; [discriminate|].
  destruct (try_chattr_first_write E fuel p (apply_mask (masks g) m) g) as (ev & Hev).
  destruct (try_chattr E (S fuel) p (apply_mask (masks g) m) g) as [r g1|g1|g1] eqn:Ht;
    try discriminate.
  inversion H; subst. cbn [res_state] in Hev.
  exists ev. eexists. split; [exact Hev|]. intros ->.
  destruct (try_chattr_false E (S fuel) p _ g g1 Ht) as (a & ev0 & Hq & Hc).
  change (trace (unmark_current g1)) with (trace g1) in Hev.
  rewrite Hq in Hev. destruct ev as [|e ev]; [discriminate|].
  inversion Hev; subst e. exact Hc.
Qed.

Lemma chattr_apply_loop_reaches fuel :
  forall g,
    well_counted g ->
    returned (chattr_apply_loop E fuel g) = true ->
    exists ev,
         trace (res_state (chattr_apply_loop E fuel g)) = ev ++ trace g
         /\ (marked (current_panel (res_state (chattr_apply_loop E fuel g))) = 0
             \/ stopped_by_cancel ev = true)
         /\ forall i e,
              (current_file g <= i
               <= current_file (res_state (chattr_apply_loop E fuel g)))%nat ->
              dir_list (current_panel g) !! i = Some e -> f_marked e = true ->
              mask_applied (masks g) (fname e) ev = true.
Proof.
  induction fuel as [|fuel IH]; intros g Hw Hr; [discriminate|].
  rewrite chattr_apply_loop_unfold in *.
  pose proof (next_file_spec g) as Hs.
  destruct (next_file g) as [fn g1|g1|g1] eqn:Hn; try discriminate.
  destruct Hs as (Hg1 & Hle & Hk & Hskip & _).
  pose proof (well_counted_next g fn g1 Hn Hw) as Hw1.
  assert (Hp1 : current_panel g1 = current_panel g) by (rewrite Hg1; reflexivity).
  assert (Ht1 : trace g1 = trace g) by (rewrite Hg1; reflexivity).
  assert (Hm1 : masks g1 = masks g) by (rewrite Hg1; reflexivity).
  set (k := current_file g1) in *.
  assert (Hjoin : forall g3 (c : bool) ev_r,
    current_file g3 = k ->
    (forall i, i <> k ->
       dir_list (current_panel g3) !! i = dir_list (current_panel g) !! i) ->
    masks g3 = masks g -> well_counted g3 ->
    trace g3 = ev_r ++ trace g ->
    mask_applied (masks g) fn ev_r = true ->
    (c = false -> marked (current_panel g3) = 0 \/ stopped_by_cancel ev_r = true) ->
    returned (if c then chattr_apply_loop E fuel g3 else Ok tt g3) = true ->
    exists ev,
         trace (res_state (if c then chattr_apply_loop E fuel g3 else Ok tt g3))
         = ev ++ trace g
         /\ (marked (current_panel
                       (res_state (if c then chattr_apply_loop E fuel g3 else Ok tt g3))) = 0
             \/ stopped_by_cancel ev = true)
         /\ forall i e,
              (current_file g <= i
               <= current_file (res_state (if c then chattr_apply_loop E fuel g3
                                           else Ok tt g3)))%nat ->
              dir_list (current_panel g) !! i = Some e -> f_marked e = true ->
              mask_applied (masks g) (fname e) ev = true).
  { intros g3 c ev_r Hcf Hoff Hmk Hw3 Htr Hap Hstop Hret.
    assert (Hlow : forall i e, (current_file g <= i <= k)%nat ->
              dir_list (current_panel g) !! i = Some e -> f_marked e = true ->
              i = k /\ fname e = fn).
    { intros i e Hi Hl Hm. destruct (Nat.eq_dec i k) as [->|Hne].
      - split; [reflexivity|]. rewrite Hk in Hl. now inversion Hl.
      - rewrite (Hskip i e) in Hm; [discriminate | lia | exact Hl]. }
    destruct c.
    - destruct (IH g3 Hw3 Hret) as (ev3 & Ht3 & Hda & Hall3).
      exists (ev3 ++ ev_r). split; [|split].
      + rewrite Ht3, Htr. apply app_assoc.
      + destruct Hda as [H0|Hc]; [now left | right; now apply stopped_by_cancel_app].
      + intros i e Hi Hl Hm. destruct (le_gt_dec i k) as [Hik|Hik].
        * destruct (Hlow i e ltac:(lia) Hl Hm) as [_ ->].
          now apply mask_applied_app_l.
        * apply mask_applied_app_r. rewrite <- Hmk.
          apply (Hall3 i e); [lia | | exact Hm].
          rewrite Hoff; [exact Hl | lia].
    - cbn [res_state] in *.
      exists ev_r. split; [exact Htr|]. split; [now apply Hstop|].
      intros i e Hi Hl Hm.
      destruct (Hlow i e ltac:(lia) Hl Hm) as [_ ->]. exact Hap. }
  cbv zeta in *. destruct (fgetflags E (now g1) fn) as [v|].
  - set (g2 := set_flags v (log (EvGetflags fn (Some v)) g1)) in *.
    assert (Hw2 : well_counted g2) by exact Hw1.
    destruct (do_chattr_residue E fuel fn v g2) as [Hcf3 Hoff3].
    destruct (do_chattr_masks E fuel fn v g2) as [Hmk3 _].
    destruct (do_chattr_counted E fuel fn v g2 Hw2) as (_ & Hw3 & _).
    destruct (do_chattr E fuel fn v g2) as [ok g3|g3|g3] eqn:Hd; try discriminate.
    cbn [res_state] in *.
    destruct (do_chattr_shape fuel fn v g2 ok g3 Hd) as (ev0 & okw & Hev0 & Hcan).
    apply (Hjoin g3 (ok && negb (marked (current_panel g3) =? 0))
             (ev0 ++ [EvSetflags fn (apply_mask (masks g) v) okw; EvGetflags fn (Some v)])).
    + exact Hcf3.
    + intros i Hi. rewrite (Hoff3 i Hi). change (current_panel g2) with (current_panel g1).
      now rewrite Hp1.
    + rewrite Hmk3. exact Hm1.
    + exact Hw3.
    + rewrite Hev0. change (masks g2) with (masks g1). rewrite Hm1.
      change (trace g2) with (EvGetflags fn (Some v) :: trace g1). rewrite Ht1.
      now rewrite <- app_assoc.
    + apply mask_applied_app_l. apply mask_applied_pair.
    + intros Hc. destruct ok.
      * left. cbn [andb] in Hc. now apply negb_false_iff, Z.eqb_eq in Hc.
      * right. apply stopped_by_cancel_app. now apply Hcan.
    + exact Hr.
  - set (g3 := unmark_current (log (EvGetflags fn None) g1)) in *.
    apply (Hjoin g3 (negb (marked (current_panel g3) =? 0)) [EvGetflags fn None]).
    + reflexivity.
    + intros i Hi. unfold g3, unmark_current. cbn.
      rewrite do_file_mark_other by exact Hi. now rewrite Hp1.
    + exact Hm1.
    + apply well_counted_unmark. exact Hw1.
    + cbn. now rewrite Ht1.
    + apply mask_applied_unread.
    + intros Hc. left. now apply negb_false_iff, Z.eqb_eq in Hc.
    + exact Hr.
Qed.

Lemma chattr_apply_mask_reaches fuel vpath m g :
  well_counted g ->
  returned (chattr_apply_mask E fuel vpath m g) = true ->
  exists ev okw,
    trace (res_state (chattr_apply_mask E fuel vpath m g))
    = (ev ++ [EvSetflags vpath (apply_mask (masks g) m) okw]) ++ trace g
    /\ (marked (current_panel (res_state (chattr_apply_mask E fuel vpath m g))) = 0
        \/ stopped_by_cancel ev = true)
    /\ forall i e,
         (current_file g < i
          <= current_file (res_state (chattr_apply_mask E fuel vpath m g)))%nat ->
         dir_list (current_panel g) !! i = Some e -> f_marked e = true ->
         mask_applied (masks g) (fname e) ev = true.
Proof.
  intros Hw Hr. rewrite chattr_apply_mask_unfold in *.
  destruct (do_chattr_residue E fuel vpath m g) as [Hcf1 Hoff1].
  destruct (do_chattr_masks E fuel vpath m g) as [Hmk1 _].
  destruct (do_chattr_counted E fuel vpath m g Hw) as (_ & Hw1 & _).
  destruct (do_chattr E fuel vpath m g) as [ok g1|g1|g1] eqn:Hd; try discriminate.
  destruct (do_chattr_shape fuel vpath m g ok g1 Hd) as (first & okw & Hfirst & Hcan).
  cbn [res_state] in *. destruct ok.
  - destruct (chattr_apply_loop_reaches fuel g1 Hw1 Hr) as (ev & Hev & Hda & Hall).
    exists (ev ++ first), okw. split; [|split].
    + rewrite Hev, Hfirst, <- !app_assoc. reflexivity.
    + destruct Hda as [H0|Hc]; [now left | right; now apply stopped_by_cancel_app].
    + intros i e Hi Hl Hm. apply mask_applied_app_r. rewrite <- Hmk1.
      apply (Hall i e); [lia | | exact Hm]. rewrite Hoff1; [exact Hl | lia].
  - cbn [res_state] in *.
    exists first, okw. split; [|split].
    + rewrite Hfirst, <- app_assoc. reflexivity.
    + right. now apply Hcan.
    + intros i e Hi. lia.
Qed.

(** When the batch is over with no marked file left, no entry behind
    [current_file] was marked when it started. *)
Lemma chattr_apply_mask_none_left fuel vpath m g :
  well_counted g ->
  marked (current_panel (res_state (chattr_apply_mask E fuel vpath m g))) = 0 ->
  forall i e,
    (current_file (res_state (chattr_apply_mask E fuel vpath m g)) < i)%nat ->
    dir_list (current_panel g) !! i = Some e -> f_marked e = false.
Proof.
  intros Hw H0 i e Hi Hl.
  assert (Hwf : well_counted (res_state (chattr_apply_mask E fuel vpath m g))).
  { apply (keeps_chattr_apply_mask E well_counted well_counted_frame
             well_counted_unmark well_counted_next); exact Hw. }
  rewrite <- (chattr_apply_mask_residue E fuel vpath m g i Hi) in Hl.
  unfold well_counted in Hwf. rewrite H0 in Hwf.
  set (gf := res_state (chattr_apply_mask E fuel vpath m g)) in *.
  apply (count_marked_zero (drop (current_file gf) (dir_list (current_panel gf)))
           ltac:(lia) (i - current_file gf)%nat e).
  rewrite lookup_drop. replace (current_file gf + (i - current_file gf))%nat with i by lia.
  exact Hl.
Qed.

Lemma chattr_apply_mask_returns fuel vpath m g :
  never_retries E -> well_counted g -> at_marked g ->
  2 <= marked (current_panel g) ->
  (Z.to_nat (marked (current_panel g)) <= fuel)%nat ->
  returned (chattr_apply_mask E fuel vpath m g) = true.
Proof.
  intros Hnr Hw Ham Hm Hfuel. rewrite chattr_apply_mask_unfold.
  destruct fuel as [|fuel']; [lia|].
  destruct (do_chattr_returns E fuel' vpath m g Hnr) as (ok & g1 & Hd & _).
  destruct (do_chattr_counted E (S fuel') vpath m g Hw) as (_ & Hw1 & Hdec).
  rewrite Hd in *. cbn [res_state] in Hw1.
  destruct ok; [|reflexivity].
  pose proof (Hdec true g1 eq_refl Ham) as Hm1.
  apply chattr_apply_loop_ends; auto; lia.
Qed.

Lemma chattr_switch_batch (w : N) (modifiable : Z) fuel result vpath g mk :
  build_mask w modifiable result (attr_table g) = Some mk ->
  chattr_switch w modifiable E fuel result vpath g
  = match chattr_apply_mask E fuel vpath (flags g) (set_masks mk g) with
    | Ok _ g' => Ok (result, true) g'
    | OutOfFuel g' => OutOfFuel g'
    | OutOfBounds g' => OutOfBounds g'
    end.
Proof.
  intros Hb. unfold chattr_switch.
  destruct result; try discriminate Hb; unfold bind, modify, get, ret; rewrite Hb;
    cbn [flags set_masks];
    now destruct (chattr_apply_mask _ _ _ _ _).
Qed.

End Reach.

(** C1: a batch started with one of the four batch buttons runs
    [chattr_apply_mask] under the masks derived from the checkboxes of the
    dialog, on the flags of the dialog.  The write for the first file
    stores those flags transformed by the masks, and every later write
    stores the flags just read from the same file transformed by the same
    masks, which the batch never changes; after a read that succeeds the
    write follows at once.  A bit with the identity transformation keeps
    the value the file had, every other bit gets the value of [or_mask]
    whatever the file had.

    Every marked file has its turn.  With a counter of marked files that is
    right, a batch that returns has first written the flags of the dialog,
    transformed by the masks, to the first file, and has then dealt with
    every entry that was marked behind the first file, up to the entry it
    stopped at: the flags of the entry were read, and when the read gave
    flags, these flags transformed by the masks were written to the entry
    at once.  The batch stops early only at a prompt answered "Cancel";
    otherwise no marked file is left and every entry that was marked behind
    the first file was dealt with.  And the batch does return when the user
    never answers "Retry". *)
Theorem batch_applies_mask_to_fresh_flags (w : N) (modifiable : Z) (E : env)
    (fuel : nat) (vpath : string) (m : Z) (g : globals) :
  (exists first rest,
      trace (res_state (chattr_apply_mask E fuel vpath m g)) = rest ++ first ++ trace g
      /\ forallb (is_try_event vpath (apply_mask (masks g) m)) first = true
      /\ writes_masked (masks g) rest = true)
  /\ masks (res_state (chattr_apply_mask E fuel vpath m g)) = masks g
  /\ (forall fn g1 fresh,
        next_file g = Ok fn g1 ->
        fgetflags E (now g1) fn = Some fresh ->
        exists ev,
          trace (res_state (chattr_apply_loop E (S (S fuel)) g))
          = ev ++ EvSetflags fn (apply_mask (masks g) fresh)
                    (fsetflags E (S (now g)) fn (apply_mask (masks g) fresh))
               :: EvGetflags fn (Some fresh) :: trace g)
  /\ (forall fresh i,
        (mask_bit (masks g) i = (true, false) ->
         Z.testbit (apply_mask (masks g) fresh) i = Z.testbit fresh i)
        /\ (mask_bit (masks g) i <> (true, false) ->
            Z.testbit (apply_mask (masks g) fresh) i = Z.testbit (or_mask (masks g)) i))
  /\ (well_counted g ->
      (never_retries E -> at_marked g -> 2 <= marked (current_panel g) ->
       (Z.to_nat (marked (current_panel g)) <= fuel)%nat ->
       returned (chattr_apply_mask E fuel vpath m g) = true)
      /\ (returned (chattr_apply_mask E fuel vpath m g) = true ->
          exists ev okw,
            trace (res_state (chattr_apply_mask E fuel vpath m g))
            = (ev ++ [EvSetflags vpath (apply_mask (masks g) m) okw]) ++ trace g
            /\ (forall i e,
                  (current_file g < i
                   <= current_file (res_state (chattr_apply_mask E fuel vpath m g)))%nat ->
                  dir_list (current_panel g) !! i = Some e -> f_marked e = true ->
                  mask_applied (masks g) (fname e) ev = true)
            /\ (stopped_by_cancel ev = true
                \/ (marked (current_panel
                              (res_state (chattr_apply_mask E fuel vpath m g))) = 0
                    /\ forall i e,
                         (current_file g < i)%nat ->
                         dir_list (current_panel g) !! i = Some e -> f_marked e = true ->
                         mask_applied (masks g) (fname e) ev = true))))
  /\ (forall result mk,
        build_mask w modifiable result (attr_table g) = Some mk ->
        chattr_switch w modifiable E fuel result vpath g
        = match chattr_apply_mask E fuel vpath (flags g) (set_masks mk g) with
          | Ok _ g' => Ok (result, true) g'
          | OutOfFuel g' => OutOfFuel g'
          | OutOfBounds g' => OutOfBounds g'
          end).
Proof.
  split; [|split; [|split; [|split; [|split]]]].
  - rewrite chattr_apply_mask_unfold.
    destruct (do_chattr_events E fuel vpath m g) as (first & Hfirst & Hall).
    destruct (do_chattr_masks E fuel vpath m g) as [Hmk _].
    destruct (do_chattr E fuel vpath m g) as [[|] g1|g1|g1]; cbn [res_state] in *;
      try (exists first, []; now repeat split).
    destruct (chattr_apply_loop_masked E fuel g1) as (rest & Hrest & Hw & _).
    exists first, rest. rewrite Hrest, Hfirst. repeat split; auto. now rewrite <- Hmk.
  - rewrite chattr_apply_mask_unfold.
    destruct (do_chattr_masks E fuel vpath m g) as [Hmk _].
    destruct (do_chattr E fuel vpath m g) as [[|] g1|g1|g1]; cbn [res_state] in *; auto.
    destruct (chattr_apply_loop_masked E fuel g1) as (_ & _ & _ & Hmk1). congruence.
  - intros fn g1 fresh. apply chattr_apply_loop_writes_fresh.
  - intros fresh i. unfold mask_bit. rewrite apply_mask_spec.
    destruct (Z.testbit (and_mask (masks g)) i), (Z.testbit (or_mask (masks g)) i),
      (Z.testbit fresh i); split; intros H; try reflexivity; try discriminate;
      exfalso; now apply H.
  - intros Hw. split; [intros Hnr Ham Hm Hf; now apply chattr_apply_mask_returns|].
    intros Hr.
    destruct (chattr_apply_mask_reaches E fuel vpath m g Hw Hr)
      as (ev & okw & Hev & Hda & Hall).
    exists ev, okw. split; [exact Hev|]. split; [exact Hall|].
    destruct Hda as [H0|Hab]; [right | left; exact Hab].
    split; [exact H0|]. intros i e Hi Hl Hm.
    destruct (le_gt_dec i (current_file (res_state (chattr_apply_mask E fuel vpath m g))))
      as [Hle|Hgt].
    + apply (Hall i e); [lia | exact Hl | exact Hm].
    + rewrite (chattr_apply_mask_none_left E fuel vpath m g Hw H0 i e Hgt Hl) in Hm.
      discriminate.
  - intros result mk. apply chattr_switch_batch.
Qed.

Lemma batch_applies_mask_to_fresh_flags_witness :
  (exists ev,
      trace (res_state (chattr_apply_loop env_fine 7 (set_current_file 1 sample_globals)))
      = ev ++ [EvSetflags "B" 0x52 true; EvGetflags "B" (Some 0x42)])
  /\ Z.testbit (apply_mask (masks sample_globals) 0x42) 6 = Z.testbit 0x42 6
  /\ Z.testbit (apply_mask (masks sample_globals) 0x42) 4
     = Z.testbit (or_mask (masks sample_globals)) 4
  /\ returned (chattr_apply_mask env_fine 5 "A" 1 sample_globals) = true
  /\ (exists ev okw,
        trace (res_state (chattr_apply_mask env_fine 5 "A" 1 sample_globals))
        = (ev ++ [EvSetflags "A" 0x11 okw]) ++ trace sample_globals
        /\ mask_applied (masks sample_globals) "B" ev = true
        /\ mask_applied (masks sample_globals) "C" ev = true).
Proof.
  destruct (batch_applies_mask_to_fresh_flags 32 sample_modifiable env_fine 5 "A" 1
              (set_current_file 1 sample_globals)) as (_ & _ & Hw & Hb & _).
  destruct (batch_applies_mask_to_fresh_flags 32 sample_modifiable env_fine 5 "A" 1
              sample_globals) as (_ & _ & _ & _ & Hall & _).
  assert (Hwc : well_counted sample_globals) by reflexivity.
  destruct (Hall Hwc) as [Hret Hreach].
  assert (Hr : returned (chattr_apply_mask env_fine 5 "A" 1 sample_globals) = true).
  { apply Hret.
    - intros n p. discriminate.
    - exists (FileEntry "A" true). now split.
    - discriminate.
    - vm_compute. lia. }
  split; [|split; [|split; [|split]]].
  - exact (Hw "B" (set_current_file 2 (set_current_file 1 sample_globals)) 0x42
             eq_refl eq_refl).
  - apply (proj1 (Hb 0x42 6)). reflexivity.
  - apply (proj2 (Hb 0x42 4)). discriminate.
  - exact Hr.
  - destruct (Hreach Hr) as (ev & okw & Hev & _ & [Hab | [_ Hev_all]]).
    + exfalso. destruct ev as [|e ev]; [discriminate|].
      assert (Ht : trace (res_state (chattr_apply_mask env_fine 5 "A" 1 sample_globals))
                   = [EvSetflags "C" 0x90 true; EvGetflags "C" (Some 0x80);
                      EvSetflags "B" 0x52 true; EvGetflags "B" (Some 0x42);
                      EvSetflags "A" 0x11 true]) by (vm_compute; reflexivity).
      rewrite Ht in Hev. inversion Hev; subst e. discriminate.
    + exists ev, okw. split; [exact Hev|]. split.
      * apply (Hev_all 2%nat (FileEntry "B" true)); [simpl; lia | reflexivity | reflexivity].
      * apply (Hev_all 3%nat (FileEntry "C" true)); [simpl; lia | reflexivity | reflexivity].
Defined.
